(** * The AT91 USART controller driven as an SPI master

    A shallow embedding of [drivers/spi/spi-at91-usart.c]: the register
    file of the USART, the driver's private state, the polled transmit
    path, the interrupt-driven receive path, the per-peer mode cache and
    the message bracket, attach and detach and the power-management
    callbacks, followed by the properties of the transfer engine, of the
    clock/mode configuration and of the driver's life cycle.

    Conventions.
    - C integers are [Z] with the wrap-around of their type written out
      ([u32], [s32], [ulong]); bit operations are those of [Z].
    - Bytes ([u8]) are [Byte.byte]; buffers are lists of bytes indexed with
      stdpp's lookup and insert, an access outside the list being a fault.
      The transmit and the receive buffer of a transfer are two lists: a
      transfer done in place, on one buffer, is not represented.
    - Pointer arithmetic depends on the data model of the build, ILP32 or
      LP64, which the transfer engine takes as a parameter.
    - Driver code is written in a state-and-fault monad over the driver's
      private structure; every register access, lock operation and store
      to a field shared between the two execution contexts is recorded in
      a journal together with the state of the spinlock at that moment.
    - The polling context and the interrupt context are interleaved by an
      explicit schedule of events: the polling context is cut at its
      statements, the handler runs to completion between two of them.
    - Calls into the clock, pin-control and SPI-core interfaces of the
      kernel are recorded in a log; what they answer is a parameter. *)

From Stdlib Require Import ZArith List Lia Bool.
From Stdlib.Strings Require Import Byte.
From stdpp Require Import base list option gmap.

Open Scope Z_scope.

(** ** Machine integers *)

Definition u32 (z : Z) : Z := z `mod` 2 ^ 32.

(** Conversion to [int]: the value is reduced modulo 2^32 into the signed
    range, which is what the compilers used for the kernel do. *)
Definition s32 (z : Z) : Z :=
  let m := z `mod` 2 ^ 32 in if m <? 2 ^ 31 then m else m - 2 ^ 32.

(** [unsigned long] is as wide as the machine word: 32 bits on the ARM
    cores that carry this USART, 64 on an LP64 build. *)
Definition ulong (BITS_PER_LONG : Z) (z : Z) : Z := z `mod` 2 ^ BITS_PER_LONG.

Definition INT_MAX : Z := 2 ^ 31 - 1.

(** The data model of the build.  [int] and [unsigned int] are 32 bits
    wide in both; a pointer (like [long]) is 32 bits wide under ILP32, the
    model of the ARM cores that carry this USART, and 64 bits wide under
    LP64, for which the driver can be built as well. *)
Inductive data_model : Set := ILP32 | LP64.

Definition pointer_bits (m : data_model) : Z :=
  match m with ILP32 => 32 | LP64 => 64 end.

(** [buf + i] for an index [i] of type [int]: the index is converted to the
    width of a pointer and the addition wraps at that width.  The result is
    how far past [buf] the access lands; an index below zero lands past
    the end of every object that starts at [buf], unless the addition
    wraps at the width of [int] itself. *)
Definition pointer_offset (m : data_model) (i : Z) : Z :=
  i `mod` 2 ^ pointer_bits m.

(** The lengths of a transfer at which an index computed in [int] from
    values that fit [unsigned int] lands where the same index computed in
    [unsigned int] would: every length under ILP32, at most 2^31 under
    LP64. *)
Definition rx_index_fits (m : data_model) (n : Z) : Prop :=
  m = LP64 -> n <= 2 ^ 31.

(** Kernel macros the driver uses; they are defined in the kernel's
    headers ([linux/bits.h], [linux/kernel.h]), not in the driver. *)
Definition BIT (n : Z) : Z := Z.shiftl 1 n.

Definition GENMASK (h l : Z) : Z :=
  Z.land (Z.shiftl (Z.ones 32) l) (Z.shiftr (Z.ones 32) (31 - h)).

(** The kernel's round-up division, [((n) + (d) - 1) / (d)], evaluated in
    the unsigned type of its operands, [bits] wide: the addition wraps
    like any unsigned addition. *)
Definition DIV_ROUND_UP (bits : Z) (n d : Z) : Z :=
  ((n + d - 1) `mod` 2 ^ bits) `div` d.

(** The ceiling of [n / d] in exact arithmetic, as a relation: [q] is the
    least integer with [n <= q * d]. *)
Definition is_ceil_div (n d q : Z) : Prop := (q - 1) * d < n <= q * d.

(** ** Register map and bit fields *)

Inductive reg : Set :=
| US_CR | US_MR | US_IER | US_IDR | US_CSR | US_RHR | US_THR | US_BRGR
| US_VERSION.

Definition reg_offset (r : reg) : Z :=
  match r with
  | US_CR => 0x00 | US_MR => 0x04 | US_IER => 0x08 | US_IDR => 0x0C
  | US_CSR => 0x14 | US_RHR => 0x18 | US_THR => 0x1C | US_BRGR => 0x20
  | US_VERSION => 0xFC
  end.

Definition US_CR_RSTRX : Z := BIT 2.
Definition US_CR_RSTTX : Z := BIT 3.
Definition US_CR_RXEN : Z := BIT 4.
Definition US_CR_RXDIS : Z := BIT 5.
Definition US_CR_TXEN : Z := BIT 6.
Definition US_CR_TXDIS : Z := BIT 7.

Definition US_MR_SPI_MASTER : Z := 0x0E.
Definition US_MR_CHRL : Z := GENMASK 7 6.
Definition US_MR_CPHA : Z := BIT 8.
Definition US_MR_CPOL : Z := BIT 16.
Definition US_MR_CLKO : Z := BIT 18.
Definition US_MR_WRDBT : Z := BIT 20.
Definition US_MR_LOOP : Z := BIT 15.

Definition US_IR_RXRDY : Z := BIT 0.
Definition US_IR_TXRDY : Z := BIT 1.
Definition US_IR_OVRE : Z := BIT 5.

Definition US_BRGR_SIZE : Z := BIT 16.

Definition US_MIN_CLK_DIV : Z := 0x06.
Definition US_MAX_CLK_DIV : Z := BIT 16.

Definition US_RESET : Z := Z.lor US_CR_RSTRX US_CR_RSTTX.
Definition US_DISABLE : Z := Z.lor US_CR_RXDIS US_CR_TXDIS.
Definition US_ENABLE : Z := Z.lor US_CR_RXEN US_CR_TXEN.
Definition US_OVRE_RXRDY_IRQS : Z := Z.lor US_IR_OVRE US_IR_RXRDY.

Definition US_INIT : Z :=
  Z.lor (Z.lor (Z.lor US_MR_SPI_MASTER US_MR_CHRL) US_MR_CLKO) US_MR_WRDBT.

(** Mode flags of a peer and error numbers, as [linux/spi/spi.h] and
    [errno-base.h] define them. *)
Definition SPI_CPHA : Z := 0x01.
Definition SPI_CPOL : Z := 0x02.
Definition SPI_CS_HIGH : Z := 0x04.
Definition SPI_LOOP : Z := 0x20.

Definition EIO : Z := 5.
Definition ENOMEM : Z := 12.
Definition EINVAL : Z := 22.

Inductive irqreturn_t : Set := IRQ_NONE | IRQ_HANDLED.

(** ** The device behind the registers

    The USART as the driver sees it through its register window.  The mode
    and baud-rate registers hold what was last written; the command
    register is write-only and we keep the last command; writing a mask to
    [US_IER] sets, and to [US_IDR] clears, the corresponding bits of the
    interrupt mask; the status and receive-holding registers show whatever
    the hardware presents at the moment of the read; bytes written to the
    transmit-holding register are shifted out in order. *)

Record usart : Set := mk_usart {
  hw_cr : Z;
  hw_mr : Z;
  hw_imr : Z;
  hw_csr : Z;
  hw_rhr : byte;
  hw_thr : list byte;
  hw_brgr : Z;
  hw_version : Z
}.

Definition byte_to_Z (b : byte) : Z := Z.of_N (Byte.to_N b).

Definition hw_readl (r : reg) (u : usart) : Z :=
  match r with
  | US_MR => hw_mr u
  | US_CSR => hw_csr u
  | US_RHR => byte_to_Z (hw_rhr u)
  | US_BRGR => hw_brgr u
  | US_VERSION => hw_version u
  | US_CR | US_IER | US_IDR | US_THR => 0
  end.

Definition hw_writel (r : reg) (v : Z) (u : usart) : usart :=
  match r with
  | US_CR =>
      mk_usart v (hw_mr u) (hw_imr u) (hw_csr u) (hw_rhr u) (hw_thr u)
        (hw_brgr u) (hw_version u)
  | US_MR =>
      mk_usart (hw_cr u) v (hw_imr u) (hw_csr u) (hw_rhr u) (hw_thr u)
        (hw_brgr u) (hw_version u)
  | US_IER =>
      mk_usart (hw_cr u) (hw_mr u) (Z.lor (hw_imr u) v) (hw_csr u) (hw_rhr u)
        (hw_thr u) (hw_brgr u) (hw_version u)
  | US_IDR =>
      mk_usart (hw_cr u) (hw_mr u) (Z.land (hw_imr u) (Z.lnot v)) (hw_csr u)
        (hw_rhr u) (hw_thr u) (hw_brgr u) (hw_version u)
  | US_BRGR =>
      mk_usart (hw_cr u) (hw_mr u) (hw_imr u) (hw_csr u) (hw_rhr u) (hw_thr u)
        v (hw_version u)
  | US_CSR | US_RHR | US_THR | US_VERSION => u
  end.

Definition hw_readb (r : reg) (u : usart) : byte :=
  match r with
  | US_RHR => hw_rhr u
  | _ => x00
  end.

Definition hw_writeb (r : reg) (b : byte) (u : usart) : usart :=
  match r with
  | US_THR =>
      mk_usart (hw_cr u) (hw_mr u) (hw_imr u) (hw_csr u) (hw_rhr u)
        (hw_thr u ++ [b]) (hw_brgr u) (hw_version u)
  | _ => u
  end.

(** What the hardware does on its own between two instructions: the status
    and the receive-holding register change. *)
Definition hw_present (csr : Z) (rhr : byte) (u : usart) : usart :=
  mk_usart (hw_cr u) (hw_mr u) (hw_imr u) (u32 csr) rhr (hw_thr u) (hw_brgr u)
    (hw_version u).

(** The interrupt line is raised while an enabled source is pending. *)
Definition irq_pending (u : usart) : bool :=
  negb (Z.land (hw_csr u) (hw_imr u) =? 0).

(** ** Transfers, peers and the driver's private structure *)

(** [struct spi_transfer], as far as the driver looks at it.  [tx_buf] and
    [rx_buf] are what the two buffers hold, each a buffer of its own. *)
Record spi_transfer : Set := mk_xfer {
  tx_buf : list byte;
  rx_buf : list byte;
  len : Z;
  speed_hz : Z
}.

(** The fields of [struct at91_usart_spi] that both execution contexts can
    write, for the journal. *)
Inductive field : Set :=
| FCurrentTransfer | FTxRemaining | FRxRemaining | FStatus | FXferFailed
| FRxBuf (i : Z).

Inductive action : Set :=
| Readl (r : reg) (v : Z)
| Writel (r : reg) (v : Z)
| Readb (r : reg) (b : byte)
| Writeb (r : reg) (b : byte)
| SpinLock
| SpinUnlock
| CpuRelax
| Store (f : field).

(** A journal entry: was the spinlock held, and what was done.  The
    journal is kept newest first. *)
Definition entry : Set := (bool * action)%type.

(** [struct at91_usart_spi].  [regs] is the device behind the mapped
    window; [dev] and [clk] are handles to kernel objects and carry no
    state of the driver; [journal] is ghost state. *)
Record at91_usart_spi : Set := mk_aus {
  current_transfer : option spi_transfer;
  regs : usart;
  lock : bool;
  irq : Z;
  current_tx_remaining_bytes : Z;
  current_rx_remaining_bytes : Z;
  spi_clk : Z;
  status : Z;
  xfer_failed : bool;
  journal : list entry
}.

Inductive fault : Set :=
| NullDeref       (* a NULL pointer was dereferenced *)
| OutOfBounds     (* a buffer was accessed outside its bounds *)
| BadPointer      (* a pointer to released storage was dereferenced *)
| DivideByZero
| Deadlock.       (* spin_lock on a lock that is already held *)

Inductive result (A : Type) : Type :=
| Ok (a : A)
| Fault (f : fault).

Arguments Ok {A} a.
Arguments Fault {A} f.

(** Driver code: a computation over the private structure that may fault. *)
Definition M (A : Type) : Type := at91_usart_spi -> result (A * at91_usart_spi).

#[global] Instance M_ret : MRet M := λ A (a : A) s, Ok (a, s).

#[global] Instance M_bind : MBind M := λ A B (k : A -> M B) (m : M A) s,
  match m s with
  | Ok (a, s') => k a s'
  | Fault f => Fault f
  end.

Definition raise {A : Type} (f : fault) : M A := λ _, Fault f.

Definition gets {A : Type} (proj : at91_usart_spi -> A) : M A :=
  λ s, Ok (proj s, s).

Definition emit (a : action) : M unit := λ s,
  Ok (tt, mk_aus (current_transfer s) (regs s) (lock s) (irq s)
            (current_tx_remaining_bytes s) (current_rx_remaining_bytes s)
            (spi_clk s) (status s) (xfer_failed s)
            ((lock s, a) :: journal s)).

Definition set_regs (u : usart) : M unit := λ s,
  Ok (tt, mk_aus (current_transfer s) u (lock s) (irq s)
            (current_tx_remaining_bytes s) (current_rx_remaining_bytes s)
            (spi_clk s) (status s) (xfer_failed s) (journal s)).

Definition set_lock (b : bool) : M unit := λ s,
  Ok (tt, mk_aus (current_transfer s) (regs s) b (irq s)
            (current_tx_remaining_bytes s) (current_rx_remaining_bytes s)
            (spi_clk s) (status s) (xfer_failed s) (journal s)).

Definition set_current_transfer (x : option spi_transfer) : M unit := λ s,
  Ok (tt, mk_aus x (regs s) (lock s) (irq s)
            (current_tx_remaining_bytes s) (current_rx_remaining_bytes s)
            (spi_clk s) (status s) (xfer_failed s) (journal s)).

Definition set_tx_remaining (n : Z) : M unit := λ s,
  Ok (tt, mk_aus (current_transfer s) (regs s) (lock s) (irq s)
            n (current_rx_remaining_bytes s)
            (spi_clk s) (status s) (xfer_failed s) (journal s)).

Definition set_rx_remaining (n : Z) : M unit := λ s,
  Ok (tt, mk_aus (current_transfer s) (regs s) (lock s) (irq s)
            (current_tx_remaining_bytes s) n
            (spi_clk s) (status s) (xfer_failed s) (journal s)).

Definition set_spi_clk (n : Z) : M unit := λ s,
  Ok (tt, mk_aus (current_transfer s) (regs s) (lock s) (irq s)
            (current_tx_remaining_bytes s) (current_rx_remaining_bytes s)
            n (status s) (xfer_failed s) (journal s)).

Definition set_status (v : Z) : M unit := λ s,
  Ok (tt, mk_aus (current_transfer s) (regs s) (lock s) (irq s)
            (current_tx_remaining_bytes s) (current_rx_remaining_bytes s)
            (spi_clk s) v (xfer_failed s) (journal s)).

Definition set_xfer_failed (b : bool) : M unit := λ s,
  Ok (tt, mk_aus (current_transfer s) (regs s) (lock s) (irq s)
            (current_tx_remaining_bytes s) (current_rx_remaining_bytes s)
            (spi_clk s) (status s) b (journal s)).

(** Stores to the shared fields, journalled. *)
Definition store_current_transfer (x : spi_transfer) : M unit :=
  set_current_transfer (Some x);; emit (Store FCurrentTransfer).

Definition store_tx_remaining (n : Z) : M unit :=
  set_tx_remaining (u32 n);; emit (Store FTxRemaining).

Definition store_rx_remaining (n : Z) : M unit :=
  set_rx_remaining (u32 n);; emit (Store FRxRemaining).

Definition store_status (v : Z) : M unit :=
  set_status (u32 v);; emit (Store FStatus).

Definition store_xfer_failed (b : bool) : M unit :=
  set_xfer_failed b;; emit (Store FXferFailed).

(** [aus->current_transfer->...]: the pointer must not be NULL. *)
Definition the_transfer : M spi_transfer :=
  o ← gets current_transfer;
  match o with
  | Some x => mret x
  | None => raise NullDeref
  end.

(** [buf[i]] for reading. *)
Definition load (buf : list byte) (i : Z) : M byte :=
  if (0 <=? i) && (i <? Z.of_nat (length buf)) then
    match buf !! Z.to_nat i with
    | Some b => mret b
    | None => raise OutOfBounds
    end
  else raise OutOfBounds.

(** From here on the data model of the build is fixed but arbitrary. *)
Section DataModel.

Variable abi : data_model.

(** [rx_buf[i] = b] on the current transfer, for an index [i] computed in
    [int]: the access lands [pointer_offset abi i] bytes past the start of
    the buffer, which is inside the buffer or not. *)
Definition store_rx_buf (i : Z) (b : byte) : M unit :=
  x ← the_transfer;
  let at_byte := pointer_offset abi i in
  if (0 <=? at_byte) && (at_byte <? Z.of_nat (length (rx_buf x))) then
    set_current_transfer
      (Some (mk_xfer (tx_buf x) (<[Z.to_nat at_byte := b]> (rx_buf x))
               (len x) (speed_hz x)));;
    emit (Store (FRxBuf at_byte))
  else raise OutOfBounds.

(** *** Locking and register access *)

Definition spin_lock : M unit :=
  held ← gets lock;
  if held : bool then raise Deadlock else set_lock true;; emit SpinLock.

Definition spin_unlock : M unit :=
  emit SpinUnlock;; set_lock false.

Definition cpu_relax : M unit := emit CpuRelax.

Definition at91_usart_spi_readl (r : reg) : M Z :=
  u ← gets regs;
  let v := u32 (hw_readl r u) in
  emit (Readl r v);; mret v.

Definition at91_usart_spi_writel (r : reg) (value : Z) : M unit :=
  u ← gets regs;
  set_regs (hw_writel r (u32 value) u);; emit (Writel r (u32 value)).

Definition at91_usart_spi_readb (r : reg) : M byte :=
  u ← gets regs;
  let b := hw_readb r u in
  emit (Readb r b);; mret b.

Definition at91_usart_spi_writeb (r : reg) (value : byte) : M unit :=
  u ← gets regs;
  set_regs (hw_writeb r value u);; emit (Writeb r value).

(** ** The transfer engine *)

Definition at91_usart_spi_tx_ready : M Z :=
  s ← gets status; mret (u32 (Z.land s US_IR_TXRDY)).

Definition at91_usart_spi_rx_ready : M Z :=
  s ← gets status; mret (u32 (Z.land s US_IR_RXRDY)).

Definition at91_usart_spi_check_overrun : M Z :=
  s ← gets status; mret (u32 (Z.land s US_IR_OVRE)).

Definition at91_usart_spi_read_status : M Z :=
  v ← at91_usart_spi_readl US_CSR;
  store_status v;;
  gets status.

Definition at91_usart_spi_tx : M unit :=
  x ← the_transfer;
  let len := u32 (len x) in
  remaining ← gets current_tx_remaining_bytes;
  let tx_buf := tx_buf x in
  if remaining =? 0 then mret tt
  else
    ready ← at91_usart_spi_tx_ready;
    if ready =? 0 then mret tt
    else
      b ← load tx_buf (u32 (len - remaining));
      at91_usart_spi_writeb US_THR b;;
      n ← gets current_tx_remaining_bytes;
      store_tx_remaining (n - 1).

Definition at91_usart_spi_rx : M unit :=
  x ← the_transfer;
  let len := s32 (len x) in
  r ← gets current_rx_remaining_bytes;
  let remaining := s32 r in
  if remaining =? 0 then mret tt
  else
    b ← at91_usart_spi_readb US_RHR;
    store_rx_buf (s32 (len - remaining)) b;;
    n ← gets current_rx_remaining_bytes;
    store_rx_remaining (n - 1).

Definition at91_usart_spi_set_xfer_speed (xfer : spi_transfer) : M unit :=
  clk ← gets spi_clk;
  if u32 (speed_hz xfer) =? 0 then raise DivideByZero
  else
    at91_usart_spi_writel US_BRGR
      (DIV_ROUND_UP 32 (u32 clk) (u32 (speed_hz xfer))).

Definition at91_usart_spi_interrupt : M irqreturn_t :=
  spin_lock;;
  _ ← at91_usart_spi_read_status;
  overrun ← at91_usart_spi_check_overrun;
  if negb (overrun =? 0) then
    store_xfer_failed true;;
    at91_usart_spi_writel US_IDR (Z.lor US_IR_OVRE US_IR_RXRDY);;
    spin_unlock;;
    mret IRQ_HANDLED
  else
    ready ← at91_usart_spi_rx_ready;
    if negb (ready =? 0) then
      at91_usart_spi_rx;;
      spin_unlock;;
      mret IRQ_HANDLED
    else
      spin_unlock;;
      mret IRQ_NONE.

(** *** One transfer, seen from both contexts

    [at91_usart_spi_transfer_one] busy-waits in the polling context while
    the interrupt handler may run between any two of its statements.  The
    polling context is cut at its statements: the loop condition, the
    status read, the transmit step (with the [cpu_relax] that follows it)
    and the final test of the failure flag.  [transfer_one_arm] is the
    five arming assignments at the top of the function when nothing
    interrupts them; further down they are taken one by one. *)

Inductive pc : Set :=
| AtCond               (* about to evaluate the loop condition *)
| AtReadStatus         (* about to call at91_usart_spi_read_status *)
| AtTx                 (* about to call at91_usart_spi_tx and cpu_relax *)
| AtCheck              (* loop left, about to test xfer_failed *)
| Returned (ret : Z).  (* transfer_one has returned ret *)

(** The five arming statements when no run of the handler comes between
    them; [transfer_one_arm_step], further down, takes them one at a
    time. *)
Definition transfer_one_arm (xfer : spi_transfer) : M unit :=
  at91_usart_spi_set_xfer_speed xfer;;
  store_xfer_failed false;;
  store_current_transfer xfer;;
  store_tx_remaining (len xfer);;
  store_rx_remaining (len xfer).

Definition loop_condition (s : at91_usart_spi) : bool :=
  (negb (current_tx_remaining_bytes s =? 0)
   || negb (current_rx_remaining_bytes s =? 0))
  && negb (xfer_failed s).

Definition transfer_one_step (p : pc) : M pc :=
  match p with
  | AtCond =>
      c ← gets loop_condition;
      if c : bool then mret AtReadStatus else mret AtCheck
  | AtReadStatus =>
      _ ← at91_usart_spi_read_status; mret AtTx
  | AtTx =>
      at91_usart_spi_tx;; cpu_relax;; mret AtCond
  | AtCheck =>
      failed ← gets xfer_failed;
      if failed : bool then mret (Returned (- EIO)) else mret (Returned 0)
  | Returned ret => mret (Returned ret)
  end.

Inductive event : Set :=
| Poll                             (* the polling context runs one step *)
| Interrupt                        (* the handler runs to completion *)
| Hardware (csr : Z) (rhr : byte). (* the device changes what it shows *)

Definition on_event (e : event) (p : pc) : M pc :=
  match e with
  | Poll => transfer_one_step p
  | Interrupt => _ ← at91_usart_spi_interrupt; mret p
  | Hardware csr rhr =>
      u ← gets regs; set_regs (hw_present csr rhr u);; mret p
  end.

Fixpoint run (sched : list event) (p : pc) : M pc :=
  match sched with
  | [] => mret p
  | e :: sched' => p' ← on_event e p; run sched' p'
  end.

Definition returned (p : pc) : option Z :=
  match p with Returned ret => Some ret | _ => None end.

(** [transfer_one] under a schedule that starts once the transfer is
    armed: [Some ret] when the function has returned [ret] by the end of
    the schedule, [None] while it still spins. *)
Definition at91_usart_spi_transfer_one (xfer : spi_transfer)
    (sched : list event) : M (option Z) :=
  transfer_one_arm xfer;;
  p ← run sched AtCond;
  mret (returned p).

(** A schedule in which the handler only runs while the interrupt line is
    raised. *)
Fixpoint admissible (sched : list event) (p : pc) (s : at91_usart_spi)
    : bool :=
  match sched with
  | [] => true
  | e :: sched' =>
      (match e with Interrupt => irq_pending (regs s) | _ => true end)
      && match on_event e p s with
         | Ok (p', s') => admissible sched' p' s'
         | Fault _ => true
         end
  end.

(** How many steps the polling context takes in a schedule. *)
Fixpoint polls (sched : list event) : nat :=
  match sched with
  | [] => O
  | Poll :: sched' => S (polls sched')
  | _ :: sched' => polls sched'
  end.

(** How many times the handler runs in a schedule. *)
Fixpoint handler_runs (sched : list event) : nat :=
  match sched with
  | [] => O
  | Interrupt :: sched' => S (handler_runs sched')
  | _ :: sched' => handler_runs sched'
  end.

(** *** Arming, statement by statement

    [transfer_one] holds no lock while it arms the transfer, and
    [prepare_message] has unmasked the overrun and receive-ready sources
    before it is called: the handler can run between any two of the five
    arming statements as well.  The polling context is therefore cut at
    each of them, too: [Arming a] stands before the arming statement [a],
    [Armed p] at the point [p] of the loop. *)

Inductive arm_pc : Set :=
| AtSetSpeed        (* about to call at91_usart_spi_set_xfer_speed *)
| AtClearFailed     (* about to clear xfer_failed *)
| AtSetTransfer     (* about to store current_transfer *)
| AtSetTxRemaining  (* about to store current_tx_remaining_bytes *)
| AtSetRxRemaining. (* about to store current_rx_remaining_bytes *)

Inductive full_pc : Set :=
| Arming (a : arm_pc)
| Armed (p : pc).

Definition transfer_one_arm_step (xfer : spi_transfer) (a : arm_pc)
    : M full_pc :=
  match a with
  | AtSetSpeed =>
      at91_usart_spi_set_xfer_speed xfer;; mret (Arming AtClearFailed)
  | AtClearFailed =>
      store_xfer_failed false;; mret (Arming AtSetTransfer)
  | AtSetTransfer =>
      store_current_transfer xfer;; mret (Arming AtSetTxRemaining)
  | AtSetTxRemaining =>
      store_tx_remaining (len xfer);; mret (Arming AtSetRxRemaining)
  | AtSetRxRemaining =>
      store_rx_remaining (len xfer);; mret (Armed AtCond)
  end.

Definition transfer_one_full_step (xfer : spi_transfer) (q : full_pc)
    : M full_pc :=
  match q with
  | Arming a => transfer_one_arm_step xfer a
  | Armed p => p' ← transfer_one_step p; mret (Armed p')
  end.

Definition on_full_event (xfer : spi_transfer) (e : event) (q : full_pc)
    : M full_pc :=
  match e with
  | Poll => transfer_one_full_step xfer q
  | Interrupt => _ ← at91_usart_spi_interrupt; mret q
  | Hardware csr rhr =>
      u ← gets regs; set_regs (hw_present csr rhr u);; mret q
  end.

(** [transfer_one] from its first statement on, under a schedule. *)
Fixpoint full_run (xfer : spi_transfer) (sched : list event) (q : full_pc)
    : M full_pc :=
  match sched with
  | [] => mret q
  | e :: sched' => q' ← on_full_event xfer e q; full_run xfer sched' q'
  end.

Fixpoint full_admissible (xfer : spi_transfer) (sched : list event)
    (q : full_pc) (s : at91_usart_spi) : bool :=
  match sched with
  | [] => true
  | e :: sched' =>
      (match e with Interrupt => irq_pending (regs s) | _ => true end)
      && match on_full_event xfer e q s with
         | Ok (q', s') => full_admissible xfer sched' q' s'
         | Fault _ => true
         end
  end.

(** What [transfer_one] has returned at [q], if it has. *)
Definition full_returned (q : full_pc) : option Z :=
  match q with Armed p => returned p | Arming _ => None end.

(** The arming statements still to be executed. *)
Definition arm_steps_left (q : full_pc) : nat :=
  match q with
  | Arming AtSetSpeed => 5
  | Arming AtClearFailed => 4
  | Arming AtSetTransfer => 3
  | Arming AtSetTxRemaining => 2
  | Arming AtSetRxRemaining => 1
  | Armed _ => 0
  end.

(** The failure flag of this transfer has been cleared: the polling
    context is past the second arming statement. *)
Definition flag_cleared (q : full_pc) : bool :=
  match q with
  | Arming AtSetSpeed | Arming AtClearFailed => false
  | _ => true
  end.

(** No run of the handler before the polling context has taken [n]
    steps. *)
Fixpoint handler_waits (n : nat) (sched : list event) : bool :=
  match n, sched with
  | O, _ => true
  | _, [] => true
  | S n', Poll :: sched' => handler_waits n' sched'
  | _, Interrupt :: _ => false
  | _, Hardware _ _ :: sched' => handler_waits n sched'
  end.

(** ** Per-peer mode cache and message bracket *)

(** [struct spi_device], as far as the driver looks at it.
    [controller_state] points to a [u32] in kernel memory, or is NULL. *)
Record spi_device : Set := mk_spi {
  bits_per_word : Z;
  mode : Z;
  chip_select : Z;
  controller_state : option nat
}.

Definition u8 (z : Z) : Z := z `mod` 2 ^ 8.

(** [kzalloc(sizeof(u32), GFP_KERNEL)]: a fresh zeroed cell, or NULL. *)
Definition kzalloc (succeeds : bool) (h : gmap nat Z)
    : option nat * gmap nat Z :=
  if succeeds then
    let p := fresh (dom h) in (Some p, <[p := 0]> h)
  else (None, h).

Definition kfree (p : option nat) (h : gmap nat Z) : gmap nat Z :=
  match p with
  | Some a => delete a h
  | None => h
  end.

Definition mode_bit (mode mask mr bit : Z) : Z :=
  if negb (Z.land mode mask =? 0) then u32 (Z.lor mr bit)
  else u32 (Z.land mr (Z.lnot bit)).

(** The mode value [setup] computes from the peer's mode flags and the
    mode register as it reads it. *)
Definition setup_mr (mode live : Z) : Z :=
  mode_bit mode SPI_LOOP
    (mode_bit mode SPI_CPHA (mode_bit mode SPI_CPOL live US_MR_CPOL)
       US_MR_CPHA)
    US_MR_LOOP.

Definition with_controller_state (spi : spi_device) (p : option nat)
    : spi_device :=
  mk_spi (bits_per_word spi) (mode spi) (chip_select spi) p.

Definition at91_usart_spi_setup (alloc_succeeds : bool) (spi : spi_device)
    (h : gmap nat Z) : M (Z * spi_device * gmap nat Z) :=
  let ausd := controller_state spi in
  mr ← at91_usart_spi_readl US_MR;
  let bits := u8 (bits_per_word spi) in
  if negb (bits =? 8) then mret (- EINVAL, spi, h)
  else
    let mr := mode_bit (mode spi) SPI_CPOL mr US_MR_CPOL in
    let mr := mode_bit (mode spi) SPI_CPHA mr US_MR_CPHA in
    let mr := mode_bit (mode spi) SPI_LOOP mr US_MR_LOOP in
    match ausd with
    | None =>
        match kzalloc alloc_succeeds h with
        | (None, h') => mret (- ENOMEM, spi, h')
        | (Some p, h') =>
            mret (0,
                  mk_spi (bits_per_word spi) (mode spi) (chip_select spi)
                    (Some p),
                  <[p := mr]> h')
        end
    | Some p =>
        match h !! p with
        | Some _ => mret (0, spi, <[p := mr]> h)
        | None => raise BadPointer
        end
    end.

Definition at91_usart_spi_prepare_message (spi : spi_device)
    (h : gmap nat Z) : M Z :=
  let ausd := controller_state spi in
  at91_usart_spi_writel US_CR US_ENABLE;;
  at91_usart_spi_writel US_IER US_OVRE_RXRDY_IRQS;;
  match ausd with
  | None => raise NullDeref
  | Some p =>
      match h !! p with
      | Some v => at91_usart_spi_writel US_MR v;; mret 0
      | None => raise BadPointer
      end
  end.

Definition at91_usart_spi_unprepare_message : M Z :=
  at91_usart_spi_writel US_CR (Z.lor US_RESET US_DISABLE);;
  at91_usart_spi_writel US_IDR US_OVRE_RXRDY_IRQS;;
  mret 0.

Definition at91_usart_spi_cleanup (spi : spi_device) (h : gmap nat Z)
    : spi_device * gmap nat Z :=
  let ausd := controller_state spi in
  (mk_spi (bits_per_word spi) (mode spi) (chip_select spi) None,
   kfree ausd h).

Definition at91_usart_spi_init : M unit :=
  at91_usart_spi_writel US_MR US_INIT;;
  at91_usart_spi_writel US_CR (Z.lor US_RESET US_DISABLE).

(** ** Attach *)

(** [struct spi_controller], as far as the driver fills it in. *)
Record spi_controller : Set := mk_ctlr {
  mode_bits : Z;
  bits_per_word_mask : Z;
  flags : Z;
  max_speed_hz : Z;
  min_speed_hz : Z;
  devdata : at91_usart_spi
}.

(** What the platform answers to the calls [probe] makes: results of the
    collaborators outside the driver.  A chip-select entry is what
    [of_get_named_gpio] returns for it, whether [gpio_is_valid] holds of
    that, and what [devm_gpio_request_one] returns. *)
Record platform : Set := mk_platform {
  pf_mem_resource : bool;      (* platform_get_resource found the window *)
  pf_irq : Z;                  (* platform_get_irq *)
  pf_clk_err : Z;              (* 0, or the errno behind IS_ERR(clk) *)
  pf_alloc_master : bool;      (* spi_alloc_master *)
  pf_of_node : bool;           (* the parent has a device-tree node *)
  pf_cs_gpios : list (Z * bool * Z);
  pf_ioremap_err : Z;          (* 0, or the errno behind IS_ERR(regs) *)
  pf_request_irq : Z;          (* devm_request_irq *)
  pf_clk_prepare_enable : Z;   (* clk_prepare_enable *)
  pf_register_master : Z;      (* devm_spi_register_master *)
  pf_clk_rate : Z;             (* clk_get_rate, an unsigned long *)
  pf_device : usart            (* the device behind the window *)
}.

Fixpoint request_cs_gpios (l : list (Z * bool * Z)) : Z :=
  match l with
  | [] => 0
  | (cs_gpio, valid, ret) :: l' =>
      if cs_gpio <? 0 then cs_gpio
      else if valid && negb (ret =? 0) then ret
      else request_cs_gpios l'
  end.

Definition at91_usart_gpio_setup (pf : platform) : Z :=
  if negb (pf_of_node pf) then - EINVAL
  else request_cs_gpios (pf_cs_gpios pf).

Definition SPI_MASTER_MUST_RX : Z := BIT 3.
Definition SPI_MASTER_MUST_TX : Z := BIT 4.
Definition SPI_BPW_MASK (bits : Z) : Z := BIT (bits - 1).

(** The zeroed private structure that [spi_alloc_master] hands out, with
    the register window mapped. *)
Definition fresh_aus (dev : usart) (irq : Z) : at91_usart_spi :=
  mk_aus None dev false irq 0 0 0 0 false [].

Definition at91_usart_spi_probe (BITS_PER_LONG : Z) (pf : platform)
    : result (Z * option spi_controller) :=
  if negb (pf_mem_resource pf) then Ok (- EINVAL, None)
  else if pf_irq pf <? 0 then Ok (pf_irq pf, None)
  else if negb (pf_clk_err pf =? 0) then Ok (pf_clk_err pf, None)
  else if negb (pf_alloc_master pf) then Ok (- ENOMEM, None)
  else if negb (at91_usart_gpio_setup pf =? 0) then
    Ok (at91_usart_gpio_setup pf, None)
  else
    let rate := ulong BITS_PER_LONG (pf_clk_rate pf) in
    let max := u32 (DIV_ROUND_UP BITS_PER_LONG rate US_MIN_CLK_DIV) in
    let min := u32 (DIV_ROUND_UP BITS_PER_LONG rate US_MAX_CLK_DIV) in
    if negb (pf_ioremap_err pf =? 0) then Ok (pf_ioremap_err pf, None)
    else if negb (pf_request_irq pf =? 0) then Ok (pf_request_irq pf, None)
    else if negb (pf_clk_prepare_enable pf =? 0) then
      Ok (pf_clk_prepare_enable pf, None)
    else
      match (set_spi_clk (u32 rate);; at91_usart_spi_init)
              (fresh_aus (pf_device pf) (pf_irq pf)) with
      | Fault f => Fault f
      | Ok (_, aus) =>
          if negb (pf_register_master pf =? 0) then
            Ok (pf_register_master pf, None)
          else
            match at91_usart_spi_readl US_VERSION aus with
            | Fault f => Fault f
            | Ok (_, aus') =>
                Ok (0,
                    Some (mk_ctlr
                            (Z.lor (Z.lor (Z.lor SPI_CPOL SPI_CPHA) SPI_LOOP)
                               SPI_CS_HIGH)
                            (SPI_BPW_MASK 8)
                            (Z.lor SPI_MASTER_MUST_RX SPI_MASTER_MUST_TX)
                            max min aus'))
            end
      end.

(** A chip-select entry of the device tree that [at91_usart_gpio_setup]
    gets past: its GPIO number is not an error code, and if the number is
    valid the request for the line succeeded.  For an entry it does not
    get past, the code it returns. *)
Definition cs_ok (e : Z * bool * Z) : Prop :=
  match e with
  | (cs_gpio, valid, ret) => 0 <= cs_gpio /\ (valid = true -> ret = 0)
  end.

Definition cs_error (e : Z * bool * Z) : Z :=
  match e with
  | (cs_gpio, valid, ret) => if cs_gpio <? 0 then cs_gpio else ret
  end.

(** Every collaborator of [probe] answers with success. *)
Definition collaborators_ok (pf : platform) : Prop :=
  pf_mem_resource pf = true
  /\ 0 <= pf_irq pf
  /\ pf_clk_err pf = 0
  /\ pf_alloc_master pf = true
  /\ at91_usart_gpio_setup pf = 0
  /\ pf_ioremap_err pf = 0
  /\ pf_request_irq pf = 0
  /\ pf_clk_prepare_enable pf = 0
  /\ pf_register_master pf = 0.

(** ** Power management and detach

    The callbacks for suspend and resume, and [remove], do their work
    through the clock, pin-control and SPI-core interfaces of the kernel.
    The calls they make are recorded in a log, oldest first; what the
    kernel answers where the driver looks at the answer is a parameter of
    the call. *)

Inductive kcall : Set :=
| clk_prepare_enable (ret : Z)
| clk_disable_unprepare
| pinctrl_pm_select_sleep_state
| pinctrl_pm_select_default_state
| spi_controller_suspend (ret : Z)
| spi_controller_resume (ret : Z)
| pm_runtime_suspended (answer : bool)
| spi_alloc_master (allocated : bool)
| spi_master_put (null : bool).

(** What the kernel answers during one suspend or resume. *)
Record pm_answers : Set := mk_pm {
  pm_controller_suspend : Z;       (* spi_controller_suspend *)
  pm_runtime_is_suspended : bool;  (* pm_runtime_suspended *)
  pm_clk_prepare_enable : Z;       (* clk_prepare_enable *)
  pm_controller_resume : Z         (* spi_controller_resume *)
}.

(** Driver code that also calls into the kernel: a computation over the
    private structure and the log of calls. *)
Definition K (A : Type) : Type := list kcall -> M (A * list kcall).

#[global] Instance K_ret : MRet K := λ A (a : A) l s, Ok ((a, l), s).

#[global] Instance K_bind : MBind K := λ A B (k : A -> K B) (m : K A) l s,
  match m l s with
  | Ok ((a, l'), s') => k a l' s'
  | Fault f => Fault f
  end.

Definition call (c : kcall) : K unit := λ l s, Ok ((tt, l ++ [c]), s).

Definition lift {A : Type} (m : M A) : K A := λ l s,
  match m s with
  | Ok (a, s') => Ok ((a, l), s')
  | Fault f => Fault f
  end.

Definition at91_usart_spi_runtime_suspend : K Z :=
  call clk_disable_unprepare;;
  call pinctrl_pm_select_sleep_state;;
  mret 0.

Definition at91_usart_spi_runtime_resume (pm : pm_answers) : K Z :=
  call pinctrl_pm_select_default_state;;
  call (clk_prepare_enable (pm_clk_prepare_enable pm));;
  mret (pm_clk_prepare_enable pm).

Definition at91_usart_spi_suspend (pm : pm_answers) : K Z :=
  call (spi_controller_suspend (pm_controller_suspend pm));;
  let ret := pm_controller_suspend pm in
  if negb (ret =? 0) then mret ret
  else
    call (pm_runtime_suspended (pm_runtime_is_suspended pm));;
    if negb (pm_runtime_is_suspended pm) then
      _ ← at91_usart_spi_runtime_suspend;
      mret 0
    else mret 0.

Definition at91_usart_spi_resume (pm : pm_answers) : K Z :=
  let reinit : K Z :=
    lift at91_usart_spi_init;;
    call (spi_controller_resume (pm_controller_resume pm));;
    mret (pm_controller_resume pm) in
  call (pm_runtime_suspended (pm_runtime_is_suspended pm));;
  if negb (pm_runtime_is_suspended pm) then
    ret ← at91_usart_spi_runtime_resume pm;
    if negb (ret =? 0) then mret ret else reinit
  else reinit.

Definition at91_usart_spi_remove : K Z :=
  call clk_disable_unprepare;;
  mret 0.

(** The calls of [at91_usart_spi_probe] that take or drop a reference to
    the controller or an enable count of the clock, along its return
    paths: the two labels at its end fall through into one another. *)
Definition at91_usart_spi_probe_fail (controller : bool)
    (calls : list kcall) : list kcall :=
  calls ++ [spi_master_put (negb controller)].

Definition at91_usart_fail_register_master (calls : list kcall)
    : list kcall :=
  at91_usart_spi_probe_fail true (calls ++ [clk_disable_unprepare]).

Definition at91_usart_spi_probe_calls (pf : platform) : list kcall :=
  if negb (pf_mem_resource pf) then []
  else if pf_irq pf <? 0 then []
  else if negb (pf_clk_err pf =? 0) then []
  else
    let calls := [spi_alloc_master (pf_alloc_master pf)] in
    if negb (pf_alloc_master pf) then at91_usart_spi_probe_fail false calls
    else if negb (at91_usart_gpio_setup pf =? 0) then
      at91_usart_spi_probe_fail true calls
    else if negb (pf_ioremap_err pf =? 0) then
      at91_usart_spi_probe_fail true calls
    else if negb (pf_request_irq pf =? 0) then
      at91_usart_spi_probe_fail true calls
    else
      let calls :=
        calls ++ [clk_prepare_enable (pf_clk_prepare_enable pf)] in
      if negb (pf_clk_prepare_enable pf =? 0) then
        at91_usart_spi_probe_fail true calls
      else if negb (pf_register_master pf =? 0) then
        at91_usart_fail_register_master calls
      else calls.

(** What a log of calls amounts to: how many enables of the clock are
    outstanding (a successful [clk_prepare_enable] counts one up,
    [clk_disable_unprepare] one down), and how many references to the
    controller (a successful [spi_alloc_master] hands out one,
    [spi_master_put] of a pointer that is not NULL drops one). *)
Fixpoint clk_enable_count (l : list kcall) : Z :=
  match l with
  | [] => 0
  | clk_prepare_enable ret :: l' =>
      (if ret =? 0 then 1 else 0) + clk_enable_count l'
  | clk_disable_unprepare :: l' => clk_enable_count l' - 1
  | _ :: l' => clk_enable_count l'
  end.

Fixpoint controller_refs (l : list kcall) : Z :=
  match l with
  | [] => 0
  | spi_alloc_master allocated :: l' =>
      (if allocated then 1 else 0) + controller_refs l'
  | spi_master_put null :: l' =>
      controller_refs l' - (if null then 0 else 1)
  | _ :: l' => controller_refs l'
  end.

(** ** Journals

    What one run of the handler appends to the journal in each of its
    branches, oldest entry first, and what to look for in a journal. *)

Definition appended (s s' : at91_usart_spi) (es : list entry) : Prop :=
  journal s' = rev es ++ journal s.

Definition journal_overrun (c : Z) : list entry :=
  [(true, SpinLock); (true, Readl US_CSR c); (true, Store FStatus);
   (true, Store FXferFailed);
   (true, Writel US_IDR (u32 (Z.lor US_IR_OVRE US_IR_RXRDY)));
   (true, SpinUnlock)].

Definition journal_rx (c : Z) (b : byte) (i : Z) : list entry :=
  [(true, SpinLock); (true, Readl US_CSR c); (true, Store FStatus);
   (true, Readb US_RHR b); (true, Store (FRxBuf i));
   (true, Store FRxRemaining); (true, SpinUnlock)].

Definition journal_idle (c : Z) : list entry :=
  [(true, SpinLock); (true, Readl US_CSR c); (true, Store FStatus);
   (true, SpinUnlock)].

Definition reads_rhr (e : entry) : bool :=
  match e with
  | (_, Readb US_RHR _) | (_, Readl US_RHR _) => true
  | _ => false
  end.

Definition stores_rx_buf (e : entry) : bool :=
  match e with
  | (_, Store (FRxBuf _)) => true
  | _ => false
  end.

Definition takes_lock (e : entry) : bool :=
  match e with
  | (_, SpinLock) => true
  | _ => false
  end.

Definition under_lock (es : list entry) : Prop :=
  Forall (λ e : entry, e.1 = true) es.

Definition without_lock (es : list entry) : Prop :=
  Forall (λ e : entry, e.1 = false) es.

(** The bytes read from the receive-holding register according to a
    journal, oldest first. *)
Definition rhr_reads (es : list entry) : list byte :=
  omap (λ e : entry,
          match e.2 with
          | Readb US_RHR b => Some b
          | _ => None
          end) es.


(** What each execution context does to the device and to the shared
    fields of the private structure, as sets of actions: the handler takes
    and releases the lock, reads the status, takes a byte, masks interrupt
    sources and stores to the status snapshot, the failure flag and the
    receive side of the cursor; the loop reads the status, sends a byte,
    relaxes and stores to the status snapshot and the transmit counter. *)
Definition handler_action (a : action) : bool :=
  match a with
  | SpinLock | SpinUnlock => true
  | Readl US_CSR _ => true
  | Readb US_RHR _ => true
  | Writel US_IDR _ => true
  | Store FStatus | Store FXferFailed | Store FRxRemaining
  | Store (FRxBuf _) => true
  | _ => false
  end.

Definition loop_action (a : action) : bool :=
  match a with
  | Readl US_CSR _ => true
  | Writeb US_THR _ => true
  | CpuRelax => true
  | Store FStatus | Store FTxRemaining => true
  | _ => false
  end.

(** What arming a transfer appends to the journal, oldest entry first. *)
Definition journal_arm (lk : bool) (divider : Z) : list entry :=
  [(lk, Writel US_BRGR divider); (lk, Store FXferFailed);
   (lk, Store FCurrentTransfer); (lk, Store FTxRemaining);
   (lk, Store FRxRemaining)].

(** ** Well-formed transfers and invariants of a transfer in flight *)

(** A transfer as the framework hands it over: a length that fits
    [unsigned], two buffers of that length, a speed that is not zero. *)
Record xfer_ok (x : spi_transfer) : Prop := {
  xfer_len : 0 <= len x < 2 ^ 32;
  xfer_tx_buf : Z.of_nat (length (tx_buf x)) = len x;
  xfer_rx_buf : Z.of_nat (length (rx_buf x)) = len x;
  xfer_speed : 0 < speed_hz x < 2 ^ 32
}.

(** The cursor of a transfer in flight: the transfer is installed, both
    counters are within its length, the buffers hold [len] bytes, and the
    length fits the [int] in which the receive step computes. *)
Record cursor_ok (s : at91_usart_spi) (x : spi_transfer) : Prop := {
  cur_installed : current_transfer s = Some x;
  cur_tx : 0 <= current_tx_remaining_bytes s <= len x;
  cur_rx : 0 <= current_rx_remaining_bytes s <= len x;
  cur_len : len x <= INT_MAX;
  cur_tx_buf : Z.of_nat (length (tx_buf x)) = len x;
  cur_rx_buf : Z.of_nat (length (rx_buf x)) = len x
}.

(** The same with no bound on the length but that of its type,
    [unsigned int]. *)
Record cursor_in (s : at91_usart_spi) (x : spi_transfer) : Prop := {
  in_installed : current_transfer s = Some x;
  in_tx : 0 <= current_tx_remaining_bytes s <= len x;
  in_rx : 0 <= current_rx_remaining_bytes s <= len x;
  in_len : len x < 2 ^ 32;
  in_tx_buf : Z.of_nat (length (tx_buf x)) = len x;
  in_rx_buf : Z.of_nat (length (rx_buf x)) = len x
}.

(** The transfer [x] with byte [b] stored at index [i] of its receive
    buffer. *)
Definition received (x : spi_transfer) (i : Z) (b : byte) : spi_transfer :=
  mk_xfer (tx_buf x) (<[Z.to_nat i := b]> (rx_buf x)) (len x) (speed_hz x).

(** Where the polling context stands constrains the cursor: it has left
    the loop only with the failure flag set or with both counters at
    zero, and what it returned agrees with that. *)
Definition loop_invariant (p : pc) (s : at91_usart_spi) : Prop :=
  match p with
  | AtCheck =>
      xfer_failed s = true
      \/ (current_tx_remaining_bytes s = 0
          /\ current_rx_remaining_bytes s = 0)
  | Returned ret =>
      (ret = - EIO /\ xfer_failed s = true)
      \/ (ret = 0 /\ current_tx_remaining_bytes s = 0
          /\ current_rx_remaining_bytes s = 0)
  | _ => True
  end.

(** The state between two events of a transfer of [xfer]: the lock is
    free, the transfer installed is [xfer] up to the bytes received so
    far, and both counters are within its length. *)
Record in_flight (xfer : spi_transfer) (p : pc) (s : at91_usart_spi)
    : Prop := {
  fl_lock : lock s = false;
  fl_loop : loop_invariant p s;
  fl_cursor :
    exists x,
      current_transfer s = Some x
      /\ tx_buf x = tx_buf xfer /\ len x = len xfer
      /\ length (rx_buf x) = length (rx_buf xfer);
  fl_tx : 0 <= current_tx_remaining_bytes s <= len xfer;
  fl_rx : 0 <= current_rx_remaining_bytes s <= len xfer
}.

(** Steps the polling context needs to reach its return statement once
    the failure flag is set. *)
Definition steps_to_return (p : pc) : nat :=
  match p with
  | AtReadStatus => 4
  | AtTx => 3
  | AtCond => 2
  | AtCheck => 1
  | Returned _ => 0
  end.

(** The transfer installed is [xfer] up to the bytes received so far. *)
Definition installed (xfer : spi_transfer) (s : at91_usart_spi) : Prop :=
  exists x,
    current_transfer s = Some x
    /\ tx_buf x = tx_buf xfer /\ len x = len xfer
    /\ length (rx_buf x) = length (rx_buf xfer).

(** The state between two events while [xfer] is being armed: the lock is
    free, and what the arming statements already executed have stored is
    in place, whatever runs of the handler came between them. *)
Definition arming_invariant (xfer : spi_transfer) (a : arm_pc)
    (s : at91_usart_spi) : Prop :=
  lock s = false
  /\ match a with
     | AtSetSpeed | AtClearFailed | AtSetTransfer => True
     | AtSetTxRemaining => installed xfer s
     | AtSetRxRemaining =>
         installed xfer s /\ current_tx_remaining_bytes s = len xfer
     end.

Definition full_in_flight (xfer : spi_transfer) (q : full_pc)
    (s : at91_usart_spi) : Prop :=
  match q with
  | Arming a => arming_invariant xfer a s
  | Armed p => in_flight xfer p s
  end.

(** The receive side is at rest: a transfer is installed, so that
    [current_transfer] points to storage that can be read, and nothing of
    it is outstanding, as after a transfer that was received in full. *)
Definition receiver_at_rest (s : at91_usart_spi) : Prop :=
  current_transfer s <> None /\ current_rx_remaining_bytes s = 0.

(** Steps the polling context needs to reach its return statement once
    the failure flag is set and stays set. *)
Definition full_steps_to_return (q : full_pc) : nat :=
  match q with
  | Arming _ => (arm_steps_left q + 2)%nat
  | Armed p => steps_to_return p
  end.

(** How many bytes of the transfer the handler has received: none before
    the receive counter is armed, [len - remaining] afterwards. *)
Definition bytes_received (xfer : spi_transfer) (q : full_pc)
    (s : at91_usart_spi) : Z :=
  match q with
  | Arming _ => 0
  | Armed _ => len xfer - current_rx_remaining_bytes s
  end.


(** The handler does not disturb the arming of a transfer when the
    receive side is at rest, or when it does not run before the arming
    statements still to come at [q] are done. *)
Definition arming_safe (q : full_pc) (s : at91_usart_spi)
    (sched : list event) : Prop :=
  match q with
  | Arming _ =>
      receiver_at_rest s \/ handler_waits (arm_steps_left q) sched = true
  | Armed _ => True
  end.

(** The receive buffer against the journal [es] of the transfer so far:
    the bytes read from the receive-holding register are as many as the
    cursor says; while the transfer is being armed it is installed as it
    was handed over; afterwards its receive buffer holds the bytes read,
    in the order read, and beyond the cursor what it held at the start. *)
Definition receive_invariant (xfer : spi_transfer) (q : full_pc)
    (s : at91_usart_spi) (es : list entry) : Prop :=
  Z.of_nat (length (rhr_reads es)) = bytes_received xfer q s
  /\ match q with
     | Arming AtSetTxRemaining | Arming AtSetRxRemaining =>
         current_transfer s = Some xfer
     | Arming _ => True
     | Armed _ =>
         exists x,
           current_transfer s = Some x
           /\ rx_buf x
              = rhr_reads es
                ++ drop (Z.to_nat (len xfer - current_rx_remaining_bytes s))
                     (rx_buf xfer)
     end.

(** A transfer that no event can end while the interrupt sources are
    masked: once the flag has been cleared for it the flag is clear, and
    once it is armed every byte of it is still to be received and the
    polling context is inside its loop. *)
Definition cannot_end (xfer : spi_transfer) (q : full_pc)
    (s : at91_usart_spi) : Prop :=
  match q with
  | Arming _ => flag_cleared q = true -> xfer_failed s = false
  | Armed p =>
      xfer_failed s = false
      /\ current_rx_remaining_bytes s = len xfer
      /\ (forall ret, p <> Returned ret) /\ p <> AtCheck
  end.

(** The advertised bounds are the exact ceilings. *)
Definition exact_speed_bounds (rate : Z) (ctlr : spi_controller) : Prop :=
  is_ceil_div rate 6 (max_speed_hz ctlr)
  /\ is_ceil_div rate 65536 (min_speed_hz ctlr).

Definition in_speed_range (ctlr : spi_controller) (xfer : spi_transfer)
    : Prop :=
  min_speed_hz ctlr <= speed_hz xfer <= max_speed_hz ctlr.

(** ** Concrete devices, peers, transfers and schedules *)

(** The device out of reset, and a platform on which every collaborator
    succeeds. *)
Definition usart_reset : usart := mk_usart 0 0 0 0 x00 [] 0 0.

Definition cooperative (rate : Z) (dev : usart) : platform :=
  mk_platform true 0 0 true true [] 0 0 0 0 rate dev.

(** The controller right after attach on a 150 MHz clock. *)
Definition aus_attached : at91_usart_spi :=
  mk_aus None
    (mk_usart (Z.lor US_RESET US_DISABLE) US_INIT 0 0 x00 [] 0 0)
    false 0 0 0 150000000 0 false [].

(** A mode-3 peer with 8-bit words, set up once already, its cached value
    in cell 0 of kernel memory. *)
Definition peer_mode3 : spi_device := mk_spi 8 3 0 (Some 0%nat).

Definition kmem_mode3 : gmap nat Z := {[ 0%nat := 0x1501CE ]}.

(** The controller after [prepare_message] for that peer. *)
Definition aus_prepared : at91_usart_spi :=
  mk_aus None
    (mk_usart US_ENABLE 0x1501CE US_OVRE_RXRDY_IRQS 0 x00 [] 0 0)
    false 0 0 0 150000000 0 false [].

(** A three-byte transfer, and the controller with it armed and the
    transmitter ready. *)
Definition xfer_three : spi_transfer :=
  mk_xfer [x01; x02; x03] [x00; x00; x00] 3 1000000.

Definition aus_armed : at91_usart_spi :=
  mk_aus (Some xfer_three)
    (mk_usart US_ENABLE US_INIT US_OVRE_RXRDY_IRQS 2 x00 [] 150 0)
    false 0 3 3 150000000 0 false [].

(** A one-byte transfer whose byte has been received, with the device
    showing receive-ready once more. *)
Definition xfer_one_done : spi_transfer := mk_xfer [x01] [xaa] 1 1000000.

Definition aus_all_received : at91_usart_spi :=
  mk_aus (Some xfer_one_done)
    (mk_usart US_ENABLE US_INIT US_OVRE_RXRDY_IRQS 1 xff [x01] 150 0)
    false 0 0 0 150000000 1 false [].

(** A transfer of 2^31 + 1 bytes whose last byte is outstanding. *)
Definition huge : Z := 2 ^ 31 + 1.

Definition xfer_huge : spi_transfer :=
  mk_xfer (repeat x00 (Z.to_nat huge)) (repeat x00 (Z.to_nat huge)) huge
    1000000.

Definition aus_huge_last : at91_usart_spi :=
  mk_aus (Some xfer_huge)
    (mk_usart US_ENABLE US_INIT US_OVRE_RXRDY_IRQS 1 xff [] 150 0)
    false 0 0 1 150000000 1 false [].

(** One beat of an exchange in lock-step: the loop evaluates its
    condition, the device shows transmit-ready, the loop reads the status
    and sends; the answer [b] arrives, the device shows receive-ready and
    the handler runs.  The schedule for a peer that answers [rs] is one
    beat per byte and two more steps of the loop. *)
Definition beat (b : byte) : list event :=
  [Poll; Hardware 2 x00; Poll; Poll; Hardware 1 b; Interrupt].

Definition lockstep (rs : list byte) : list event :=
  flat_map beat rs ++ [Poll; Poll].

Definition echo_schedule : list event := lockstep [xaa; xbb; xcc].

(** The same exchange cut short: after the first byte the device reports
    an overrun (status bits 5 and 0), the handler runs, and the loop then
    takes four more steps. *)
Definition overrun_prefix : list event := beat xaa ++ [Hardware 33 xbb].

Definition overrun_suffix : list event :=
  [Hardware 2 x00; Poll; Poll; Poll; Poll].

(** A transfer of no bytes; an 8-bit mode-3 peer and an 8-bit mode-0 peer
    that have not been set up yet; the controller with a message prepared
    and no transfer armed so far, the device showing receive-ready; a
    schedule without any run of the handler, in which the device shows
    transmit-ready and later receive-ready; a suspend and resume during
    which every collaborator succeeds and the device is not
    runtime-suspended. *)
Definition xfer_empty : spi_transfer := mk_xfer [] [] 0 1000000.

Definition peer_fresh_mode3 : spi_device := mk_spi 8 3 0 None.

Definition peer_fresh_mode0 : spi_device := mk_spi 8 0 1 None.

Definition aus_prepared_rx_ready : at91_usart_spi :=
  mk_aus None
    (mk_usart US_ENABLE 0x1501CE US_OVRE_RXRDY_IRQS 1 xaa [] 0 0)
    false 0 0 0 150000000 0 false [].

Definition unattended_schedule : list event :=
  [Poll; Hardware 2 x00; Poll; Poll; Hardware 3 xaa; Poll; Poll; Poll].

Definition pm_awake : pm_answers := mk_pm 0 false 0 0.

(** The five steps of the polling context that arm a transfer.  A
    schedule in which the handler runs between them, on a device that
    shows receive-ready, followed by the exchange in lock-step. *)
Definition arming : list event := [Poll; Poll; Poll; Poll; Poll].

Definition disturbed_arming : list event :=
  [Poll; Hardware 1 xee; Interrupt; Poll; Poll; Interrupt; Poll; Interrupt;
   Poll].

(** The prepared controller with the transmit-ready source enabled as
    well, as an earlier user of the USART may have left it: the driver
    never writes that bit of the interrupt mask. *)
Definition aus_prepared_txrdy : at91_usart_spi :=
  mk_aus None
    (mk_usart US_ENABLE 0x1501CE (Z.lor US_OVRE_RXRDY_IRQS US_IR_TXRDY) 0
       x00 [] 0 0)
    false 0 0 0 150000000 0 false [].

(** After an overrun: the device shows receive-ready and transmit-ready,
    the handler runs, and the loop takes four steps. *)
Definition late_receive : list event :=
  [Hardware 3 xcc; Interrupt; Poll; Poll; Poll; Poll].

(** An overrun that the device reports right after the first arming
    statement, and a polling context that then runs alone. *)
Definition early_overrun : list event := [Poll; Hardware 32 x00].

Definition polling_alone : list event := repeat Poll 30.

(** The controller as an overrun after the first of three bytes leaves
    it, prepared for the next message, the device showing receive-ready:
    the transfer that failed is still installed and two bytes of it are
    outstanding. *)
Definition aus_after_overrun : at91_usart_spi :=
  mk_aus (Some (mk_xfer [x01; x02; x03] [xaa; x00; x00] 3 1000000))
    (mk_usart US_ENABLE 0x1501CE US_OVRE_RXRDY_IRQS 1 xbb [x01; x02] 150 0)
    false 0 1 2 150000000 33 true [].

(** The transfer of 2^31 + 1 bytes with its last byte still to be sent and
    the transmitter ready. *)
Definition aus_huge_tx_last : at91_usart_spi :=
  mk_aus (Some xfer_huge)
    (mk_usart US_ENABLE US_INIT US_OVRE_RXRDY_IRQS 2 x00 [] 150 0)
    false 0 1 0 150000000 2 false [].

(** ** The specification's wording

    Where the code departs from a sentence of the specification, the
    sentence is written down as it stands, to be evaluated at an input. *)

(** On every platform on which attach succeeds, the advertised bounds are
    the exact ceilings of the clock rate. *)
Definition spec_speed_bounds (BITS_PER_LONG : Z) (pf : platform) : Prop :=
  forall ret ctlr,
    at91_usart_spi_probe BITS_PER_LONG pf = Ok (ret, Some ctlr) ->
    exact_speed_bounds (pf_clk_rate pf) ctlr.

(** For a speed inside the advertised range the divider written is the
    exact ceiling and lies in the half-open range [6, 65536). *)
Definition spec_divider (BITS_PER_LONG : Z) (pf : platform)
    (xfer : spi_transfer) : Prop :=
  forall ret ctlr s',
    at91_usart_spi_probe BITS_PER_LONG pf = Ok (ret, Some ctlr) ->
    in_speed_range ctlr xfer ->
    at91_usart_spi_set_xfer_speed xfer (devdata ctlr) = Ok (tt, s') ->
    is_ceil_div (pf_clk_rate pf) (speed_hz xfer) (hw_brgr (regs s'))
    /\ 6 <= hw_brgr (regs s') < 65536.

(** Whenever the status shows receive-ready without overrun, the handler
    reads one byte from the data-in register into
    [rx_buf[len - remaining]], decrements the receive counter and reports
    the interrupt as handled. *)
Definition spec_rx_ready_branch (s : at91_usart_spi) (x : spi_transfer)
    : Prop :=
  Z.testbit (hw_csr (regs s)) 5 = false ->
  Z.testbit (hw_csr (regs s)) 0 = true ->
  exists s',
    at91_usart_spi_interrupt s = Ok (IRQ_HANDLED, s')
    /\ appended s s'
         (journal_rx (u32 (hw_csr (regs s))) (hw_rhr (regs s))
            (len x - current_rx_remaining_bytes s))
    /\ current_transfer s'
       = Some (received x (len x - current_rx_remaining_bytes s)
                 (hw_rhr (regs s)))
    /\ current_rx_remaining_bytes s' = current_rx_remaining_bytes s - 1.

(** With bytes outstanding the receive step stores at an index inside
    [0, len). *)
Definition spec_rx_in_bounds (s : at91_usart_spi) (x : spi_transfer)
    : Prop :=
  current_rx_remaining_bytes s <> 0 ->
  exists s' i,
    0 <= i < len x
    /\ at91_usart_spi_rx s = Ok (tt, s')
    /\ current_transfer s' = Some (received x i (hw_rhr (regs s))).

(** Once the handler has processed an overrun signalled after [K] of the
    [len] bytes of a transfer, no later event stores into the receive
    buffer, the transfer and the number of bytes received stay as they
    are, and [transfer_one] returns the transmission error. *)
Definition spec_overrun_aborts (xfer : spi_transfer) (s0 : at91_usart_spi)
    (pre post : list event) : Prop :=
  forall q1 s1 K,
    full_run xfer pre (Arming AtSetSpeed) s0 = Ok (q1, s1) ->
    bytes_received xfer q1 s1 = K -> 0 <= K < len xfer ->
    Z.testbit (hw_csr (regs s1)) 5 = true ->
    full_admissible xfer (Interrupt :: post) q1 s1 = true ->
    exists q2 s2 es,
      full_run xfer (Interrupt :: post) q1 s1 = Ok (q2, s2)
      /\ appended s1 s2 es
      /\ existsb stores_rx_buf es = false
      /\ bytes_received xfer q2 s2 = K
      /\ (forall p1, q1 = Armed p1 ->
            current_transfer s2 = current_transfer s1)
      /\ ((full_steps_to_return q1 <= polls post)%nat ->
          full_returned q2 = Some (- EIO)).

(** The status re-read of the driving loop is executed while holding the
    lock. *)
Definition spec_status_read_locked (s : at91_usart_spi) : Prop :=
  exists s' es,
    transfer_one_step AtReadStatus s = Ok (AtTx, s')
    /\ appended s s' es /\ es <> [] /\ under_lock es.

(** * Properties *)

(** ** Machine arithmetic *)

Lemma u32_range z : 0 <= u32 z < 2 ^ 32.
Proof. unfold u32. apply Z.mod_pos_bound. lia. Qed.

Lemma u32_small z : 0 <= z < 2 ^ 32 -> u32 z = z.
Proof. intros H. unfold u32. now apply Z.mod_small. Qed.

Lemma u32_idem z : u32 (u32 z) = u32 z.
Proof. apply u32_small, u32_range. Qed.

Lemma s32_small z : 0 <= z <= INT_MAX -> s32 z = z.
Proof.
  unfold s32, INT_MAX. intros H.
  rewrite Z.mod_small by lia.
  destruct (Z.ltb_spec z (2 ^ 31)); lia.
Qed.

Lemma ulong_small bits z :
  bits = 32 \/ bits = 64 -> 0 <= z < 2 ^ 32 -> ulong bits z = z.
Proof.
  intros Hb Hz. unfold ulong. apply Z.mod_small.
  destruct Hb; subst bits; lia.
Qed.

(** Conversion to [int] keeps the value modulo 2^32. *)
Lemma s32_mod z : s32 z `mod` 2 ^ 32 = z `mod` 2 ^ 32.
Proof.
  unfold s32. pose proof (Z.mod_pos_bound z (2 ^ 32) ltac:(lia)).
  destruct (Z.ltb_spec (z `mod` 2 ^ 32) (2 ^ 31)).
  - apply Z.mod_mod; lia.
  - replace (z `mod` 2 ^ 32 - 2 ^ 32)
      with (z `mod` 2 ^ 32 + (- 1) * 2 ^ 32) by lia.
    rewrite Z.mod_add by lia. apply Z.mod_mod; lia.
Qed.

Lemma s32_eq_mod z z' : z `mod` 2 ^ 32 = z' `mod` 2 ^ 32 -> s32 z = s32 z'.
Proof. unfold s32. now intros ->. Qed.

(** A subtraction in [int] is the subtraction of the values, converted. *)
Lemma s32_sub n r : s32 (s32 n - s32 r) = s32 (n - r).
Proof.
  apply s32_eq_mod.
  rewrite Zminus_mod, !s32_mod, <- Zminus_mod. reflexivity.
Qed.

Lemma s32_high z : 2 ^ 31 <= z < 2 ^ 32 -> s32 z = z - 2 ^ 32.
Proof.
  intros H. unfold s32. rewrite Z.mod_small by lia.
  destruct (Z.ltb_spec z (2 ^ 31)); lia.
Qed.

Lemma s32_zero z : 0 <= z < 2 ^ 32 -> s32 z = 0 -> z = 0.
Proof.
  intros H E.
  destruct (Z.lt_ge_cases z (2 ^ 31)) as [Hlo | Hhi].
  - rewrite s32_small in E by (unfold INT_MAX; lia). exact E.
  - rewrite s32_high in E by lia. lia.
Qed.

(** An index that is not negative lands where it says, in both data
    models. *)
Lemma pointer_offset_small m i : 0 <= i < 2 ^ 32 -> pointer_offset m i = i.
Proof.
  intros H. unfold pointer_offset. apply Z.mod_small.
  destruct m; cbn [pointer_bits]; lia.
Qed.

(** Under ILP32 pointer arithmetic wraps at the width of [int]: an index
    lands at its value modulo 2^32. *)
Lemma pointer_offset_ilp32 z : pointer_offset ILP32 (s32 z) = u32 z.
Proof. unfold pointer_offset, u32. cbn [pointer_bits]. apply s32_mod. Qed.

(** Under LP64 a negative index lands far outside any object. *)
Lemma pointer_offset_lp64_negative i :
  - 2 ^ 31 <= i < 0 -> pointer_offset LP64 i = 2 ^ 64 + i.
Proof.
  intros H. unfold pointer_offset. cbn [pointer_bits].
  replace i with (2 ^ 64 + i + (- 1) * 2 ^ 64) at 1 by lia.
  rewrite Z.mod_add by lia. apply Z.mod_small. lia.
Qed.

(** The index of the receive step, [len - remaining] computed in [int],
    lands at [len - remaining] when the length suits the data model. *)
Lemma rx_index_lands m ln rxr :
  0 < rxr <= ln -> ln < 2 ^ 32 -> rx_index_fits m ln ->
  pointer_offset m (s32 (s32 ln - s32 rxr)) = ln - rxr.
Proof.
  intros Hr Hln Hfit. rewrite s32_sub.
  destruct m.
  - rewrite pointer_offset_ilp32. apply u32_small. lia.
  - specialize (Hfit eq_refl).
    rewrite s32_small by (unfold INT_MAX; lia).
    apply pointer_offset_small. lia.
Qed.

(** Without wrap-around the kernel's round-up division is the ceiling. *)
Lemma DIV_ROUND_UP_exact bits n d :
  0 <= n -> 0 < d -> n + d - 1 < 2 ^ bits ->
  is_ceil_div n d (DIV_ROUND_UP bits n d).
Proof.
  intros Hn Hd Hw. unfold DIV_ROUND_UP, is_ceil_div.
  rewrite Z.mod_small by lia.
  pose proof (Z.div_mod (n + d - 1) d ltac:(lia)) as E.
  pose proof (Z.mod_pos_bound (n + d - 1) d Hd) as B.
  nia.
Qed.

Lemma is_ceil_div_unique n d q q' :
  0 < d -> is_ceil_div n d q -> is_ceil_div n d q' -> q = q'.
Proof. unfold is_ceil_div. intros. nia. Qed.

Lemma is_ceil_div_bounds n d q :
  0 < d -> 0 <= n -> is_ceil_div n d q -> 0 <= q <= n.
Proof. unfold is_ceil_div. intros. nia. Qed.

(** A speed between the two advertised ceilings yields a divider between
    the two divider constants, both ends included. *)
Lemma divider_between rate lo hi speed q :
  26 <= rate ->
  is_ceil_div rate 65536 lo -> is_ceil_div rate 6 hi ->
  lo <= speed <= hi ->
  is_ceil_div rate speed q ->
  0 < speed /\ 6 <= q <= 65536.
Proof. unfold is_ceil_div. intros. nia. Qed.

(** ** Symbolic execution of driver code *)

(** Unfold the monad, the primitive operations and the driver functions,
    leaving integer arithmetic alone. *)
Ltac exec :=
  cbv beta iota zeta delta
    [mbind M_bind mret M_ret raise gets emit
     set_regs set_lock set_current_transfer set_tx_remaining
     set_rx_remaining set_spi_clk set_status set_xfer_failed
     store_current_transfer store_tx_remaining store_rx_remaining
     store_status store_xfer_failed the_transfer store_rx_buf
     spin_lock spin_unlock cpu_relax
     at91_usart_spi_readl at91_usart_spi_writel
     at91_usart_spi_readb at91_usart_spi_writeb
     at91_usart_spi_tx_ready at91_usart_spi_rx_ready
     at91_usart_spi_check_overrun at91_usart_spi_read_status
     at91_usart_spi_tx at91_usart_spi_rx at91_usart_spi_set_xfer_speed
     at91_usart_spi_interrupt at91_usart_spi_init
     at91_usart_spi_prepare_message at91_usart_spi_unprepare_message
     transfer_one_arm transfer_one_step on_event loop_condition
     current_transfer regs lock irq current_tx_remaining_bytes
     current_rx_remaining_bytes spi_clk status xfer_failed journal
     tx_buf rx_buf len speed_hz fresh_aus].

Ltac exec_in H :=
  cbv beta iota zeta delta
    [mbind M_bind mret M_ret raise gets emit
     set_regs set_lock set_current_transfer set_tx_remaining
     set_rx_remaining set_spi_clk set_status set_xfer_failed
     store_current_transfer store_tx_remaining store_rx_remaining
     store_status store_xfer_failed the_transfer store_rx_buf
     spin_lock spin_unlock cpu_relax
     at91_usart_spi_readl at91_usart_spi_writel
     at91_usart_spi_readb at91_usart_spi_writeb
     at91_usart_spi_tx_ready at91_usart_spi_rx_ready
     at91_usart_spi_check_overrun at91_usart_spi_read_status
     at91_usart_spi_tx at91_usart_spi_rx at91_usart_spi_set_xfer_speed
     at91_usart_spi_interrupt at91_usart_spi_init
     at91_usart_spi_prepare_message at91_usart_spi_unprepare_message
     transfer_one_arm transfer_one_step on_event loop_condition
     current_transfer regs lock irq current_tx_remaining_bytes
     current_rx_remaining_bytes spi_clk status xfer_failed journal
     tx_buf rx_buf len speed_hz fresh_aus] in H.

(** The register file under a write or a change of the device. *)
Ltac exec_hw :=
  cbv beta iota zeta delta
    [hw_readl hw_writel hw_readb hw_writeb hw_present irq_pending
     hw_cr hw_mr hw_imr hw_csr hw_rhr hw_thr hw_brgr hw_version].

Ltac exec_hw_in H :=
  cbv beta iota zeta delta
    [hw_readl hw_writel hw_readb hw_writeb hw_present irq_pending
     hw_cr hw_mr hw_imr hw_csr hw_rhr hw_thr hw_brgr hw_version] in H.

(** ** Attach: the advertised speed bounds *)

(** What a successful attach leaves in the controller. *)
Lemma at91_usart_spi_probe_ok bits pf ret ctlr :
  at91_usart_spi_probe bits pf = Ok (ret, Some ctlr) ->
  ret = 0
  /\ max_speed_hz ctlr
     = u32 (DIV_ROUND_UP bits (ulong bits (pf_clk_rate pf)) US_MIN_CLK_DIV)
  /\ min_speed_hz ctlr
     = u32 (DIV_ROUND_UP bits (ulong bits (pf_clk_rate pf)) US_MAX_CLK_DIV)
  /\ spi_clk (devdata ctlr) = u32 (ulong bits (pf_clk_rate pf)).
Proof.
  unfold at91_usart_spi_probe.
  repeat match goal with
         | |- context [if ?b then _ else _] => destruct b; try discriminate
         end.
  exec. exec_hw. intros H. injection H as <- <-. cbn. auto.
Qed.

Lemma at91_usart_spi_probe_cooperative bits rate dev :
  exists ctlr,
    at91_usart_spi_probe bits (cooperative rate dev) = Ok (0, Some ctlr).
Proof.
  eexists. unfold at91_usart_spi_probe, cooperative.
  unfold at91_usart_gpio_setup.
  cbn [pf_mem_resource pf_irq pf_clk_err pf_alloc_master pf_of_node
       pf_cs_gpios request_cs_gpios
       pf_ioremap_err pf_request_irq pf_clk_prepare_enable
       pf_register_master pf_clk_rate pf_device negb Z.eqb Z.ltb Z.compare].
  exec. reflexivity.
Qed.

Lemma speed_bounds_exact bits pf ret ctlr :
  bits = 32 \/ bits = 64 ->
  0 <= pf_clk_rate pf -> pf_clk_rate pf + 65535 < 2 ^ 32 ->
  at91_usart_spi_probe bits pf = Ok (ret, Some ctlr) ->
  exact_speed_bounds (pf_clk_rate pf) ctlr
  /\ spi_clk (devdata ctlr) = pf_clk_rate pf.
Proof.
  intros Hb H0 Hw Hp.
  apply at91_usart_spi_probe_ok in Hp as (_ & Hmax & Hmin & Hclk).
  rewrite ulong_small in Hmax, Hmin, Hclk by (auto; lia).
  rewrite u32_small in Hclk by lia.
  assert (Hpow : 2 ^ 32 <= 2 ^ bits) by (destruct Hb; subst bits; lia).
  pose proof (DIV_ROUND_UP_exact bits (pf_clk_rate pf) US_MIN_CLK_DIV
                H0 ltac:(reflexivity)
                ltac:(change US_MIN_CLK_DIV with 6; lia)) as E6.
  pose proof (DIV_ROUND_UP_exact bits (pf_clk_rate pf) US_MAX_CLK_DIV
                H0 ltac:(reflexivity)
                ltac:(change US_MAX_CLK_DIV with 65536; lia)) as E16.
  change US_MIN_CLK_DIV with 6 in *. change US_MAX_CLK_DIV with 65536 in *.
  pose proof (is_ceil_div_bounds (pf_clk_rate pf) 6 _ ltac:(lia) H0 E6).
  pose proof (is_ceil_div_bounds (pf_clk_rate pf) 65536 _ ltac:(lia) H0 E16).
  rewrite u32_small in Hmax, Hmin by lia.
  unfold exact_speed_bounds. rewrite Hmax, Hmin. auto.
Qed.

(** C8 (amended): for every base clock frequency below 2^32 - 65535 Hz,
    whether [unsigned long] has 32 or 64 bits, the speed bounds that a
    successful attach advertises are max_speed_hz = ceil(base_clock / 6)
    and min_speed_hz = ceil(base_clock / 65536), with the fixed divider
    constants 6 and 65536. *)
Theorem probe_speed_bounds bits pf ret ctlr :
  bits = 32 \/ bits = 64 ->
  0 <= pf_clk_rate pf -> pf_clk_rate pf + 65535 < 2 ^ 32 ->
  at91_usart_spi_probe bits pf = Ok (ret, Some ctlr) ->
  US_MIN_CLK_DIV = 6 /\ US_MAX_CLK_DIV = 65536
  /\ is_ceil_div (pf_clk_rate pf) 6 (max_speed_hz ctlr)
  /\ is_ceil_div (pf_clk_rate pf) 65536 (min_speed_hz ctlr).
Proof.
  intros Hb H0 Hw Hp.
  destruct (speed_bounds_exact bits pf ret ctlr Hb H0 Hw Hp) as [[? ?] _].
  split; [reflexivity |]. split; [reflexivity |]. split; assumption.
Qed.

Lemma probe_speed_bounds_witness :
  exists ctlr,
    at91_usart_spi_probe 32 (cooperative 150000000 usart_reset)
    = Ok (0, Some ctlr)
    /\ max_speed_hz ctlr = 25000000 /\ min_speed_hz ctlr = 2289
    /\ is_ceil_div 150000000 6 (max_speed_hz ctlr)
    /\ is_ceil_div 150000000 65536 (min_speed_hz ctlr).
Proof.
  eexists. split; [vm_compute; reflexivity |].
  split; [vm_compute; reflexivity |]. split; [vm_compute; reflexivity |].
  refine (proj2 (proj2
    (probe_speed_bounds 32 (cooperative 150000000 usart_reset) 0 _
       (or_introl eq_refl) _ _ _)));
    [cbn; lia | cbn; lia | vm_compute; reflexivity].
Defined.

(** C8 as specified fails where the round-up addition wraps: with a 32-bit
    [unsigned long] at the rate 2^32 - 1 both bounds come out as 0, and
    with a 64-bit one at the rate 2^35 the quotient no longer fits the
    32-bit field. *)
Lemma probe_speed_bounds_counterexample :
  ~ spec_speed_bounds 32 (cooperative (2 ^ 32 - 1) usart_reset)
  /\ ~ spec_speed_bounds 64 (cooperative (2 ^ 35) usart_reset).
Proof.
  split; intros H.
  - destruct (at91_usart_spi_probe_cooperative 32 (2 ^ 32 - 1) usart_reset)
      as [ctlr E].
    pose proof (H _ _ E) as [Hmax _].
    apply at91_usart_spi_probe_ok in E as (_ & E & _).
    rewrite E in Hmax. vm_compute in Hmax. destruct Hmax as [_ Hmax].
    now apply Hmax.
  - destruct (at91_usart_spi_probe_cooperative 64 (2 ^ 35) usart_reset)
      as [ctlr E].
    pose proof (H _ _ E) as [Hmax _].
    apply at91_usart_spi_probe_ok in E as (_ & E & _).
    rewrite E in Hmax. vm_compute in Hmax. destruct Hmax as [_ Hmax].
    now apply Hmax.
Qed.

(** ** The divider for one transfer *)

(** C4 (amended): for every transfer whose speed_hz lies within the
    advertised [min_speed_hz, max_speed_hz] of a controller whose base
    clock is at least 26 Hz, and as long as the 32-bit additions of the
    round-up divisions do not wrap (base_clock + 65535 < 2^32 and
    base_clock + speed_hz - 1 < 2^32), the value written to the
    baud-rate-generator register is ceil(base_clock / speed_hz) in exact
    arithmetic and lies in the closed range [6, 65536]. *)
Theorem set_xfer_speed_divider bits pf ret ctlr xfer s :
  bits = 32 \/ bits = 64 ->
  at91_usart_spi_probe bits pf = Ok (ret, Some ctlr) ->
  spi_clk s = spi_clk (devdata ctlr) ->
  26 <= pf_clk_rate pf ->
  pf_clk_rate pf + 65535 < 2 ^ 32 ->
  pf_clk_rate pf + speed_hz xfer - 1 < 2 ^ 32 ->
  in_speed_range ctlr xfer ->
  exists s' q,
    at91_usart_spi_set_xfer_speed xfer s = Ok (tt, s')
    /\ hw_brgr (regs s') = q
    /\ journal s' = (lock s, Writel US_BRGR q) :: journal s
    /\ is_ceil_div (pf_clk_rate pf) (speed_hz xfer) q
    /\ 6 <= q <= 65536.
Proof.
  intros Hb Hp Hclk Hlo Hw16 Hw Hin.
  destruct (speed_bounds_exact bits pf ret ctlr Hb ltac:(lia) Hw16 Hp)
    as [[Hmax Hmin] Hrate].
  pose proof (DIV_ROUND_UP_exact 32 (pf_clk_rate pf) (speed_hz xfer)) as Hq.
  assert (Hsp : 0 < speed_hz xfer).
  { unfold in_speed_range, is_ceil_div in *. nia. }
  specialize (Hq ltac:(lia) Hsp Hw).
  destruct (divider_between _ _ _ _ _ Hlo Hmin Hmax Hin Hq) as [_ Hrange].
  destruct s as [ct rg lk iq txr rxr clk st xf jr].
  destruct xfer as [tb rb ln sp].
  cbn [spi_clk speed_hz] in *. subst clk. rewrite Hrate.
  exists (mk_aus ct (hw_writel US_BRGR
                       (DIV_ROUND_UP 32 (pf_clk_rate pf) sp) rg)
            lk iq txr rxr (pf_clk_rate pf) st xf
            ((lk, Writel US_BRGR (DIV_ROUND_UP 32 (pf_clk_rate pf) sp))
               :: jr)),
    (DIV_ROUND_UP 32 (pf_clk_rate pf) sp).
  split; [| repeat split; auto; try lia; apply Hq ].
  exec.
  rewrite (u32_small sp) by lia.
  rewrite (u32_small (pf_clk_rate pf)) by lia.
  destruct (Z.eqb_spec sp 0) as [-> | _]; [lia |].
  rewrite (u32_small (DIV_ROUND_UP 32 (pf_clk_rate pf) sp)) by lia.
  reflexivity.
Qed.

Lemma set_xfer_speed_divider_witness :
  exists ctlr s',
    at91_usart_spi_probe 32 (cooperative 150000000 usart_reset)
    = Ok (0, Some ctlr)
    /\ at91_usart_spi_set_xfer_speed (mk_xfer [] [] 0 1000000)
         (devdata ctlr) = Ok (tt, s')
    /\ hw_brgr (regs s') = 150.
Proof.
  eassert (E : at91_usart_spi_probe 32 (cooperative 150000000 usart_reset)
               = Ok (0, Some _)) by (vm_compute; reflexivity).
  destruct (set_xfer_speed_divider 32 (cooperative 150000000 usart_reset)
              0 _ (mk_xfer [] [] 0 1000000) _ (or_introl eq_refl) E eq_refl)
    as (s' & q & Hrun & Hreg & _ & Hceil & _).
  - cbn; lia.
  - cbn; lia.
  - cbn; lia.
  - vm_compute. split; discriminate.
  - eexists _, s'. split; [exact E |]. split; [exact Hrun |].
    rewrite Hreg.
    apply (is_ceil_div_unique 150000000 1000000); [lia | exact Hceil |].
    unfold is_ceil_div. lia.
Defined.

(** C4 as specified fails at the low end of the advertised range: with a
    base clock of 65 536 000 Hz the advertised minimum is 1000 Hz, and a
    transfer at 1000 Hz programs the divider 65536, which is outside the
    half-open range [6, 65536). *)
Lemma set_xfer_speed_divider_counterexample :
  ~ spec_divider 32 (cooperative 65536000 usart_reset)
      (mk_xfer [] [] 0 1000).
Proof.
  intros H.
  eassert (E : at91_usart_spi_probe 32 (cooperative 65536000 usart_reset)
               = Ok (0, Some _)) by (vm_compute; reflexivity).
  edestruct (H 0) as [_ [_ Hlt]].
  - exact E.
  - vm_compute. split; discriminate.
  - vm_compute. reflexivity.
  - vm_compute in Hlt. discriminate.
Qed.

(** On a clock slower than 26 Hz the advertised maximum itself can give a
    divider below 6: at 7 Hz the range is [1, 2] and 2 Hz programs 4. *)
Example slow_clock_divider :
  exists ctlr s',
    at91_usart_spi_probe 32 (cooperative 7 usart_reset) = Ok (0, Some ctlr)
    /\ in_speed_range ctlr (mk_xfer [] [] 0 2)
    /\ at91_usart_spi_set_xfer_speed (mk_xfer [] [] 0 2) (devdata ctlr)
       = Ok (tt, s')
    /\ hw_brgr (regs s') = 4.
Proof.
  eassert (E : at91_usart_spi_probe 32 (cooperative 7 usart_reset)
               = Ok (0, Some _)) by (vm_compute; reflexivity).
  match type of E with
  | _ = Ok (_, Some ?c) =>
      eassert (R : at91_usart_spi_set_xfer_speed (mk_xfer [] [] 0 2)
                     (devdata c) = Ok (tt, _))
        by (vm_compute; reflexivity);
      exists c; eexists; split; [exact E |];
      split; [vm_compute; split; discriminate |];
      split; [exact R | reflexivity]
  end.
Qed.

(** ** Status bits *)

Lemma BIT_pow2 n : 0 <= n -> BIT n = 2 ^ n.
Proof. intros H. unfold BIT. now rewrite Z.shiftl_1_l. Qed.

Lemma land_BIT a n :
  0 <= n -> Z.land a (BIT n) = if Z.testbit a n then BIT n else 0.
Proof.
  intros Hn. rewrite BIT_pow2 by assumption.
  apply Z.bits_inj'. intros i Hi.
  rewrite Z.land_spec, Z.pow2_bits_eqb by assumption.
  destruct (Z.eqb_spec n i) as [<- | Hne].
  - destruct (Z.testbit a n); cbn.
    + now rewrite Z.pow2_bits_true.
    + now rewrite Z.bits_0.
  - rewrite andb_false_r.
    destruct (Z.testbit a n).
    + now rewrite Z.pow2_bits_false.
    + now rewrite Z.bits_0.
Qed.

Lemma testbit_u32 c n : 0 <= n < 32 -> Z.testbit (u32 c) n = Z.testbit c n.
Proof. intros H. unfold u32. apply Z.mod_pow2_bits_low. lia. Qed.

(** The test [status & BIT(n)] of the driver is the test of bit [n]. *)
Lemma flag_test c n :
  0 <= n < 32 ->
  (u32 (Z.land c (BIT n)) =? 0) = negb (Z.testbit c n).
Proof.
  intros Hn. rewrite land_BIT by lia.
  destruct (Z.testbit c n); [| reflexivity].
  rewrite BIT_pow2 by lia. rewrite u32_small.
  - destruct (Z.eqb_spec (2 ^ n) 0) as [E | _]; [| reflexivity].
    pose proof (Z.pow_pos_nonneg 2 n ltac:(lia) ltac:(lia)). lia.
  - split; [apply Z.pow_nonneg; lia | apply Z.pow_lt_mono_r; lia].
Qed.

(** The same tests on a status that was just read from the device. *)
Lemma overrun_test c :
  (u32 (Z.land (u32 (u32 c)) US_IR_OVRE) =? 0) = negb (Z.testbit c 5).
Proof.
  unfold US_IR_OVRE. rewrite flag_test, u32_idem, testbit_u32 by lia.
  reflexivity.
Qed.

Lemma rx_ready_test c :
  (u32 (Z.land (u32 (u32 c)) US_IR_RXRDY) =? 0) = negb (Z.testbit c 0).
Proof.
  unfold US_IR_RXRDY. rewrite flag_test, u32_idem, testbit_u32 by lia.
  reflexivity.
Qed.

Lemma tx_ready_test st :
  (u32 (Z.land st US_IR_TXRDY) =? 0) = negb (Z.testbit st 1).
Proof. apply (flag_test st 1). lia. Qed.

(** Writing the two receive sources to [US_IDR] clears them in the mask
    and touches no other source. *)
Lemma idr_clears imr i :
  0 <= i ->
  Z.testbit (Z.land imr (Z.lnot (u32 (Z.lor US_IR_OVRE US_IR_RXRDY)))) i
  = Z.testbit imr i && negb ((i =? 5) || (i =? 0)).
Proof.
  intros Hi. rewrite Z.land_spec, Z.lnot_spec by assumption. f_equal. f_equal.
  change (u32 (Z.lor US_IR_OVRE US_IR_RXRDY)) with (Z.lor (2 ^ 5) (2 ^ 0)).
  rewrite Z.lor_spec, !Z.pow2_bits_eqb by lia.
  now rewrite (Z.eqb_sym 5 i), (Z.eqb_sym 0 i).
Qed.

(** ** The interrupt handler, branch by branch *)

(** Overrun: flag the failure and mask both receive sources. *)
Lemma interrupt_overrun ct rg iq txr rxr clk st xf jr :
  Z.testbit (hw_csr rg) 5 = true ->
  at91_usart_spi_interrupt (mk_aus ct rg false iq txr rxr clk st xf jr)
  = Ok (IRQ_HANDLED,
        mk_aus ct
          (hw_writel US_IDR (u32 (Z.lor US_IR_OVRE US_IR_RXRDY)) rg)
          false iq txr rxr clk (u32 (u32 (hw_csr rg))) true
          (rev (journal_overrun (u32 (hw_csr rg))) ++ jr)).
Proof.
  intros Hov. exec. cbv [hw_readl].
  rewrite overrun_test, Hov. reflexivity.
Qed.

(** Receive-ready with bytes outstanding: take one byte. *)
Lemma interrupt_rx tb rb ln sp rg iq txr rxr clk st xf jr :
  Z.testbit (hw_csr rg) 5 = false ->
  Z.testbit (hw_csr rg) 0 = true ->
  0 < rxr <= ln -> ln <= INT_MAX -> Z.of_nat (length rb) = ln ->
  at91_usart_spi_interrupt
    (mk_aus (Some (mk_xfer tb rb ln sp)) rg false iq txr rxr clk st xf jr)
  = Ok (IRQ_HANDLED,
        mk_aus (Some (received (mk_xfer tb rb ln sp) (ln - rxr) (hw_rhr rg)))
          rg false iq txr (rxr - 1) clk (u32 (u32 (hw_csr rg))) xf
          (rev (journal_rx (u32 (hw_csr rg)) (hw_rhr rg) (ln - rxr)) ++ jr)).
Proof.
  intros Hov Hrx Hrem Hmax Hlen. unfold INT_MAX in Hmax.
  exec. cbv [hw_readl].
  rewrite overrun_test, Hov. cbn [negb]. exec.
  rewrite rx_ready_test, Hrx. cbn [negb]. exec.
  rewrite (s32_small rxr), (s32_small ln) by (unfold INT_MAX; lia).
  destruct (Z.eqb_spec rxr 0) as [-> | _]; [lia |]. exec.
  rewrite (s32_small (ln - rxr)) by (unfold INT_MAX; lia).
  rewrite (pointer_offset_small abi (ln - rxr)) by lia.
  rewrite Hlen.
  destruct (Z.leb_spec 0 (ln - rxr)); [| lia].
  destruct (Z.ltb_spec (ln - rxr) ln); [| lia].
  cbn [andb]. exec. cbv [hw_readb].
  rewrite (u32_small (rxr - 1)) by lia.
  reflexivity.
Qed.

(** Receive-ready with nothing outstanding: the byte stays in the device. *)
Lemma interrupt_rx_idle x rg iq txr clk st xf jr :
  Z.testbit (hw_csr rg) 5 = false ->
  Z.testbit (hw_csr rg) 0 = true ->
  at91_usart_spi_interrupt (mk_aus (Some x) rg false iq txr 0 clk st xf jr)
  = Ok (IRQ_HANDLED,
        mk_aus (Some x) rg false iq txr 0 clk (u32 (u32 (hw_csr rg))) xf
          (rev (journal_idle (u32 (hw_csr rg))) ++ jr)).
Proof.
  intros Hov Hrx. exec. cbv [hw_readl].
  rewrite overrun_test, Hov. cbn [negb]. exec.
  rewrite rx_ready_test, Hrx. reflexivity.
Qed.

(** Neither bit: the interrupt is not ours. *)
Lemma interrupt_none ct rg iq txr rxr clk st xf jr :
  Z.testbit (hw_csr rg) 5 = false ->
  Z.testbit (hw_csr rg) 0 = false ->
  at91_usart_spi_interrupt (mk_aus ct rg false iq txr rxr clk st xf jr)
  = Ok (IRQ_NONE,
        mk_aus ct rg false iq txr rxr clk (u32 (u32 (hw_csr rg))) xf
          (rev (journal_idle (u32 (hw_csr rg))) ++ jr)).
Proof.
  intros Hov Hrx. exec. cbv [hw_readl].
  rewrite overrun_test, Hov. cbn [negb]. exec.
  rewrite rx_ready_test, Hrx. reflexivity.
Qed.

(** C2 (amended): for every status snapshot the handler reads during a
    transfer in flight: if the overrun bit is set, it sets the failure
    flag, disables the overrun and receive-ready sources, does not read
    the data-in register (even if receive-ready is set as well) and
    returns handled; else if the receive-ready bit is set, it returns
    handled, and when receive-remaining is nonzero it has read one byte
    from the data-in register into rx_buf[len - receive-remaining] and
    decremented receive-remaining, whereas when receive-remaining is zero
    it has read nothing and changed neither buffer nor counter; else it
    returns not-this-device. *)
Theorem interrupt_handler_cases (s : at91_usart_spi) (x : spi_transfer) :
  lock s = false -> cursor_ok s x ->
  (Z.testbit (hw_csr (regs s)) 5 = true ->
   exists s',
     at91_usart_spi_interrupt s = Ok (IRQ_HANDLED, s')
     /\ xfer_failed s' = true
     /\ Z.testbit (hw_imr (regs s')) 5 = false
     /\ Z.testbit (hw_imr (regs s')) 0 = false
     /\ appended s s' (journal_overrun (u32 (hw_csr (regs s))))
     /\ existsb reads_rhr (journal_overrun (u32 (hw_csr (regs s)))) = false
     /\ current_transfer s' = Some x
     /\ current_rx_remaining_bytes s' = current_rx_remaining_bytes s)
  /\ (Z.testbit (hw_csr (regs s)) 5 = false ->
      Z.testbit (hw_csr (regs s)) 0 = true ->
      current_rx_remaining_bytes s <> 0 ->
      exists s',
        at91_usart_spi_interrupt s = Ok (IRQ_HANDLED, s')
        /\ appended s s'
             (journal_rx (u32 (hw_csr (regs s))) (hw_rhr (regs s))
                (len x - current_rx_remaining_bytes s))
        /\ current_transfer s'
           = Some (received x (len x - current_rx_remaining_bytes s)
                     (hw_rhr (regs s)))
        /\ current_rx_remaining_bytes s' = current_rx_remaining_bytes s - 1
        /\ xfer_failed s' = xfer_failed s
        /\ hw_imr (regs s') = hw_imr (regs s))
  /\ (Z.testbit (hw_csr (regs s)) 5 = false ->
      Z.testbit (hw_csr (regs s)) 0 = true ->
      current_rx_remaining_bytes s = 0 ->
      exists s',
        at91_usart_spi_interrupt s = Ok (IRQ_HANDLED, s')
        /\ appended s s' (journal_idle (u32 (hw_csr (regs s))))
        /\ existsb reads_rhr (journal_idle (u32 (hw_csr (regs s)))) = false
        /\ current_transfer s' = Some x
        /\ current_rx_remaining_bytes s' = 0
        /\ xfer_failed s' = xfer_failed s
        /\ hw_imr (regs s') = hw_imr (regs s))
  /\ (Z.testbit (hw_csr (regs s)) 5 = false ->
      Z.testbit (hw_csr (regs s)) 0 = false ->
      exists s',
        at91_usart_spi_interrupt s = Ok (IRQ_NONE, s')
        /\ appended s s' (journal_idle (u32 (hw_csr (regs s))))
        /\ current_transfer s' = Some x
        /\ current_rx_remaining_bytes s' = current_rx_remaining_bytes s
        /\ xfer_failed s' = xfer_failed s
        /\ hw_imr (regs s') = hw_imr (regs s)).
Proof.
  intros Hlock [Hct Htx Hrx Hmax Htb Hrb].
  destruct s as [ct rg lk iq txr rxr clk st xf jr].
  destruct x as [tb rb ln sp].
  cbn [lock current_transfer current_tx_remaining_bytes
       current_rx_remaining_bytes regs len tx_buf rx_buf xfer_failed] in *.
  subst lk ct.
  split; [| split; [| split]].
  - intros Hov. eexists. split; [now apply interrupt_overrun |].
    cbn [xfer_failed regs current_transfer current_rx_remaining_bytes].
    destruct rg as [cr mr imr csr rhr thr brgr ver].
    cbv [hw_writel hw_imr]. rewrite !idr_clears by lia.
    cbn [Z.eqb orb negb]. rewrite !andb_false_r.
    repeat split; reflexivity.
  - intros Hov Hrdy Hne. eexists.
    split; [apply interrupt_rx; auto; lia |].
    repeat split; reflexivity.
  - intros Hov Hrdy ->. eexists.
    split; [now apply interrupt_rx_idle |].
    repeat split; reflexivity.
  - intros Hov Hrdy. eexists.
    split; [now apply interrupt_none |].
    repeat split; reflexivity.
Qed.

(** ** The two steps on the buffers *)

(** The transmit step with a byte to send and the transmitter ready. *)
Lemma tx_sends tb rb ln sp rg lk iq txr rxr clk st xf jr b :
  Z.testbit st 1 = true ->
  0 < txr <= ln -> ln < 2 ^ 32 ->
  tb !! Z.to_nat (ln - txr) = Some b ->
  at91_usart_spi_tx
    (mk_aus (Some (mk_xfer tb rb ln sp)) rg lk iq txr rxr clk st xf jr)
  = Ok (tt,
        mk_aus (Some (mk_xfer tb rb ln sp)) (hw_writeb US_THR b rg)
          lk iq (txr - 1) rxr clk st xf
          ((lk, Store FTxRemaining) :: (lk, Writeb US_THR b) :: jr)).
Proof.
  intros Hrdy Hrem Hln Hb. exec.
  destruct (Z.eqb_spec txr 0) as [-> | _]; [lia |]. exec.
  rewrite tx_ready_test, Hrdy. cbn [negb]. exec.
  rewrite (u32_small ln), (u32_small (ln - txr)) by lia.
  unfold load.
  pose proof (lookup_lt_Some _ _ _ Hb) as Hlt.
  destruct (Z.leb_spec 0 (ln - txr)); [| lia].
  destruct (Z.ltb_spec (ln - txr) (Z.of_nat (length tb))); [| lia].
  cbn [andb]. rewrite Hb. exec.
  rewrite (u32_small (txr - 1)) by lia. reflexivity.
Qed.

(** The transmit step with nothing left to send. *)
Lemma tx_idle x rg lk iq rxr clk st xf jr :
  at91_usart_spi_tx (mk_aus (Some x) rg lk iq 0 rxr clk st xf jr)
  = Ok (tt, mk_aus (Some x) rg lk iq 0 rxr clk st xf jr).
Proof. reflexivity. Qed.

(** The transmit step while the transmitter is busy. *)
Lemma tx_busy x rg lk iq txr rxr clk st xf jr :
  Z.testbit st 1 = false ->
  at91_usart_spi_tx (mk_aus (Some x) rg lk iq txr rxr clk st xf jr)
  = Ok (tt, mk_aus (Some x) rg lk iq txr rxr clk st xf jr).
Proof.
  intros Hrdy. exec. destruct (txr =? 0); [reflexivity |]. exec.
  rewrite tx_ready_test, Hrdy. reflexivity.
Qed.

(** The receive step with nothing outstanding. *)
Lemma rx_idle x rg lk iq txr clk st xf jr :
  at91_usart_spi_rx (mk_aus (Some x) rg lk iq txr 0 clk st xf jr)
  = Ok (tt, mk_aus (Some x) rg lk iq txr 0 clk st xf jr).
Proof. reflexivity. Qed.

(** The receive step with a byte outstanding, for every length that
    suits the data model. *)
Lemma rx_takes_fits tb rb ln sp rg lk iq txr rxr clk st xf jr :
  0 < rxr <= ln -> ln < 2 ^ 32 -> rx_index_fits abi ln ->
  Z.of_nat (length rb) = ln ->
  at91_usart_spi_rx
    (mk_aus (Some (mk_xfer tb rb ln sp)) rg lk iq txr rxr clk st xf jr)
  = Ok (tt,
        mk_aus (Some (received (mk_xfer tb rb ln sp) (ln - rxr) (hw_rhr rg)))
          rg lk iq txr (rxr - 1) clk st xf
          ((lk, Store FRxRemaining) :: (lk, Store (FRxBuf (ln - rxr)))
             :: (lk, Readb US_RHR (hw_rhr rg)) :: jr)).
Proof.
  intros Hrem Hln Hfit Hlen. exec.
  destruct (Z.eqb_spec (s32 rxr) 0) as [E | _];
    [apply s32_zero in E; lia |].
  exec. rewrite (rx_index_lands abi ln rxr) by assumption.
  rewrite Hlen.
  destruct (Z.leb_spec 0 (ln - rxr)); [| lia].
  destruct (Z.ltb_spec (ln - rxr) ln); [| lia].
  cbn [andb]. exec. cbv [hw_readb].
  rewrite (u32_small (rxr - 1)) by lia.
  reflexivity.
Qed.

(** Under LP64 the receive step faults at every index from 2^31 on: its
    [int] index is negative there, and the store lands before the
    buffer. *)
Lemma rx_lands_outside tb rb ln sp rg lk iq txr rxr clk st xf jr :
  abi = LP64 ->
  0 < rxr <= ln -> ln < 2 ^ 32 -> 2 ^ 31 <= ln - rxr ->
  Z.of_nat (length rb) = ln ->
  at91_usart_spi_rx
    (mk_aus (Some (mk_xfer tb rb ln sp)) rg lk iq txr rxr clk st xf jr)
  = Fault OutOfBounds.
Proof.
  intros Eabi Hrem Hln Hhigh Hlen. exec.
  destruct (Z.eqb_spec (s32 rxr) 0) as [E | _];
    [apply s32_zero in E; lia |].
  exec. rewrite Eabi, s32_sub, s32_high by lia.
  rewrite pointer_offset_lp64_negative by lia.
  rewrite Hlen.
  destruct (Z.ltb_spec (2 ^ 64 + (ln - rxr - 2 ^ 32)) ln); [lia |].
  rewrite andb_false_r. reflexivity.
Qed.

(** X23: for every transfer in flight whose length suits the data model
    (any length that fits [unsigned int] under ILP32, at most 2^31 bytes
    under LP64), the transmit step and the receive step touch only buffer
    indices in [0, len): each is a no-op when its remaining counter is
    zero, the transmit step otherwise sends tx_buf[len - remaining] and
    the receive step stores at rx_buf[len - remaining] and nowhere else;
    in particular a receive-ready event that arrives after
    receive-remaining has reached zero is still reported as handled but
    leaves the receive buffer and the cursor unchanged. *)
Theorem steps_stay_in_bounds (s : at91_usart_spi) (x : spi_transfer) :
  cursor_in s x -> rx_index_fits abi (len x) ->
  (current_tx_remaining_bytes s = 0 -> at91_usart_spi_tx s = Ok (tt, s))
  /\ (current_tx_remaining_bytes s <> 0 -> Z.testbit (status s) 1 = true ->
      exists s' b,
        0 <= len x - current_tx_remaining_bytes s < len x
        /\ tx_buf x !! Z.to_nat (len x - current_tx_remaining_bytes s)
           = Some b
        /\ at91_usart_spi_tx s = Ok (tt, s')
        /\ hw_thr (regs s') = hw_thr (regs s) ++ [b]
        /\ current_transfer s' = Some x)
  /\ (current_rx_remaining_bytes s = 0 -> at91_usart_spi_rx s = Ok (tt, s))
  /\ (current_rx_remaining_bytes s <> 0 ->
      exists s' x',
        0 <= len x - current_rx_remaining_bytes s < len x
        /\ at91_usart_spi_rx s = Ok (tt, s')
        /\ current_transfer s' = Some x'
        /\ x' = received x (len x - current_rx_remaining_bytes s)
                  (hw_rhr (regs s))
        /\ (forall j : nat,
              j <> Z.to_nat (len x - current_rx_remaining_bytes s) ->
              rx_buf x' !! j = rx_buf x !! j)
        /\ length (rx_buf x') = length (rx_buf x))
  /\ (lock s = false ->
      current_rx_remaining_bytes s = 0 ->
      Z.testbit (hw_csr (regs s)) 0 = true ->
      Z.testbit (hw_csr (regs s)) 5 = false ->
      exists s',
        at91_usart_spi_interrupt s = Ok (IRQ_HANDLED, s')
        /\ current_transfer s' = current_transfer s
        /\ current_tx_remaining_bytes s' = current_tx_remaining_bytes s
        /\ current_rx_remaining_bytes s' = current_rx_remaining_bytes s
        /\ xfer_failed s' = xfer_failed s).
Proof.
  intros [Hct Htx Hrx Hln Htb Hrb] Hfit.
  destruct s as [ct rg lk iq txr rxr clk st xf jr].
  destruct x as [tb rb ln sp].
  cbn [lock current_transfer current_tx_remaining_bytes
       current_rx_remaining_bytes regs len tx_buf rx_buf xfer_failed
       status] in *.
  subst ct.
  split; [| split; [| split; [| split]]].
  - intros ->. apply tx_idle.
  - intros Hne Hrdy.
    destruct (lookup_lt_is_Some_2 tb (Z.to_nat (ln - txr)) ltac:(lia))
      as [b Hb].
    eexists _, b. split; [lia |]. split; [exact Hb |].
    split; [apply tx_sends; [exact Hrdy | lia | lia | exact Hb] |].
    destruct rg; split; reflexivity.
  - intros ->. apply rx_idle.
  - intros Hne. eexists _, _. split; [lia |].
    split; [apply rx_takes_fits; auto; lia |].
    split; [reflexivity |]. split; [reflexivity |].
    cbn [received rx_buf]. split.
    + intros j Hj. now apply list_lookup_insert_ne.
    + apply length_insert.
  - intros -> -> Hrdy Hov. eexists.
    split; [now apply interrupt_rx_idle |].
    repeat split; reflexivity.
Qed.

(** The handler on a receive-ready status with a byte outstanding at an
    index from 2^31 on, under LP64: it faults in its receive step. *)
Lemma interrupt_lands_outside tb rb ln sp rg iq txr rxr clk st xf jr :
  abi = LP64 ->
  Z.testbit (hw_csr rg) 5 = false ->
  Z.testbit (hw_csr rg) 0 = true ->
  0 < rxr <= ln -> ln < 2 ^ 32 -> 2 ^ 31 <= ln - rxr ->
  Z.of_nat (length rb) = ln ->
  at91_usart_spi_interrupt
    (mk_aus (Some (mk_xfer tb rb ln sp)) rg false iq txr rxr clk st xf jr)
  = Fault OutOfBounds.
Proof.
  intros Eabi Hov Hrx Hrem Hln Hhigh Hlen.
  unfold at91_usart_spi_interrupt.
  cbv beta iota zeta delta
    [mbind M_bind mret M_ret raise gets emit set_lock set_status
     store_status spin_lock at91_usart_spi_readl
     at91_usart_spi_check_overrun at91_usart_spi_rx_ready
     at91_usart_spi_read_status
     current_transfer regs lock irq current_tx_remaining_bytes
     current_rx_remaining_bytes spi_clk status xfer_failed journal].
  cbv [hw_readl]. rewrite overrun_test, Hov. cbn [negb].
  rewrite rx_ready_test, Hrx. cbn [negb].
  rewrite rx_lands_outside by assumption. reflexivity.
Qed.

(** ** What a run of the handler or a step of the loop can have done *)

(** Every successful run of the handler, from any state in which the lock
    is free, is one of four. *)
Lemma interrupt_inv ct rg iq txr rxr clk st xf jr r s' :
  at91_usart_spi_interrupt (mk_aus ct rg false iq txr rxr clk st xf jr)
  = Ok (r, s') ->
  (Z.testbit (hw_csr rg) 5 = true /\ r = IRQ_HANDLED
   /\ s' = mk_aus ct
             (hw_writel US_IDR (u32 (Z.lor US_IR_OVRE US_IR_RXRDY)) rg)
             false iq txr rxr clk (u32 (u32 (hw_csr rg))) true
             (rev (journal_overrun (u32 (hw_csr rg))) ++ jr))
  \/ (Z.testbit (hw_csr rg) 5 = false /\ Z.testbit (hw_csr rg) 0 = true
      /\ r = IRQ_HANDLED
      /\ exists x,
           ct = Some x /\ s32 rxr = 0
           /\ s' = mk_aus ct rg false iq txr rxr clk
                     (u32 (u32 (hw_csr rg))) xf
                     (rev (journal_idle (u32 (hw_csr rg))) ++ jr))
  \/ (Z.testbit (hw_csr rg) 5 = false /\ Z.testbit (hw_csr rg) 0 = true
      /\ r = IRQ_HANDLED
      /\ exists x i,
           ct = Some x /\ s32 rxr <> 0
           /\ i = pointer_offset abi (s32 (s32 (len x) - s32 rxr))
           /\ 0 <= i < Z.of_nat (length (rx_buf x))
           /\ s' = mk_aus (Some (received x i (hw_rhr rg))) rg false iq txr
                     (u32 (rxr - 1)) clk (u32 (u32 (hw_csr rg))) xf
                     (rev (journal_rx (u32 (hw_csr rg)) (hw_rhr rg) i)
                        ++ jr))
  \/ (Z.testbit (hw_csr rg) 5 = false /\ Z.testbit (hw_csr rg) 0 = false
      /\ r = IRQ_NONE
      /\ s' = mk_aus ct rg false iq txr rxr clk (u32 (u32 (hw_csr rg))) xf
                (rev (journal_idle (u32 (hw_csr rg))) ++ jr)).
Proof.
  intros H. exec_in H. cbv [hw_readl] in H.
  rewrite overrun_test in H.
  destruct (Z.testbit (hw_csr rg) 5) eqn:Hov; cbn [negb] in H; exec_in H.
  { injection H as <- <-. left. auto. }
  right. rewrite rx_ready_test in H.
  destruct (Z.testbit (hw_csr rg) 0) eqn:Hrx; cbn [negb] in H; exec_in H.
  2: { injection H as <- <-. right. right. auto. }
  destruct ct as [[tb rb ln sp] |]; exec_in H; [| discriminate].
  destruct (Z.eqb_spec (s32 rxr) 0) as [Hz | Hnz]; exec_in H.
  { injection H as <- <-. left. repeat split; auto. eexists. eauto. }
  right. left.
  destruct (Z.leb_spec 0 (pointer_offset abi (s32 (s32 ln - s32 rxr))))
    as [Hlo | Hlo]; cbn [andb] in H; exec_in H; [| discriminate].
  destruct (Z.ltb_spec (pointer_offset abi (s32 (s32 ln - s32 rxr)))
              (Z.of_nat (length rb)))
    as [Hhi | Hhi]; exec_in H; [| discriminate].
  cbv [hw_readb] in H. injection H as <- <-.
  repeat split; auto.
  exists (mk_xfer tb rb ln sp),
    (pointer_offset abi (s32 (s32 ln - s32 rxr))).
  repeat split; auto.
Qed.

(** Every successful transmit step either leaves the state alone or sends
    the next byte. *)
Lemma tx_inv ct rg lk iq txr rxr clk st xf jr s' :
  at91_usart_spi_tx (mk_aus ct rg lk iq txr rxr clk st xf jr) = Ok (tt, s') ->
  exists x,
    ct = Some x
    /\ (((txr = 0 \/ Z.testbit st 1 = false)
         /\ s' = mk_aus ct rg lk iq txr rxr clk st xf jr)
        \/ (txr <> 0 /\ Z.testbit st 1 = true
            /\ exists b,
                 tx_buf x !! Z.to_nat (u32 (u32 (len x) - txr)) = Some b
                 /\ s' = mk_aus ct (hw_writeb US_THR b rg) lk iq
                           (u32 (txr - 1)) rxr clk st xf
                           ((lk, Store FTxRemaining)
                              :: (lk, Writeb US_THR b) :: jr))).
Proof.
  intros H. destruct ct as [[tb rb ln sp] |]; exec_in H; [| discriminate].
  eexists. split; [reflexivity |].
  destruct (Z.eqb_spec txr 0) as [Hz | Hnz]; exec_in H.
  { injection H as <-. left. auto. }
  rewrite tx_ready_test in H.
  destruct (Z.testbit st 1) eqn:Hrdy; cbn [negb] in H; exec_in H.
  2: { injection H as <-. left. auto. }
  right. split; [assumption |]. split; [reflexivity |].
  unfold load in H.
  destruct ((0 <=? u32 (u32 ln - txr))
            && (u32 (u32 ln - txr) <? Z.of_nat (length tb)));
    exec_in H; [| discriminate].
  cbn [tx_buf len].
  destruct (tb !! Z.to_nat (u32 (u32 ln - txr))) as [b |];
    exec_in H; [| discriminate].
  injection H as <-. exists b. auto.
Qed.

(** The four statements of the polling context. *)
Lemma step_cond s :
  transfer_one_step AtCond s
  = Ok (if loop_condition s then AtReadStatus else AtCheck, s).
Proof.
  unfold transfer_one_step, mbind, M_bind, gets, mret, M_ret.
  now destruct (loop_condition s).
Qed.

Lemma step_read_status ct rg lk iq txr rxr clk st xf jr :
  transfer_one_step AtReadStatus (mk_aus ct rg lk iq txr rxr clk st xf jr)
  = Ok (AtTx,
        mk_aus ct rg lk iq txr rxr clk (u32 (u32 (hw_csr rg))) xf
          ((lk, Store FStatus) :: (lk, Readl US_CSR (u32 (hw_csr rg)))
             :: jr)).
Proof. reflexivity. Qed.

Lemma step_tx s :
  transfer_one_step AtTx s
  = match at91_usart_spi_tx s with
    | Ok (_, s1) =>
        Ok (AtCond,
            mk_aus (current_transfer s1) (regs s1) (lock s1) (irq s1)
              (current_tx_remaining_bytes s1)
              (current_rx_remaining_bytes s1) (spi_clk s1) (status s1)
              (xfer_failed s1) ((lock s1, CpuRelax) :: journal s1))
    | Fault f => Fault f
    end.
Proof.
  unfold transfer_one_step, mbind, M_bind, cpu_relax, emit, mret, M_ret.
  destruct (at91_usart_spi_tx s) as [[[] s1] | f]; reflexivity.
Qed.

Lemma step_check s :
  transfer_one_step AtCheck s
  = Ok (Returned (if xfer_failed s then - EIO else 0), s).
Proof.
  unfold transfer_one_step, mbind, M_bind, gets, mret, M_ret.
  now destruct (xfer_failed s).
Qed.

Lemma step_returned ret s :
  transfer_one_step (Returned ret) s = Ok (Returned ret, s).
Proof. reflexivity. Qed.

(** What a step of the polling context leaves alone: everything the
    interrupt context owns, the lock and the interrupt mask; and what it
    appends to the journal carries the lock as it found it. *)
Lemma poll_frame p s p' s' :
  transfer_one_step p s = Ok (p', s') ->
  current_rx_remaining_bytes s' = current_rx_remaining_bytes s
  /\ xfer_failed s' = xfer_failed s
  /\ current_transfer s' = current_transfer s
  /\ lock s' = lock s
  /\ hw_imr (regs s') = hw_imr (regs s)
  /\ hw_csr (regs s') = hw_csr (regs s)
  /\ spi_clk s' = spi_clk s
  /\ (current_tx_remaining_bytes s = 0 -> current_tx_remaining_bytes s' = 0)
  /\ exists es,
       appended s s' es
       /\ Forall (λ e : entry, e.1 = lock s) es
       /\ existsb stores_rx_buf es = false
       /\ existsb takes_lock es = false.
Proof.
  intros H. destruct p.
  - rewrite step_cond in H. injection H as _ <-.
    repeat split; auto. exists []. repeat split; auto.
  - destruct s as [ct rg lk iq txr rxr clk st xf jr].
    rewrite step_read_status in H. injection H as _ <-.
    repeat split; auto.
    exists [(lk, Readl US_CSR (u32 (hw_csr rg))); (lk, Store FStatus)].
    repeat split; auto.
  - rewrite step_tx in H.
    destruct (at91_usart_spi_tx s) as [[[] s1] | f] eqn:Htx; [| discriminate].
    injection H as _ <-.
    destruct s as [ct rg lk iq txr rxr clk st xf jr].
    apply tx_inv in Htx as (x & -> & [[_ ->] | (Hnz & _ & b & _ & ->)]).
    + repeat split; auto. exists [(lk, CpuRelax)]. repeat split; auto.
    + destruct rg. cbn. repeat split; auto; try lia.
      exists [(lk, Writeb US_THR b); (lk, Store FTxRemaining); (lk, CpuRelax)].
      repeat split; auto.
  - rewrite step_check in H. injection H as _ <-.
    repeat split; auto. exists []. repeat split; auto.
  - rewrite step_returned in H. injection H as _ <-.
    repeat split; auto. exists []. repeat split; auto.
Qed.

(** ** The lock *)

Lemma appended_inj s s' es es' :
  appended s s' es -> appended s s' es' -> es = es'.
Proof.
  unfold appended. intros H H'. rewrite H in H'.
  apply app_inv_tail in H'. now apply rev_inj.
Qed.

Lemma under_lock_overrun c : under_lock (journal_overrun c).
Proof. repeat constructor. Qed.

Lemma under_lock_rx c b i : under_lock (journal_rx c b i).
Proof. repeat constructor. Qed.

Lemma under_lock_idle c : under_lock (journal_idle c).
Proof. repeat constructor. Qed.

(** C5 (amended): in every transfer the interrupt handler's whole body,
    that is its status read and its read-modify-write of the cursor and
    of the failure flag, is executed while holding the controller's lock,
    which it takes first and releases last; the driving loop never takes
    the lock: its status re-read, its transmit step and its busy-wait are
    all executed without it. *)
Theorem lock_discipline (s : at91_usart_spi) :
  lock s = false ->
  (forall r s',
     at91_usart_spi_interrupt s = Ok (r, s') ->
     exists es,
       appended s s' es /\ under_lock es
       /\ head es = Some (true, SpinLock)
       /\ last es = Some (true, SpinUnlock)
       /\ lock s' = false)
  /\ (forall p p' s',
        transfer_one_step p s = Ok (p', s') ->
        exists es,
          appended s s' es /\ without_lock es
          /\ existsb takes_lock es = false
          /\ lock s' = false).
Proof.
  intros Hlock. split.
  - intros r s' H.
    destruct s as [ct rg lk iq txr rxr clk st xf jr]. cbn in Hlock. subst lk.
    apply interrupt_inv in H
      as [(_ & _ & ->) | [(_ & _ & _ & x & _ & _ & ->)
         | [(_ & _ & _ & x & i & _ & _ & _ & _ & ->) | (_ & _ & _ & ->)]]].
    + eexists. split; [reflexivity |].
      split; [apply under_lock_overrun |]. auto.
    + eexists. split; [reflexivity |].
      split; [apply under_lock_idle |]. auto.
    + eexists. split; [reflexivity |].
      split; [apply under_lock_rx |]. auto.
    + eexists. split; [reflexivity |].
      split; [apply under_lock_idle |]. auto.
  - intros p p' s' H.
    apply poll_frame in H
      as (_ & _ & _ & Hl & _ & _ & _ & _ & es & Ha & Hf & _ & Ht).
    exists es. rewrite Hlock in Hf, Hl. auto.
Qed.

(** C5 as specified fails on the polling side: the driving loop re-reads
    the status without ever taking the lock. *)
Lemma lock_discipline_counterexample :
  lock aus_armed = false
  /\ ~ spec_status_read_locked aus_armed.
Proof.
  split; [reflexivity |].
  intros (s' & es & Hrun & Ha & Hne & Hl).
  vm_compute in Hrun. injection Hrun as <-.
  assert (Hes : appended aus_armed
                  (mk_aus (Some xfer_three)
                     (mk_usart US_ENABLE US_INIT US_OVRE_RXRDY_IRQS 2 x00 []
                        150 0)
                     false 0 3 3 150000000 2 false
                     [(false, Store FStatus); (false, Readl US_CSR 2)])
                  [(false, Readl US_CSR 2); (false, Store FStatus)])
    by reflexivity.
  pose proof (appended_inj _ _ _ _ Ha Hes) as ->.
  inversion Hl as [| e l Hhd _]. discriminate Hhd.
Qed.

(** ** Peer setup *)

Lemma land_pow2_test a j :
  0 <= j -> (Z.land a (2 ^ j) =? 0) = negb (Z.testbit a j).
Proof.
  intros Hj. rewrite <- BIT_pow2, land_BIT by assumption.
  destruct (Z.testbit a j); [| reflexivity].
  rewrite BIT_pow2 by assumption.
  destruct (Z.eqb_spec (2 ^ j) 0) as [E | _]; [| reflexivity].
  pose proof (Z.pow_pos_nonneg 2 j ltac:(lia) Hj). lia.
Qed.

Lemma testbit_above z i : 0 <= z < 2 ^ 32 -> 32 <= i -> Z.testbit z i = false.
Proof.
  intros Hz Hi. rewrite <- (Z.mod_small z (2 ^ 32)) by assumption.
  apply Z.mod_pow2_bits_high. lia.
Qed.

(** [mode_bit] copies one flag of the peer into one bit of the mode value
    and leaves every other bit as it was. *)
Lemma mode_bit_spec mode j mr k i :
  0 <= j -> 0 <= k < 32 -> 0 <= mr < 2 ^ 32 -> 0 <= i ->
  Z.testbit (mode_bit mode (2 ^ j) mr (BIT k)) i
  = if i =? k then Z.testbit mode j else Z.testbit mr i.
Proof.
  intros Hj Hk Hmr Hi. unfold mode_bit.
  rewrite land_pow2_test by assumption. rewrite BIT_pow2 by lia.
  unfold u32.
  destruct (Z.testbit mode j); cbn [negb];
    rewrite Z.testbit_mod_pow2 by lia.
  - rewrite Z.lor_spec, Z.pow2_bits_eqb by lia.
    rewrite (Z.eqb_sym k i).
    destruct (Z.ltb_spec i 32); destruct (Z.eqb_spec i k);
      cbn [andb orb negb];
      rewrite ?orb_true_r, ?orb_false_r; try reflexivity; try lia.
    symmetry. now apply testbit_above.
  - rewrite Z.land_spec, Z.lnot_spec, Z.pow2_bits_eqb by lia.
    rewrite (Z.eqb_sym k i).
    destruct (Z.ltb_spec i 32); destruct (Z.eqb_spec i k);
      cbn [andb orb negb];
      rewrite ?andb_true_r, ?andb_false_r; try reflexivity; try lia.
    symmetry. now apply testbit_above.
Qed.

Lemma mode_bit_range mode mask mr bit : 0 <= mode_bit mode mask mr bit < 2 ^ 32.
Proof. unfold mode_bit. destruct (negb _); apply u32_range. Qed.

(** The three flags land in bits 16, 8 and 15; the rest is the register. *)
Lemma setup_mr_bits mode live i :
  0 <= live < 2 ^ 32 -> 0 <= i ->
  Z.testbit (setup_mr mode live) i
  = if i =? 15 then Z.testbit mode 5
    else if i =? 8 then Z.testbit mode 0
    else if i =? 16 then Z.testbit mode 1
    else Z.testbit live i.
Proof.
  intros Hlive Hi. unfold setup_mr.
  change SPI_LOOP with (2 ^ 5). change SPI_CPHA with (2 ^ 0).
  change SPI_CPOL with (2 ^ 1).
  unfold US_MR_LOOP, US_MR_CPHA, US_MR_CPOL.
  rewrite mode_bit_spec by (auto using mode_bit_range; lia).
  destruct (i =? 15); [reflexivity |].
  rewrite mode_bit_spec by (auto using mode_bit_range; lia).
  destruct (i =? 8); [reflexivity |].
  rewrite mode_bit_spec by (auto; lia).
  reflexivity.
Qed.

(** C6: for every peer whose declared word width is not 8 bits, setup
    returns the unsupported-word-width failure (-EINVAL) at once, having
    done nothing but read the mode register: nothing is allocated or
    cached, the peer and kernel memory are exactly as before the call. *)
Theorem setup_rejects_word_width (alloc_succeeds : bool) (spi : spi_device)
    (h : gmap nat Z) (s : at91_usart_spi) :
  0 <= bits_per_word spi < 2 ^ 8 -> bits_per_word spi <> 8 ->
  exists s',
    at91_usart_spi_setup alloc_succeeds spi h s = Ok ((- EINVAL, spi, h), s')
    /\ regs s' = regs s
    /\ journal s'
       = (lock s, Readl US_MR (u32 (hw_mr (regs s)))) :: journal s.
Proof.
  intros Hbits Hne. destruct s as [ct rg lk iq txr rxr clk st xf jr].
  unfold at91_usart_spi_setup. exec. cbv [hw_readl].
  unfold u8. rewrite Z.mod_small by assumption.
  destruct (Z.eqb_spec (bits_per_word spi) 8) as [E | _]; [contradiction |].
  cbn [negb]. exec. eexists. split; [reflexivity |]. split; reflexivity.
Qed.

Lemma setup_rejects_word_width_witness :
  exists s',
    at91_usart_spi_setup true (mk_spi 16 0 0 None) ∅ aus_attached
    = Ok ((- EINVAL, mk_spi 16 0 0 None, ∅), s').
Proof.
  destruct (setup_rejects_word_width true (mk_spi 16 0 0 None) ∅
              aus_attached) as (s' & H & _).
  - cbn. lia.
  - cbn. lia.
  - exists s'. exact H.
Defined.

(** C10: setup computes the cached per-peer mode value from the mode
    register as it reads it at that moment, changing only the
    clock-polarity (16), clock-phase (8) and loopback (15) bits, which
    follow the peer's mode flags; every other bit of the cached value is
    the corresponding bit of the register just read.  A repeated setup of
    a peer that already has a cache cell overwrites that cell in place and
    succeeds, whatever the allocator would answer; a first setup allocates
    a fresh cell, or fails with -ENOMEM leaving everything as it was. *)
Theorem setup_mode_value (alloc_succeeds : bool) (spi : spi_device)
    (h : gmap nat Z) (s : at91_usart_spi) :
  bits_per_word spi = 8 ->
  (forall i, 0 <= i -> i <> 16 -> i <> 8 -> i <> 15 ->
     Z.testbit (setup_mr (mode spi) (u32 (hw_mr (regs s)))) i
     = Z.testbit (u32 (hw_mr (regs s))) i)
  /\ Z.testbit (setup_mr (mode spi) (u32 (hw_mr (regs s)))) 16
     = Z.testbit (mode spi) 1
  /\ Z.testbit (setup_mr (mode spi) (u32 (hw_mr (regs s)))) 8
     = Z.testbit (mode spi) 0
  /\ Z.testbit (setup_mr (mode spi) (u32 (hw_mr (regs s)))) 15
     = Z.testbit (mode spi) 5
  /\ (forall p old,
        controller_state spi = Some p -> h !! p = Some old ->
        exists s',
          at91_usart_spi_setup alloc_succeeds spi h s
          = Ok ((0, spi,
                 <[p := setup_mr (mode spi) (u32 (hw_mr (regs s)))]> h), s')
          /\ dom (<[p := setup_mr (mode spi) (u32 (hw_mr (regs s)))]> h)
             = dom h
          /\ regs s' = regs s)
  /\ (controller_state spi = None -> alloc_succeeds = true ->
      exists s' p,
        h !! p = None
        /\ at91_usart_spi_setup alloc_succeeds spi h s
           = Ok ((0, with_controller_state spi (Some p),
                  <[p := setup_mr (mode spi) (u32 (hw_mr (regs s)))]> h),
                 s')
        /\ regs s' = regs s)
  /\ (controller_state spi = None -> alloc_succeeds = false ->
      exists s',
        at91_usart_spi_setup alloc_succeeds spi h s
        = Ok ((- ENOMEM, spi, h), s')
        /\ regs s' = regs s).
Proof.
  intros Hbits.
  pose proof (u32_range (hw_mr (regs s))) as Hlive.
  split; [| split; [| split; [| split]]].
  - intros i Hi H16 H8 H15. rewrite setup_mr_bits by assumption.
    destruct (Z.eqb_spec i 15); [contradiction |].
    destruct (Z.eqb_spec i 8); [contradiction |].
    destruct (Z.eqb_spec i 16); [contradiction |]. reflexivity.
  - now rewrite setup_mr_bits by (auto; lia).
  - now rewrite setup_mr_bits by (auto; lia).
  - now rewrite setup_mr_bits by (auto; lia).
  - destruct s as [ct rg lk iq txr rxr clk st xf jr].
    destruct spi as [bpw md cs cst]. cbn [bits_per_word mode regs] in *.
    subst bpw.
    split; [| split].
    + intros p old Hcs Hp. cbn [controller_state] in Hcs. subst cst.
      unfold at91_usart_spi_setup. exec. cbv [hw_readl].
      cbn [bits_per_word mode controller_state chip_select].
      change (negb (u8 8 =? 8)) with false. cbn iota. exec.
      rewrite Hp. exec. eexists. split; [reflexivity |].
      split; [| reflexivity].
      apply dom_insert_lookup_L. eauto.
    + intros Hcs ->. cbn [controller_state] in Hcs. subst cst.
      unfold at91_usart_spi_setup. exec. cbv [hw_readl].
      cbn [bits_per_word mode controller_state chip_select].
      change (negb (u8 8 =? 8)) with false. cbn iota. exec.
      unfold kzalloc. exec. eexists _, (fresh (dom h)).
      split; [apply not_elem_of_dom, is_fresh |].
      rewrite insert_insert_eq. split; reflexivity.
    + intros Hcs ->. cbn [controller_state] in Hcs. subst cst.
      unfold at91_usart_spi_setup. exec. cbv [hw_readl].
      cbn [bits_per_word mode controller_state chip_select].
      change (negb (u8 8 =? 8)) with false. cbn iota. exec.
      unfold kzalloc. exec. eexists. split; reflexivity.
Qed.

Lemma setup_mode_value_witness :
  exists s',
    at91_usart_spi_setup false peer_mode3 kmem_mode3 aus_attached
    = Ok ((0, peer_mode3, <[0%nat := 0x1501CE]> kmem_mode3), s').
Proof.
  destruct (setup_mode_value false peer_mode3 kmem_mode3 aus_attached
              eq_refl) as (_ & _ & _ & _ & Hagain & _).
  destruct (Hagain 0%nat 0x1501CE eq_refl eq_refl) as (s' & H & _).
  exists s'. exact H.
Defined.

(** ** The message bracket *)

(** C7: for every controller state and cached peer mode value, executing
    prepare_message immediately followed by unprepare_message, with no
    transfer in between, leaves the mode register equal to the peer's
    cached mode value and leaves the overrun and receive-ready interrupt
    sources disabled (they were enabled in between). *)
Theorem prepare_unprepare_message (s : at91_usart_spi) (spi : spi_device)
    (h : gmap nat Z) (p : nat) (v : Z) :
  controller_state spi = Some p -> h !! p = Some v -> 0 <= v < 2 ^ 32 ->
  exists s1 s2,
    at91_usart_spi_prepare_message spi h s = Ok (0, s1)
    /\ at91_usart_spi_unprepare_message s1 = Ok (0, s2)
    /\ hw_mr (regs s1) = v
    /\ Z.testbit (hw_imr (regs s1)) 5 = true
    /\ Z.testbit (hw_imr (regs s1)) 0 = true
    /\ hw_mr (regs s2) = v
    /\ Z.testbit (hw_imr (regs s2)) 5 = false
    /\ Z.testbit (hw_imr (regs s2)) 0 = false.
Proof.
  intros Hcs Hp Hv. destruct s as [ct rg lk iq txr rxr clk st xf jr].
  destruct rg as [cr mr imr csr rhr thr brgr ver].
  exec. rewrite Hcs, Hp. exec. cbv [hw_writel hw_cr hw_mr hw_imr hw_csr
    hw_rhr hw_thr hw_brgr hw_version].
  eexists _, _. split; [reflexivity |]. split; [reflexivity |].
  cbn [regs hw_mr hw_imr].
  rewrite (u32_small v) by assumption.
  change (u32 US_OVRE_RXRDY_IRQS) with (u32 (Z.lor US_IR_OVRE US_IR_RXRDY)).
  rewrite !idr_clears by lia. rewrite !Z.lor_spec.
  change (u32 (Z.lor US_IR_OVRE US_IR_RXRDY)) with 33.
  change (Z.testbit 33 5) with true. change (Z.testbit 33 0) with true.
  rewrite !orb_true_r. cbn. repeat split; reflexivity.
Qed.

Lemma prepare_unprepare_message_witness :
  exists s1 s2,
    at91_usart_spi_prepare_message peer_mode3 kmem_mode3 aus_attached
    = Ok (0, s1)
    /\ at91_usart_spi_unprepare_message s1 = Ok (0, s2)
    /\ hw_mr (regs s2) = 0x1501CE
    /\ Z.land (hw_imr (regs s2)) US_OVRE_RXRDY_IRQS = 0.
Proof.
  destruct (prepare_unprepare_message aus_attached peer_mode3 kmem_mode3
              0%nat 0x1501CE eq_refl eq_refl)
    as (s1 & s2 & H1 & H2 & _ & _ & _ & Hmr & _).
  - lia.
  - exists s1, s2. split; [exact H1 |]. split; [exact H2 |].
    split; [exact Hmr |].
    vm_compute in H1. injection H1 as <-.
    vm_compute in H2. injection H2 as <-. reflexivity.
Defined.

(** ** Runs of a transfer *)

(** Arming: the divider is programmed, the failure flag cleared, the
    transfer installed and both counters set to its length. *)
Lemma transfer_one_arm_spec xfer ct rg lk iq txr rxr clk st xf jr :
  u32 (speed_hz xfer) <> 0 ->
  transfer_one_arm xfer (mk_aus ct rg lk iq txr rxr clk st xf jr)
  = Ok (tt,
        mk_aus (Some xfer)
          (hw_writel US_BRGR
             (u32 (DIV_ROUND_UP 32 (u32 clk) (u32 (speed_hz xfer)))) rg)
          lk iq (u32 (len xfer)) (u32 (len xfer)) clk st false
          ((lk, Store FRxRemaining) :: (lk, Store FTxRemaining)
             :: (lk, Store FCurrentTransfer) :: (lk, Store FXferFailed)
             :: (lk, Writel US_BRGR
                       (u32 (DIV_ROUND_UP 32 (u32 clk)
                               (u32 (speed_hz xfer)))))
             :: jr)).
Proof.
  intros Hsp. destruct xfer as [tb rb ln sp]. cbn [speed_hz len] in *.
  exec. destruct (Z.eqb_spec (u32 sp) 0); [contradiction |]. reflexivity.
Qed.

Lemma transfer_one_arm_inv xfer s0 s1 :
  transfer_one_arm xfer s0 = Ok (tt, s1) ->
  current_transfer s1 = Some xfer
  /\ current_tx_remaining_bytes s1 = u32 (len xfer)
  /\ current_rx_remaining_bytes s1 = u32 (len xfer)
  /\ xfer_failed s1 = false
  /\ lock s1 = lock s0
  /\ hw_imr (regs s1) = hw_imr (regs s0)
  /\ hw_brgr (regs s1)
     = u32 (DIV_ROUND_UP 32 (u32 (spi_clk s0)) (u32 (speed_hz xfer))).
Proof.
  intros H. destruct s0 as [ct rg lk iq txr rxr clk st xf jr].
  destruct (Z.eq_dec (u32 (speed_hz xfer)) 0) as [E | E].
  - exfalso. destruct xfer as [tb rb ln sp]. cbn [speed_hz] in E.
    exec_in H. rewrite E in H. discriminate.
  - rewrite transfer_one_arm_spec in H by assumption.
    injection H as <-. destruct rg. repeat split; reflexivity.
Qed.

Lemma loop_condition_false s :
  loop_condition s = false ->
  xfer_failed s = true
  \/ (current_tx_remaining_bytes s = 0 /\ current_rx_remaining_bytes s = 0).
Proof.
  unfold loop_condition. intros H.
  destruct (xfer_failed s); [now left | right].
  rewrite andb_true_r in H. apply orb_false_elim in H as [Ht Hr].
  apply negb_false_iff in Ht, Hr. split; now apply Z.eqb_eq.
Qed.

Lemma loop_condition_true s :
  loop_condition s = true <->
  (current_tx_remaining_bytes s <> 0 \/ current_rx_remaining_bytes s <> 0)
  /\ xfer_failed s = false.
Proof.
  unfold loop_condition. rewrite andb_true_iff, orb_true_iff.
  rewrite !negb_true_iff, !Z.eqb_neq. tauto.
Qed.

Lemma bind_ok_inv {A B : Type} (m : M A) (k : A -> M B) s b s' :
  (m ≫= k) s = Ok (b, s') ->
  exists a s1, m s = Ok (a, s1) /\ k a s1 = Ok (b, s').
Proof.
  unfold mbind, M_bind. destruct (m s) as [[a s1] | f]; [| discriminate].
  eauto.
Qed.

Lemma run_cons e sched p s :
  run (e :: sched) p s
  = match on_event e p s with
    | Ok (p', s') => run sched p' s'
    | Fault f => Fault f
    end.
Proof.
  cbn [run]. unfold mbind, M_bind.
  destruct (on_event e p s) as [[] |]; reflexivity.
Qed.

Lemma run_app sched sched' p s :
  run (sched ++ sched') p s
  = match run sched p s with
    | Ok (p', s') => run sched' p' s'
    | Fault f => Fault f
    end.
Proof.
  revert p s. induction sched as [| e sched IH]; intros p s; [reflexivity |].
  rewrite <- app_comm_cons, !run_cons.
  destruct (on_event e p s) as [[p1 s1] |]; [apply IH | reflexivity].
Qed.

Lemma on_event_interrupt p s :
  on_event Interrupt p s
  = match at91_usart_spi_interrupt s with
    | Ok (_, s') => Ok (p, s')
    | Fault f => Fault f
    end.
Proof.
  cbn [on_event]. unfold mbind, M_bind.
  destruct (at91_usart_spi_interrupt s) as [[] |]; reflexivity.
Qed.

Lemma on_event_hardware csr rhr p ct rg lk iq txr rxr clk st xf jr :
  on_event (Hardware csr rhr) p (mk_aus ct rg lk iq txr rxr clk st xf jr)
  = Ok (p, mk_aus ct (hw_present csr rhr rg) lk iq txr rxr clk st xf jr).
Proof. reflexivity. Qed.

Lemma appended_refl s : appended s s [].
Proof. reflexivity. Qed.

Lemma appended_trans s1 s2 s3 es es' :
  appended s1 s2 es -> appended s2 s3 es' -> appended s1 s3 (es ++ es').
Proof.
  unfold appended. intros H H'. rewrite H', H, rev_app_distr.
  now rewrite app_assoc.
Qed.

Lemma steps_to_return_failed p s p' s' :
  xfer_failed s = true ->
  transfer_one_step p s = Ok (p', s') ->
  (steps_to_return p' <= pred (steps_to_return p))%nat.
Proof.
  intros Hf H. destruct p.
  - rewrite step_cond in H. injection H as <- _.
    replace (loop_condition s) with false; [cbn; lia |].
    unfold loop_condition. rewrite Hf. now rewrite andb_false_r.
  - destruct s. rewrite step_read_status in H. injection H as <- _.
    cbn; lia.
  - rewrite step_tx in H.
    destruct (at91_usart_spi_tx s) as [[[] ?] |]; [| discriminate].
    injection H as <- _. cbn; lia.
  - rewrite step_check in H. injection H as <- _. cbn; lia.
  - rewrite step_returned in H. injection H as <- _. cbn; lia.
Qed.

(** The driver never enables a source other than overrun and
    receive-ready: if none is enabled before an event, none is after. *)
Lemma on_event_imr e p s p' s' :
  lock s = false ->
  on_event e p s = Ok (p', s') ->
  Z.land (hw_imr (regs s)) (Z.lnot US_OVRE_RXRDY_IRQS) = 0 ->
  Z.land (hw_imr (regs s')) (Z.lnot US_OVRE_RXRDY_IRQS) = 0.
Proof.
  intros Hlock H Himr. destruct e as [| | csr rhr]; cbn [on_event] in H.
  - apply poll_frame in H as (_ & _ & _ & _ & Ei & _). now rewrite Ei.
  - unfold mbind, M_bind in H.
    destruct (at91_usart_spi_interrupt s) as [[r s1] |] eqn:Ei;
      [| discriminate].
    injection H as _ <-.
    destruct s as [ct rg lk iq txr rxr clk st xf jr].
    cbn [lock regs] in *. subst lk.
    apply interrupt_inv in Ei
      as [(_ & _ & ->) | [(_ & _ & _ & y & _ & _ & ->)
         | [(_ & _ & _ & y & i & _ & _ & _ & _ & ->) | (_ & _ & _ & ->)]]];
      cbn [regs]; try assumption.
    destruct rg as [cr mr imr csr rhr thr brgr ver].
    cbn [hw_writel hw_imr] in *.
    change (u32 (Z.lor US_IR_OVRE US_IR_RXRDY)) with US_OVRE_RXRDY_IRQS.
    now rewrite Himr.
  - destruct s as [ct rg lk iq txr rxr clk st xf jr].
    exec_in H. injection H as _ <-. destruct rg. exact Himr.
Qed.

(** One beat of the lock-step schedule: a byte goes out, its answer comes
    in, and both counters go down by one. *)
Lemma beat_run tb rb ln sp rg iq n clk st jr t b :
  0 < n <= ln -> ln <= INT_MAX ->
  Z.of_nat (length rb) = ln ->
  tb !! Z.to_nat (ln - n) = Some t ->
  exists rg' st' jr',
    run (beat b) AtCond
      (mk_aus (Some (mk_xfer tb rb ln sp)) rg false iq n n clk st false jr)
    = Ok (AtCond,
          mk_aus (Some (mk_xfer tb (<[Z.to_nat (ln - n) := b]> rb) ln sp))
            rg' false iq (n - 1) (n - 1) clk st' false jr')
    /\ hw_thr rg' = hw_thr rg ++ [t].
Proof.
  intros Hn Hmax Hrb Ht. unfold beat, INT_MAX in *.
  rewrite run_cons. cbn [on_event]. rewrite step_cond.
  replace (loop_condition _) with true.
  2: { symmetry. apply loop_condition_true. cbn. split; [left; lia | auto]. }
  rewrite run_cons, on_event_hardware.
  rewrite run_cons. cbn [on_event]. rewrite step_read_status.
  rewrite run_cons. cbn [on_event]. rewrite step_tx.
  rewrite (tx_sends _ _ _ _ _ _ _ _ _ _ _ _ _ t);
    [| destruct rg; reflexivity | lia | lia | exact Ht].
  cbn [current_transfer regs lock irq current_tx_remaining_bytes
       current_rx_remaining_bytes spi_clk status xfer_failed journal].
  rewrite run_cons, on_event_hardware.
  rewrite run_cons, on_event_interrupt.
  rewrite interrupt_rx;
    [| destruct rg; reflexivity | destruct rg; reflexivity | lia
     | unfold INT_MAX; lia | exact Hrb].
  destruct rg as [cr mr imr csr rhr thr brgr ver].
  cbn [run]. unfold mret, M_ret.
  cbv [received tx_buf rx_buf len speed_hz hw_present hw_writeb hw_rhr
       hw_csr hw_thr hw_cr hw_mr hw_imr hw_brgr hw_version].
  eexists _, _, _. split; reflexivity.
Qed.

Lemma lockstep_run rs :
  forall tb rb ln sp rg iq clk st jr,
    Z.of_nat (length rs) <= ln -> ln <= INT_MAX ->
    Z.of_nat (length tb) = ln -> Z.of_nat (length rb) = ln ->
    exists rg' st' jr',
      run (flat_map beat rs) AtCond
        (mk_aus (Some (mk_xfer tb rb ln sp)) rg false iq
           (Z.of_nat (length rs)) (Z.of_nat (length rs)) clk st false jr)
      = Ok (AtCond,
            mk_aus
              (Some (mk_xfer tb
                       (take (Z.to_nat (ln - Z.of_nat (length rs))) rb ++ rs)
                       ln sp))
              rg' false iq 0 0 clk st' false jr')
      /\ hw_thr rg'
         = hw_thr rg ++ drop (Z.to_nat (ln - Z.of_nat (length rs))) tb.
Proof.
  induction rs as [| b rs IH]; intros tb rb ln sp rg iq clk st jr
    Hn Hmax Htb Hrb.
  - exists rg, st, jr. cbn [flat_map run length Z.of_nat].
    rewrite Z.sub_0_r, take_ge, drop_ge, !app_nil_r by lia.
    split; reflexivity.
  - cbn [flat_map]. rewrite run_app.
    set (n := Z.of_nat (length (b :: rs))) in *.
    assert (Hn' : n = Z.of_nat (length rs) + 1) by (subst n; cbn; lia).
    destruct (lookup_lt_is_Some_2 tb (Z.to_nat (ln - n)) ltac:(lia))
      as [t Ht].
    destruct (beat_run tb rb ln sp rg iq n clk st jr t b
                ltac:(lia) Hmax Hrb Ht) as (rg1 & st1 & jr1 & -> & Hthr).
    replace (n - 1) with (Z.of_nat (length rs)) by lia.
    destruct (IH tb (<[Z.to_nat (ln - n) := b]> rb) ln sp rg1 iq clk st1 jr1
                ltac:(lia) Hmax Htb
                ltac:(rewrite length_insert; exact Hrb))
      as (rg' & st' & jr' & -> & Hthr').
    exists rg', st', jr'.
    replace (Z.to_nat (ln - Z.of_nat (length rs)))
      with (S (Z.to_nat (ln - n))) in * by lia.
    split.
    + do 4 f_equal.
      rewrite (take_S_r _ _ b)
        by (apply list_lookup_insert_eq; lia).
      rewrite take_insert_ge by lia.
      now rewrite <- app_assoc.
    + rewrite Hthr', Hthr, <- app_assoc. f_equal.
      symmetry. now apply drop_S.
Qed.

(** From here on [xfer] is a transfer as the framework hands it over. *)
Section InFlight.

Variable xfer : spi_transfer.
Hypothesis xfer_wf : xfer_ok xfer.

(** Whatever happens next keeps a transfer in flight in flight. *)
Lemma on_event_in_flight e p s p' s' :
  in_flight xfer p s ->
  on_event e p s = Ok (p', s') ->
  in_flight xfer p' s'.
Proof.
  intros [Hlock Hloop (x & Hct & Htb & Hln & Hrb) Htx Hrx] H.
  pose proof xfer_wf as [Hlen _ _ _].
  destruct e as [| | csr rhr].
  - (* the polling context *)
    cbn [on_event] in H.
    pose proof (poll_frame _ _ _ _ H)
      as (Er & Ef & Ec & El & _ & _ & _ & Hz & _).
    split; [congruence | | | | rewrite Er; exact Hrx].
    + destruct p.
      * rewrite step_cond in H. injection H as <- <-.
        destruct (loop_condition s) eqn:Hc; [exact I |].
        now apply loop_condition_false.
      * destruct s. rewrite step_read_status in H.
        injection H as <- _. exact I.
      * rewrite step_tx in H.
        destruct (at91_usart_spi_tx s) as [[[] ?] |]; [| discriminate].
        injection H as <- _. exact I.
      * rewrite step_check in H. injection H as <- <-.
        cbn [loop_invariant] in *.
        destruct (xfer_failed s); [now left | right].
        destruct Hloop as [? | ?]; [discriminate | auto].
      * rewrite step_returned in H. injection H as <- <-. exact Hloop.
    + exists x. rewrite Ec. auto.
    + destruct p.
      * rewrite step_cond in H. injection H as _ <-. exact Htx.
      * destruct s. rewrite step_read_status in H.
        injection H as _ <-. exact Htx.
      * rewrite step_tx in H.
        destruct (at91_usart_spi_tx s) as [[[] s1] |] eqn:Et;
          [| discriminate].
        injection H as _ <-.
        destruct s as [ct rg lk iq txr rxr clk st xf jr].
        apply tx_inv in Et as (y & _ & [[_ ->] | (Hnz & _ & b & _ & ->)]).
        -- exact Htx.
        -- cbn [current_tx_remaining_bytes] in *.
           rewrite u32_small by lia. lia.
      * rewrite step_check in H. injection H as _ <-. exact Htx.
      * rewrite step_returned in H. injection H as _ <-. exact Htx.
  - (* the interrupt handler *)
    cbn [on_event] in H. unfold mbind, M_bind in H.
    destruct (at91_usart_spi_interrupt s) as [[r s1] |] eqn:Ei;
      [| discriminate].
    injection H as <- <-.
    destruct s as [ct rg lk iq txr rxr clk st xf jr].
    cbn [lock current_transfer current_tx_remaining_bytes
         current_rx_remaining_bytes xfer_failed] in *. subst lk ct.
    apply interrupt_inv in Ei
      as [(_ & _ & ->) | [(_ & _ & _ & y & _ & _ & ->)
         | [(_ & _ & _ & y & i & Ey & Hnz & _ & _ & ->) | (_ & _ & _ & ->)]]].
    + split; cbn; auto.
      * destruct p; cbn in *; auto.
        destruct Hloop as [[? ?] | ?]; auto.
      * exists x. auto.
    + split; cbn; auto. exists x. auto.
    + injection Ey as <-.
      assert (rxr <> 0) by (intros ->; now apply Hnz).
      split; cbn [lock current_transfer current_tx_remaining_bytes
                  current_rx_remaining_bytes xfer_failed]; auto.
      * destruct p; cbn in *; auto.
        -- destruct Hloop as [? | [? ?]]; [auto | contradiction].
        -- destruct Hloop as [? | (? & ? & ?)]; [auto | contradiction].
      * eexists. split; [reflexivity |]. cbn [received tx_buf len rx_buf].
        rewrite length_insert. auto.
      * rewrite u32_small by lia. lia.
    + split; cbn; auto. exists x. auto.
  - (* the device *)
    cbn [on_event] in H. destruct s as [ct rg lk iq txr rxr clk st xf jr].
    exec_in H. injection H as <- <-.
    split; cbn in *; auto. exists x. auto.
Qed.

Lemma run_in_flight sched p s p' s' :
  in_flight xfer p s ->
  run sched p s = Ok (p', s') ->
  in_flight xfer p' s'.
Proof.
  revert p s.
  induction sched as [| e sched IH]; intros p s Hin H.
  - injection H as <- <-. exact Hin.
  - cbn [run] in H. unfold mbind, M_bind in H.
    destruct (on_event e p s) as [[p1 s1] |] eqn:E; [| discriminate].
    eapply IH; [| exact H].
    eapply on_event_in_flight; eauto.
Qed.

Lemma armed_in_flight s0 s1 :
  lock s0 = false ->
  transfer_one_arm xfer s0 = Ok (tt, s1) ->
  in_flight xfer AtCond s1.
Proof.
  intros Hlock H. pose proof xfer_wf as [Hlen Htb Hrb Hsp].
  apply transfer_one_arm_inv in H as (Hct & Htx & Hrx & _ & Hl & _).
  rewrite u32_small in Htx, Hrx by assumption.
  split; try (rewrite ?Htx, ?Hrx; lia); try congruence.
  - exact I.
  - exists xfer. auto.
Qed.

(** Every state the transfer can reach. *)
Lemma reachable_in_flight s0 sched p s :
  lock s0 = false ->
  (transfer_one_arm xfer;; run sched AtCond) s0 = Ok (p, s) ->
  in_flight xfer p s.
Proof.
  intros Hlock H.
  apply bind_ok_inv in H as ([] & s1 & Harm & Hrun).
  eapply run_in_flight; eauto using armed_in_flight.
Qed.

(** A step of the polling context never faults on a transfer in flight. *)
Lemma poll_total p s :
  in_flight xfer p s ->
  exists p' s', transfer_one_step p s = Ok (p', s').
Proof.
  intros [_ _ (x & Hct & Etb & Eln & _) Htx _].
  pose proof xfer_wf as [Hlen Htb _ _].
  destruct p.
  - rewrite step_cond. eauto.
  - destruct s. rewrite step_read_status. eauto.
  - rewrite step_tx.
    destruct s as [ct rg lk iq txr rxr clk st xf jr].
    destruct x as [tb rb ln sp].
    cbn [current_transfer current_tx_remaining_bytes tx_buf len] in *.
    subst ct tb ln.
    destruct (Z.eq_dec txr 0) as [-> | Hnz]; [rewrite tx_idle; eauto |].
    destruct (Z.testbit st 1) eqn:Hrdy; [| rewrite tx_busy; eauto].
    destruct (lookup_lt_is_Some_2 (tx_buf xfer)
                (Z.to_nat (len xfer - txr)) ltac:(lia)) as [b Hb].
    rewrite (tx_sends _ _ _ _ _ _ _ _ _ _ _ _ _ b); eauto; lia.
  - rewrite step_check. eauto.
  - rewrite step_returned. eauto.
Qed.

(** ** The driving loop *)

(** C1: for every transfer of length N, in every state the transfer can
    reach: the driving loop goes round again exactly while either
    remaining counter is nonzero and the failure flag is clear; each pass
    re-reads the status snapshot and then, if transmit-ready holds in the
    snapshot and transmit-remaining is nonzero, writes
    tx_buf[len - transmit-remaining] to the data-out register and
    decrements transmit-remaining (and otherwise sends nothing); on
    leaving the loop the outcome is normal completion (0) exactly when
    both counters are zero with the failure flag clear, and a
    transmission error (-EIO) exactly when the failure flag is set. *)
Theorem driving_loop (s0 : at91_usart_spi) (sched : list event) (p : pc)
    (s : at91_usart_spi) :
  lock s0 = false ->
  (transfer_one_arm xfer;; run sched AtCond) s0 = Ok (p, s) ->
  transfer_one_step AtCond s
  = Ok (if loop_condition s then AtReadStatus else AtCheck, s)
  /\ (loop_condition s = true <->
      (current_tx_remaining_bytes s <> 0
       \/ current_rx_remaining_bytes s <> 0)
      /\ xfer_failed s = false)
  /\ (exists s1,
        transfer_one_step AtReadStatus s = Ok (AtTx, s1)
        /\ status s1 = u32 (hw_csr (regs s))
        /\ hw_thr (regs s1) = hw_thr (regs s)
        /\ current_tx_remaining_bytes s1 = current_tx_remaining_bytes s)
  /\ (Z.testbit (status s) 1 = true ->
      current_tx_remaining_bytes s <> 0 ->
      exists b s1,
        tx_buf xfer !! Z.to_nat (len xfer - current_tx_remaining_bytes s)
        = Some b
        /\ transfer_one_step AtTx s = Ok (AtCond, s1)
        /\ hw_thr (regs s1) = hw_thr (regs s) ++ [b]
        /\ current_tx_remaining_bytes s1 = current_tx_remaining_bytes s - 1)
  /\ (Z.testbit (status s) 1 = false \/ current_tx_remaining_bytes s = 0 ->
      exists s1,
        transfer_one_step AtTx s = Ok (AtCond, s1)
        /\ hw_thr (regs s1) = hw_thr (regs s)
        /\ current_tx_remaining_bytes s1 = current_tx_remaining_bytes s)
  /\ (exists ret,
        transfer_one_step AtCheck s = Ok (Returned ret, s)
        /\ (ret = - EIO <-> xfer_failed s = true)
        /\ (p = AtCheck ->
            (ret = 0 <->
             current_tx_remaining_bytes s = 0
             /\ current_rx_remaining_bytes s = 0
             /\ xfer_failed s = false)))
  /\ (forall ret,
        p = Returned ret ->
        (ret = 0 /\ current_tx_remaining_bytes s = 0
         /\ current_rx_remaining_bytes s = 0)
        \/ (ret = - EIO /\ xfer_failed s = true)).
Proof.
  intros Hlock H.
  pose proof (reachable_in_flight _ _ _ _ Hlock H)
    as [_ Hloop (x & Hct & Etb & Eln & _) Htx _].
  pose proof xfer_wf as [Hlen Htb _ _].
  split; [apply step_cond |]. split; [apply loop_condition_true |].
  destruct s as [ct rg lk iq txr rxr clk st xf jr].
  destruct x as [tb rb ln sp].
  cbn [current_transfer current_tx_remaining_bytes
       current_rx_remaining_bytes xfer_failed status regs tx_buf len] in *.
  subst ct tb ln.
  split; [| split; [| split; [| split]]].
  - eexists. rewrite step_read_status. split; [reflexivity |].
    cbn [status regs current_tx_remaining_bytes].
    rewrite u32_idem. auto.
  - intros Hrdy Hnz.
    destruct (lookup_lt_is_Some_2 (tx_buf xfer)
                (Z.to_nat (len xfer - txr)) ltac:(lia)) as [b Hb].
    exists b. eexists. split; [exact Hb |].
    rewrite step_tx, (tx_sends _ _ _ _ _ _ _ _ _ _ _ _ _ b)
      by (auto; lia).
    split; [reflexivity |]. destruct rg. split; reflexivity.
  - intros Hidle. eexists. rewrite step_tx.
    destruct (Z.eq_dec txr 0) as [-> | Hnz].
    + rewrite tx_idle. repeat split; reflexivity.
    + destruct Hidle as [Hbusy | ?]; [| contradiction].
      rewrite tx_busy by assumption. repeat split; reflexivity.
  - eexists. rewrite step_check. split; [reflexivity |].
    cbn [xfer_failed]. unfold EIO. destruct xf.
    + split; [tauto |]. intros _.
      split; [discriminate | intros (_ & _ & ?); discriminate].
    + split; [split; discriminate |]. intros ->.
      cbn [loop_invariant xfer_failed current_tx_remaining_bytes
           current_rx_remaining_bytes] in Hloop.
      split; [intros _ | reflexivity].
      destruct Hloop as [? | [? ?]]; [discriminate | auto].
  - intros ret ->. cbn [loop_invariant] in Hloop. tauto.
Qed.

(** ** An exchange that completes *)

(** The receive step computes in [int]: from here on the length fits. *)
Hypothesis xfer_fits_int : len xfer <= INT_MAX.

(** The handler never faults on a transfer in flight whose length fits
    an [int]. *)
Lemma interrupt_total p s :
  in_flight xfer p s ->
  exists r s', at91_usart_spi_interrupt s = Ok (r, s').
Proof.
  intros [Hlock _ (x & Hct & _ & Eln & Erb) _ Hrx].
  pose proof xfer_wf as [Hlen _ Hrb _]. pose proof xfer_fits_int as Hmax.
  destruct s as [ct rg lk iq txr rxr clk st xf jr].
  destruct x as [tb rb ln sp].
  cbn [lock current_transfer current_rx_remaining_bytes len rx_buf] in *.
  subst lk ct ln.
  destruct (Z.testbit (hw_csr rg) 5) eqn:Hov;
    [rewrite interrupt_overrun; eauto |].
  destruct (Z.testbit (hw_csr rg) 0) eqn:Hrdy;
    [| rewrite interrupt_none; eauto].
  destruct (Z.eq_dec rxr 0) as [-> | Hnz];
    [rewrite interrupt_rx_idle; eauto |].
  rewrite interrupt_rx; eauto; lia.
Qed.

Lemma run_total sched :
  forall p s,
    in_flight xfer p s ->
    exists p' s', run sched p s = Ok (p', s') /\ in_flight xfer p' s'.
Proof.
  induction sched as [| e sched IH]; intros p s Hin.
  - exists p, s. split; [reflexivity | exact Hin].
  - assert (E : exists p1 s1, on_event e p s = Ok (p1, s1)).
    { destruct e as [| | csr rhr].
      - now apply poll_total.
      - rewrite on_event_interrupt.
        destruct (interrupt_total p s Hin) as (r & s1 & ->).
        eauto.
      - destruct s. rewrite on_event_hardware. eauto. }
    destruct E as (p1 & s1 & E). rewrite run_cons, E.
    apply IH. eapply on_event_in_flight; eauto.
Qed.

(** X2: for every well-formed transfer of at most 2^31 - 1 bytes, when
    the peer answers every byte in lock-step and no overrun occurs,
    [transfer_one] returns 0 with both counters at zero, every byte of
    the transmit buffer written to the data-out register in order, and
    the receive buffer holding exactly the peer's answers in order. *)
Theorem lockstep_completes (s0 : at91_usart_spi) (rs : list byte) :
  lock s0 = false ->
  Z.of_nat (length rs) = len xfer ->
  exists s,
    at91_usart_spi_transfer_one xfer (lockstep rs) s0 = Ok (Some 0, s)
    /\ current_transfer s
       = Some (mk_xfer (tx_buf xfer) rs (len xfer) (speed_hz xfer))
    /\ hw_thr (regs s) = hw_thr (regs s0) ++ tx_buf xfer
    /\ current_tx_remaining_bytes s = 0
    /\ current_rx_remaining_bytes s = 0
    /\ xfer_failed s = false.
Proof.
  intros Hlock Hrs. pose proof xfer_wf as [Hlen Htb Hrb Hsp].
  pose proof xfer_fits_int as Hmax. revert Hlen Htb Hrb Hsp Hmax Hrs.
  clear xfer_wf xfer_fits_int. intros Hlen Htb Hrb Hsp Hmax Hrs.
  destruct s0 as [ct rg lk iq txr rxr clk st xf jr]. cbn [lock] in Hlock.
  subst lk. destruct xfer as [tb rb ln sp].
  cbn [len tx_buf rx_buf speed_hz] in *.
  unfold at91_usart_spi_transfer_one, lockstep.
  unfold mbind at 1. unfold M_bind at 1.
  rewrite transfer_one_arm_spec by (cbn [speed_hz]; rewrite u32_small; lia).
  cbn [len speed_hz]. rewrite (u32_small ln) by lia.
  unfold mbind, M_bind. rewrite run_app.
  symmetry in Hrs. rewrite Hrs in *. clear Hrs.
  edestruct (lockstep_run rs tb rb (Z.of_nat (length rs)) sp)
    as (rg' & st' & jr' & -> & Hthr);
    [lia | exact Hmax | exact Htb | exact Hrb |].
  rewrite run_cons. cbn [on_event]. rewrite step_cond.
  cbn [loop_condition current_tx_remaining_bytes current_rx_remaining_bytes
       xfer_failed Z.eqb negb orb andb].
  rewrite run_cons. cbn [on_event]. rewrite step_check.
  cbn [xfer_failed run]. unfold mret, M_ret. cbn [returned].
  eexists. split; [reflexivity |].
  cbn [current_transfer regs current_tx_remaining_bytes
       current_rx_remaining_bytes xfer_failed].
  rewrite Hthr. rewrite Z.sub_diag. cbn [Z.to_nat take drop app].
  destruct rg. repeat split; reflexivity.
Qed.

End InFlight.

(** ** What one event does to the cursor and to the device *)

(** Every successful step of the polling context is one of six. *)
Lemma poll_inv p ct rg lk iq txr rxr clk st xf jr p' s' :
  transfer_one_step p (mk_aus ct rg lk iq txr rxr clk st xf jr)
  = Ok (p', s') ->
  (p = AtCond
   /\ p' = (if loop_condition (mk_aus ct rg lk iq txr rxr clk st xf jr)
            then AtReadStatus else AtCheck)
   /\ s' = mk_aus ct rg lk iq txr rxr clk st xf jr)
  \/ (p = AtReadStatus /\ p' = AtTx
      /\ s' = mk_aus ct rg lk iq txr rxr clk (u32 (u32 (hw_csr rg))) xf
                ((lk, Store FStatus) :: (lk, Readl US_CSR (u32 (hw_csr rg)))
                   :: jr))
  \/ (p = AtTx /\ p' = AtCond
      /\ (txr = 0 \/ Z.testbit st 1 = false)
      /\ s' = mk_aus ct rg lk iq txr rxr clk st xf ((lk, CpuRelax) :: jr))
  \/ (p = AtTx /\ p' = AtCond
      /\ txr <> 0 /\ Z.testbit st 1 = true
      /\ exists x b,
           ct = Some x
           /\ tx_buf x !! Z.to_nat (u32 (u32 (len x) - txr)) = Some b
           /\ s' = mk_aus ct (hw_writeb US_THR b rg) lk iq (u32 (txr - 1))
                     rxr clk st xf
                     ((lk, CpuRelax) :: (lk, Store FTxRemaining)
                        :: (lk, Writeb US_THR b) :: jr))
  \/ (p = AtCheck /\ p' = Returned (if xf then - EIO else 0)
      /\ s' = mk_aus ct rg lk iq txr rxr clk st xf jr)
  \/ (exists ret,
        p = Returned ret /\ p' = Returned ret
        /\ s' = mk_aus ct rg lk iq txr rxr clk st xf jr).
Proof.
  intros H. destruct p.
  - rewrite step_cond in H. injection H as <- <-. left. auto.
  - rewrite step_read_status in H. injection H as <- <-. right. left. auto.
  - rewrite step_tx in H.
    destruct (at91_usart_spi_tx _) as [[[] s1] | f] eqn:Htx; [| discriminate].
    injection H as <- <-.
    apply tx_inv in Htx as (x & -> & [[Hidle ->] | (Hnz & Hrdy & b & Hb & ->)]).
    + right. right. left. auto.
    + right. right. right. left.
      split; [reflexivity |]. split; [reflexivity |].
      split; [assumption |]. split; [assumption |].
      exists x, b. auto.
  - rewrite step_check in H. injection H as <- <-.
    right. right. right. right. left. auto.
  - rewrite step_returned in H. injection H as <- <-.
    right. right. right. right. right. eauto.
Qed.

Section Streams.

Variable xfer : spi_transfer.
Hypothesis xfer_wf : xfer_ok xfer.


(** While no interrupt source is enabled and bytes are outstanding on the
    receive side, an admissible event keeps the polling context inside
    its loop. *)
Lemma on_event_masked e p s :
  in_flight xfer p s ->
  xfer_failed s = false -> hw_imr (regs s) = 0 ->
  current_rx_remaining_bytes s = len xfer -> 0 < len xfer ->
  (forall ret, p <> Returned ret) -> p <> AtCheck ->
  admissible [e] p s = true ->
  exists p' s',
    on_event e p s = Ok (p', s')
    /\ xfer_failed s' = false /\ hw_imr (regs s') = 0
    /\ current_rx_remaining_bytes s' = len xfer
    /\ current_transfer s' = current_transfer s
    /\ (forall ret, p' <> Returned ret) /\ p' <> AtCheck.
Proof.
  intros Hin Hf Himr Hrx Hlen Hret Hchk Hadm.
  cbn [admissible] in Hadm. apply andb_true_iff in Hadm as [Hirq _].
  destruct e as [| | csr rhr].
  - destruct (poll_total xfer xfer_wf p s Hin) as (p' & s' & E).
    exists p', s'. cbn [on_event]. split; [exact E |].
    pose proof (poll_frame _ _ _ _ E) as (Er & Ef & Ec & _ & Ei & _).
    split; [congruence |]. split; [congruence |]. split; [congruence |].
    split; [exact Ec |].
    destruct s as [ct rg lk iq txr rxr clk st xf jr].
    cbn [xfer_failed current_rx_remaining_bytes] in *.
    apply poll_inv in E
      as [(_ & -> & _) | [(_ & -> & _) | [(_ & -> & _)
         | [(_ & -> & _) | [(-> & _) | (ret & -> & _)]]]]];
      try (split; [intros ret'; discriminate | discriminate]).
    + replace (loop_condition _) with true;
        [split; [intros ret'; discriminate | discriminate] |].
      symmetry. apply loop_condition_true.
      cbn [current_tx_remaining_bytes current_rx_remaining_bytes xfer_failed].
      split; [right; lia | assumption].
    + contradiction.
    + now destruct (Hret ret).
  - exfalso. unfold irq_pending in Hirq. rewrite Himr in Hirq.
    rewrite Z.land_0_r in Hirq. discriminate.
  - destruct s as [ct rg lk iq txr rxr clk st xf jr].
    rewrite on_event_hardware. eexists _, _. split; [reflexivity |].
    destruct rg. cbn in *. repeat split; auto.
Qed.

(** X5: for every well-formed transfer of nonzero length started while no
    interrupt source of the device is enabled (outside the bracket of
    prepare_message and unprepare_message, or after an overrun has masked
    the two receive sources), and with the handler running only while the
    interrupt line is raised: whatever the schedule, [transfer_one] has
    not returned at its end; the receive counter still stands at len and
    the receive buffer is untouched. *)
Theorem masked_transfer_spins (s0 s1 : at91_usart_spi)
    (sched : list event) :
  lock s0 = false -> hw_imr (regs s0) = 0 -> 0 < len xfer ->
  transfer_one_arm xfer s0 = Ok (tt, s1) ->
  admissible sched AtCond s1 = true ->
  exists s,
    at91_usart_spi_transfer_one xfer sched s0 = Ok (None, s)
    /\ current_rx_remaining_bytes s = len xfer
    /\ current_transfer s = Some xfer
    /\ xfer_failed s = false.
Proof.
  intros Hlock Himr Hlen Harm Hadm.
  pose proof xfer_wf as [Hl _ _ _].
  pose proof (armed_in_flight xfer xfer_wf _ _ Hlock Harm) as Hin.
  pose proof (transfer_one_arm_inv _ _ _ Harm)
    as (Hct & _ & Hrx & Hf & _ & Ei & _).
  rewrite u32_small in Hrx by assumption. rewrite Himr in Ei.
  unfold at91_usart_spi_transfer_one.
  unfold mbind at 1. unfold M_bind at 1. rewrite Harm.
  assert (Hgo : forall sch p s,
             in_flight xfer p s ->
             xfer_failed s = false -> hw_imr (regs s) = 0 ->
             current_rx_remaining_bytes s = len xfer ->
             (forall ret, p <> Returned ret) -> p <> AtCheck ->
             admissible sch p s = true ->
             exists p' s',
               run sch p s = Ok (p', s')
               /\ xfer_failed s' = false
               /\ current_rx_remaining_bytes s' = len xfer
               /\ current_transfer s' = current_transfer s
               /\ (forall ret, p' <> Returned ret)).
  { induction sch as [| e sch IH]; intros p s Hi Hxf Hm Hr Hnr Hnc Ha.
    - exists p, s. split; [reflexivity |]. auto.
    - assert (Ha1 : admissible [e] p s = true).
      { cbn [admissible] in *. apply andb_true_iff in Ha as [Ha _].
        rewrite Ha. destruct (on_event e p s) as [[] |]; reflexivity. }
      destruct (on_event_masked e p s Hi Hxf Hm Hr Hlen Hnr Hnc Ha1)
        as (p1 & s1' & E & Hxf1 & Hm1 & Hr1 & Hc1 & Hnr1 & Hnc1).
      cbn [admissible] in Ha. rewrite E in Ha.
      apply andb_true_iff in Ha as [_ Ha].
      destruct (IH p1 s1') as (p2 & s2 & Hrun & Hxf2 & Hr2 & Hc2 & Hnr2);
        auto.
      { eapply on_event_in_flight; eauto. }
      exists p2, s2. rewrite run_cons, E.
      split; [exact Hrun |]. repeat split; auto. congruence. }
  destruct (Hgo sched AtCond s1 Hin Hf Ei Hrx)
    as (p & s & Hrun & Hxf & Hr & Hc & Hnr); auto; try discriminate.
  exists s. unfold mbind, M_bind. rewrite Hrun.
  split.
  - destruct p; try reflexivity. now destruct (Hnr ret).
  - repeat split; auto. congruence.
Qed.

(** X9: for every well-formed transfer, from any state it can reach and
    whatever happens next: neither counter ever goes up, the transmit
    counter goes down by at most one per step of the polling context and
    the receive counter by at most one per run of the handler, and a
    failure flag that is set stays set (only the arming of the next
    transfer clears it). *)
Theorem cursor_never_goes_back (s0 : at91_usart_spi)
    (pre post : list event) (p1 p2 : pc) (s1 s2 : at91_usart_spi) :
  lock s0 = false ->
  (transfer_one_arm xfer;; run pre AtCond) s0 = Ok (p1, s1) ->
  run post p1 s1 = Ok (p2, s2) ->
  0 <= current_tx_remaining_bytes s2 <= current_tx_remaining_bytes s1
  /\ 0 <= current_rx_remaining_bytes s2 <= current_rx_remaining_bytes s1
  /\ current_tx_remaining_bytes s1 - current_tx_remaining_bytes s2
     <= Z.of_nat (polls post)
  /\ current_rx_remaining_bytes s1 - current_rx_remaining_bytes s2
     <= Z.of_nat (handler_runs post)
  /\ (xfer_failed s1 = true -> xfer_failed s2 = true).
Proof.
  intros Hlock Hpre.
  pose proof (reachable_in_flight xfer xfer_wf _ _ _ _ Hlock Hpre) as Hin.
  clear Hpre. revert p1 s1 Hin.
  induction post as [| e post IH]; intros p1 s1 Hin H.
  - injection H as _ <-.
    pose proof (fl_tx _ _ _ Hin). pose proof (fl_rx _ _ _ Hin).
    cbn [polls handler_runs]. repeat split; auto; lia.
  - rewrite run_cons in H.
    destruct (on_event e p1 s1) as [[pm sm] |] eqn:E; [| discriminate].
    pose proof (on_event_in_flight xfer xfer_wf _ _ _ _ _ Hin E) as Hinm.
    destruct (IH pm sm Hinm H) as (Ht & Hr & Htn & Hrn & Hf).
    assert (Hstep : current_tx_remaining_bytes sm
                    <= current_tx_remaining_bytes s1
                    /\ current_rx_remaining_bytes sm
                       <= current_rx_remaining_bytes s1
                    /\ current_tx_remaining_bytes s1
                       - current_tx_remaining_bytes sm
                       <= Z.of_nat (polls [e])
                    /\ current_rx_remaining_bytes s1
                       - current_rx_remaining_bytes sm
                       <= Z.of_nat (handler_runs [e])
                    /\ (xfer_failed s1 = true -> xfer_failed sm = true)).
    { pose proof xfer_wf as [Hlen _ _ _].
      destruct Hin as [Hl _ _ Htx Hrx].
      destruct s1 as [ct rg lk iq txr rxr clk st xf jr].
      cbn [lock current_tx_remaining_bytes current_rx_remaining_bytes
           xfer_failed] in *. subst lk.
      destruct e as [| | csr rhr]; cbn [polls handler_runs].
      - cbn [on_event] in E.
        apply poll_inv in E
          as [(_ & _ & ->) | [(_ & _ & ->) | [(_ & _ & _ & ->)
             | [(_ & _ & Hnz & _ & y & b & _ & _ & ->)
             | [(_ & _ & ->) | (ret & _ & _ & ->)]]]]];
          cbn [current_tx_remaining_bytes current_rx_remaining_bytes
               xfer_failed]; try (repeat split; auto; lia).
        rewrite u32_small by lia. repeat split; auto; lia.
      - rewrite on_event_interrupt in E.
        destruct (at91_usart_spi_interrupt _) as [[r s'] |] eqn:Ei;
          [| discriminate].
        injection E as _ <-.
        apply interrupt_inv in Ei
          as [(_ & _ & ->) | [(_ & _ & _ & y & _ & _ & ->)
             | [(_ & _ & _ & y & i & _ & Hnz & _ & _ & ->)
             | (_ & _ & _ & ->)]]];
          cbn [current_tx_remaining_bytes current_rx_remaining_bytes
               xfer_failed]; try (repeat split; auto; lia).
        assert (rxr <> 0) by (intros ->; now apply Hnz).
        rewrite u32_small by lia. repeat split; auto; lia.
      - rewrite on_event_hardware in E. injection E as _ <-.
        cbn. repeat split; auto; lia. }
    destruct Hstep as (Ht1 & Hr1 & Htn1 & Hrn1 & Hf1).
    assert (Hp : polls (e :: post) = (polls [e] + polls post)%nat)
      by (destruct e; reflexivity).
    assert (Hh : handler_runs (e :: post)
                 = (handler_runs [e] + handler_runs post)%nat)
      by (destruct e; reflexivity).
    rewrite Hp, Hh. repeat split; auto; lia.
Qed.

(** The receive step computes in [int]: from here on the length fits. *)
Hypothesis xfer_fits_int : len xfer <= INT_MAX.

(** The receive buffer holds, up to the cursor, the bytes read from the
    receive-holding register since [sa], and beyond the cursor what it
    held at the start; an event keeps it so. *)
Lemma on_event_received sa es e p s p' s' :
  in_flight xfer p s ->
  appended sa s es ->
  (exists x,
     current_transfer s = Some x
     /\ rx_buf x
        = rhr_reads es
          ++ drop (Z.to_nat (len xfer - current_rx_remaining_bytes s))
               (rx_buf xfer)) ->
  Z.of_nat (length (rhr_reads es)) = len xfer - current_rx_remaining_bytes s ->
  on_event e p s = Ok (p', s') ->
  exists es',
    appended sa s' es'
    /\ (exists x,
          current_transfer s' = Some x
          /\ rx_buf x
             = rhr_reads es'
               ++ drop (Z.to_nat (len xfer - current_rx_remaining_bytes s'))
                    (rx_buf xfer))
    /\ Z.of_nat (length (rhr_reads es'))
       = len xfer - current_rx_remaining_bytes s'.
Proof.
  intros [Hlock _ (x0 & Hct0 & _ & Eln & Erb) _ Hrx] Ha (x & Hct & Hbuf) Hn H.
  pose proof xfer_wf as [Hlen _ Hrb _]. pose proof xfer_fits_int as Hmax.
  rewrite Hct in Hct0. injection Hct0 as <-.
  destruct s as [ct rg lk iq txr rxr clk st xf jr].
  cbn [lock current_transfer current_rx_remaining_bytes regs] in *.
  subst lk ct.
  destruct e as [| | csr rhr].
  - cbn [on_event] in H.
    apply poll_inv in H
      as [(_ & _ & ->) | [(_ & _ & ->) | [(_ & _ & _ & ->)
         | [(_ & _ & _ & _ & y & b & _ & _ & ->)
         | [(_ & _ & ->) | (ret & _ & _ & ->)]]]]].
    + exists es. eauto.
    + exists (es ++ [(false, Readl US_CSR (u32 (hw_csr rg)));
                     (false, Store FStatus)]).
      split; [eapply appended_trans; [exact Ha | reflexivity] |].
      unfold rhr_reads in *. rewrite omap_app. cbn [omap fmap].
      cbn. rewrite app_nil_r. eauto.
    + exists (es ++ [(false, CpuRelax)]).
      split; [eapply appended_trans; [exact Ha | reflexivity] |].
      unfold rhr_reads in *. rewrite omap_app.
      cbn. rewrite app_nil_r. eauto.
    + exists (es ++ [(false, Writeb US_THR b); (false, Store FTxRemaining);
                     (false, CpuRelax)]).
      split; [eapply appended_trans; [exact Ha | reflexivity] |].
      unfold rhr_reads in *. rewrite omap_app.
      cbn. rewrite app_nil_r. eauto.
    + exists es. eauto.
    + exists es. eauto.
  - rewrite on_event_interrupt in H.
    destruct (at91_usart_spi_interrupt _) as [[r s1] |] eqn:Ei;
      [| discriminate].
    injection H as _ <-.
    apply interrupt_inv in Ei
      as [(_ & _ & ->) | [(_ & _ & _ & y & _ & _ & ->)
         | [(_ & _ & _ & y & i & Ey & Hnz & Ei & _ & ->) | (_ & _ & _ & ->)]]].
    + exists (es ++ journal_overrun (u32 (hw_csr rg))).
      split; [eapply appended_trans; [exact Ha | reflexivity] |].
      unfold rhr_reads in *. rewrite omap_app.
      cbn. rewrite app_nil_r. eauto.
    + exists (es ++ journal_idle (u32 (hw_csr rg))).
      split; [eapply appended_trans; [exact Ha | reflexivity] |].
      unfold rhr_reads in *. rewrite omap_app.
      cbn. rewrite app_nil_r. eauto.
    + injection Ey as <-.
      assert (Hr0 : rxr <> 0) by (intros ->; now apply Hnz).
      rewrite Eln in Ei.
      rewrite (s32_small (len xfer)), (s32_small rxr) in Ei
        by (unfold INT_MAX in *; lia).
      rewrite (s32_small (len xfer - rxr)) in Ei by (unfold INT_MAX in *; lia).
      rewrite pointer_offset_small in Ei by (unfold INT_MAX in *; lia).
      subst i.
      exists (es ++ journal_rx (u32 (hw_csr rg)) (hw_rhr rg) (len xfer - rxr)).
      split; [eapply appended_trans; [exact Ha | reflexivity] |].
      cbn [current_transfer current_rx_remaining_bytes].
      rewrite (u32_small (rxr - 1)) by lia.
      assert (Hreads : rhr_reads
                         (es ++ journal_rx (u32 (hw_csr rg)) (hw_rhr rg)
                                  (len xfer - rxr))
                       = rhr_reads es ++ [hw_rhr rg]).
      { unfold rhr_reads. rewrite omap_app. reflexivity. }
      rewrite Hreads. split.
      * eexists. split; [reflexivity |].
        cbn [received rx_buf]. rewrite Hbuf.
        rewrite insert_app_r_alt by lia.
        replace (Z.to_nat (len xfer - rxr) - length (rhr_reads es))%nat
          with 0%nat by lia.
        destruct (lookup_lt_is_Some_2 (rx_buf xfer)
                    (Z.to_nat (len xfer - rxr)) ltac:(lia)) as [old Hold].
        rewrite (drop_S _ old _ Hold). cbn [insert list_insert].
        rewrite <- app_assoc. cbn [app].
        replace (Z.to_nat (len xfer - (rxr - 1)))
          with (S (Z.to_nat (len xfer - rxr))) by lia.
        reflexivity.
      * rewrite length_app. cbn [length]. lia.
    + exists (es ++ journal_idle (u32 (hw_csr rg))).
      split; [eapply appended_trans; [exact Ha | reflexivity] |].
      unfold rhr_reads in *. rewrite omap_app.
      cbn. rewrite app_nil_r. eauto.
  - rewrite on_event_hardware in H. injection H as _ <-.
    exists es. eauto.
Qed.

End Streams.

(** ** The two contexts and the data they touch *)

(** X8: once a transfer is armed, the interrupt handler and the driving
    loop act on disjoint parts of the device and of the private
    structure, the status snapshot excepted: every action of a handler
    run is one of taking or releasing the lock, reading the status,
    reading the data-in register, writing the interrupt-disable register
    and storing to the status snapshot, the failure flag, the receive
    counter or the receive buffer; every action of a step of the loop is
    one of reading the status, writing the data-out register, relaxing and
    storing to the status snapshot or the transmit counter; the only
    actions common to both are the status read and the store to the
    status snapshot. *)
Theorem contexts_share_only_status (s : at91_usart_spi) :
  (forall r s',
     lock s = false ->
     at91_usart_spi_interrupt s = Ok (r, s') ->
     exists es,
       appended s s' es
       /\ forallb (λ e : entry, handler_action e.2) es = true)
  /\ (forall p p' s',
        transfer_one_step p s = Ok (p', s') ->
        exists es,
          appended s s' es
          /\ forallb (λ e : entry, loop_action e.2) es = true)
  /\ (forall a,
        handler_action a = true -> loop_action a = true ->
        a = Store FStatus \/ exists v, a = Readl US_CSR v).
Proof.
  destruct s as [ct rg lk iq txr rxr clk st xf jr].
  split; [| split].
  - intros r s' Hlock H. cbn [lock] in Hlock. subst lk.
    apply interrupt_inv in H
      as [(_ & _ & ->) | [(_ & _ & _ & x & _ & _ & ->)
         | [(_ & _ & _ & x & i & _ & _ & _ & _ & ->) | (_ & _ & _ & ->)]]];
      eexists; (split; [reflexivity | reflexivity]).
  - intros p p' s' H.
    apply poll_inv in H
      as [(_ & _ & ->) | [(_ & _ & ->) | [(_ & _ & _ & ->)
         | [(_ & _ & _ & _ & y & b & _ & _ & ->)
         | [(_ & _ & ->) | (ret & _ & _ & ->)]]]]].
    + exists []. split; reflexivity.
    + exists [(lk, Readl US_CSR (u32 (hw_csr rg))); (lk, Store FStatus)].
      split; reflexivity.
    + exists [(lk, CpuRelax)]. split; reflexivity.
    + exists [(lk, Writeb US_THR b); (lk, Store FTxRemaining);
              (lk, CpuRelax)].
      split; reflexivity.
    + exists []. split; reflexivity.
    + exists []. split; reflexivity.
  - intros a Hh Hl.
    destruct a as [r v | r v | r b | r b | | | | f]; try discriminate.
    + destruct r; try discriminate. right. eauto.
    + destruct f; try discriminate. now left.
Qed.

(** ** Edge cases of a transfer *)

(** With nothing to send or receive and the failure flag clear, the
    polling context walks from the loop condition to [return 0] and
    stays there, touching nothing, as long as the handler does not run. *)
Lemma run_nothing_to_do sched :
  forall p ct rg lk iq clk st jr,
    Forall (λ e : event, e <> Interrupt) sched ->
    p = AtCond \/ p = AtCheck \/ p = Returned 0 ->
    exists p' rg',
      run sched p (mk_aus ct rg lk iq 0 0 clk st false jr)
      = Ok (p', mk_aus ct rg' lk iq 0 0 clk st false jr)
      /\ hw_thr rg' = hw_thr rg /\ hw_brgr rg' = hw_brgr rg
      /\ hw_mr rg' = hw_mr rg /\ hw_imr rg' = hw_imr rg
      /\ (p' = AtCond \/ p' = AtCheck \/ p' = Returned 0)
      /\ (steps_to_return p' <= steps_to_return p - polls sched)%nat.
Proof.
  induction sched as [| e sched IH]; intros p ct rg lk iq clk st jr Hni Hp.
  - exists p, rg. split; [reflexivity |]. repeat split; auto. cbn. lia.
  - apply Forall_cons in Hni as [Hne Hni].
    destruct e as [| | csr rhr]; [| contradiction |].
    + rewrite run_cons. cbn [on_event].
      destruct Hp as [-> | [-> | ->]].
      * rewrite step_cond.
        cbn [loop_condition current_tx_remaining_bytes
             current_rx_remaining_bytes xfer_failed Z.eqb negb orb andb].
        destruct (IH AtCheck ct rg lk iq clk st jr Hni) as
          (p' & rg' & -> & Hthr & Hb & Hm & Hi & Hp' & Hn); auto.
        exists p', rg'. split; [reflexivity |]. repeat split; auto.
      * rewrite step_check. cbn [xfer_failed].
        destruct (IH (Returned 0) ct rg lk iq clk st jr Hni) as
          (p' & rg' & -> & Hthr & Hb & Hm & Hi & Hp' & Hn); auto.
        exists p', rg'. split; [reflexivity |]. repeat split; auto.
      * rewrite step_returned.
        destruct (IH (Returned 0) ct rg lk iq clk st jr Hni) as
          (p' & rg' & -> & Hthr & Hb & Hm & Hi & Hp' & Hn); auto.
        exists p', rg'. split; [reflexivity |]. repeat split; auto.
    + rewrite run_cons, on_event_hardware.
      destruct (IH p ct (hw_present csr rhr rg) lk iq clk st jr Hni Hp) as
        (p' & rg' & -> & Hthr & Hb & Hm & Hi & Hp' & Hn).
      exists p', rg'. split; [reflexivity |].
      destruct rg as [cr mr imr cs rh thr brgr ver].
      cbn [hw_present hw_thr hw_brgr hw_mr hw_imr] in *.
      repeat split; auto.
Qed.

(** X6: for every transfer of length 0 with a nonzero speed, whatever its
    buffers (they may be missing altogether) and whatever the state of
    the controller, [transfer_one] programs the divider, never enters its
    loop and returns 0 with the second step of the polling context, as
    long as the handler does not run in between: the status register is
    never read, nothing is written to the data-out register, and the
    journal holds the five actions of arming and nothing else. *)
Theorem empty_transfer (xfer : spi_transfer) (s0 : at91_usart_spi)
    (sched : list event) :
  u32 (len xfer) = 0 -> u32 (speed_hz xfer) <> 0 ->
  Forall (λ e : event, e <> Interrupt) sched -> (2 <= polls sched)%nat ->
  exists s,
    at91_usart_spi_transfer_one xfer sched s0 = Ok (Some 0, s)
    /\ appended s0 s
         (journal_arm (lock s0)
            (u32 (DIV_ROUND_UP 32 (u32 (spi_clk s0)) (u32 (speed_hz xfer)))))
    /\ hw_thr (regs s) = hw_thr (regs s0)
    /\ hw_brgr (regs s)
       = u32 (DIV_ROUND_UP 32 (u32 (spi_clk s0)) (u32 (speed_hz xfer)))
    /\ current_transfer s = Some xfer.
Proof.
  intros Hlen Hsp Hni Hpolls.
  destruct s0 as [ct rg lk iq txr rxr clk st xf jr].
  unfold at91_usart_spi_transfer_one.
  unfold mbind at 1. unfold M_bind at 1.
  rewrite transfer_one_arm_spec by assumption. rewrite Hlen.
  edestruct (run_nothing_to_do sched AtCond) as
    (p' & rg' & Hrun & Hthr & Hb & _ & _ & Hp' & Hn);
    [exact Hni | now left |].
  unfold mbind, M_bind. rewrite Hrun.
  assert (p' = Returned 0) as ->.
  { cbn [steps_to_return] in Hn.
    destruct Hp' as [-> | [-> | ->]]; cbn in Hn; try lia. reflexivity. }
  eexists. split; [reflexivity |].
  cbn [regs lock spi_clk current_transfer].
  split; [reflexivity |]. rewrite Hthr, Hb.
  destruct rg. repeat split; reflexivity.
Qed.

(** X7: on a controller that has not carried a transfer yet (its
    current_transfer pointer is still NULL), the interrupt handler
    dereferences that pointer, and so faults, exactly when the status it
    reads shows receive-ready without overrun: the receive step loads the
    transfer's length before it looks at the counter.  With the overrun
    bit set the handler flags the failure, masks both sources and returns
    handled; with neither bit set it returns not-this-device. *)
Theorem interrupt_without_transfer (s : at91_usart_spi) :
  lock s = false -> current_transfer s = None ->
  (at91_usart_spi_interrupt s = Fault NullDeref <->
   Z.testbit (hw_csr (regs s)) 5 = false
   /\ Z.testbit (hw_csr (regs s)) 0 = true)
  /\ (Z.testbit (hw_csr (regs s)) 5 = true ->
      exists s',
        at91_usart_spi_interrupt s = Ok (IRQ_HANDLED, s')
        /\ xfer_failed s' = true /\ current_transfer s' = None
        /\ Z.testbit (hw_imr (regs s')) 5 = false
        /\ Z.testbit (hw_imr (regs s')) 0 = false)
  /\ (Z.testbit (hw_csr (regs s)) 5 = false ->
      Z.testbit (hw_csr (regs s)) 0 = false ->
      exists s',
        at91_usart_spi_interrupt s = Ok (IRQ_NONE, s')
        /\ current_transfer s' = None /\ regs s' = regs s).
Proof.
  intros Hlock Hct. destruct s as [ct rg lk iq txr rxr clk st xf jr].
  cbn [lock current_transfer regs] in *. subst lk ct.
  assert (Hnull : Z.testbit (hw_csr rg) 5 = false ->
                  Z.testbit (hw_csr rg) 0 = true ->
                  at91_usart_spi_interrupt
                    (mk_aus None rg false iq txr rxr clk st xf jr)
                  = Fault NullDeref).
  { intros Hov Hrx. exec. cbv [hw_readl].
    rewrite overrun_test, Hov. cbn [negb]. exec.
    rewrite rx_ready_test, Hrx. reflexivity. }
  split; [| split].
  - split; [| intros [? ?]; auto].
    intros H.
    destruct (Z.testbit (hw_csr rg) 5) eqn:Hov.
    { rewrite interrupt_overrun in H by assumption. discriminate. }
    destruct (Z.testbit (hw_csr rg) 0) eqn:Hrx; [auto |].
    rewrite interrupt_none in H by assumption. discriminate.
  - intros Hov. eexists. split; [now apply interrupt_overrun |].
    cbn [xfer_failed current_transfer regs].
    destruct rg as [cr mr imr csr rhr thr brgr ver].
    cbv [hw_writel hw_imr]. rewrite !idr_clears by lia.
    cbn [Z.eqb orb negb]. rewrite !andb_false_r.
    repeat split; reflexivity.
  - intros Hov Hrx. eexists. split; [now apply interrupt_none |].
    split; reflexivity.
Qed.

(** ** The life of a peer's mode cache *)

(** A first setup of an 8-bit peer, the allocator willing. *)
Lemma setup_first spi h ct rg lk iq txr rxr clk st xf jr :
  bits_per_word spi = 8 -> controller_state spi = None ->
  at91_usart_spi_setup true spi h (mk_aus ct rg lk iq txr rxr clk st xf jr)
  = Ok ((0, with_controller_state spi (Some (fresh (dom h))),
         <[fresh (dom h) := setup_mr (mode spi) (u32 (hw_mr rg))]> h),
        mk_aus ct rg lk iq txr rxr clk st xf
          ((lk, Readl US_MR (u32 (hw_mr rg))) :: jr)).
Proof.
  intros Hbits Hcs. destruct spi as [bpw md cs cst].
  cbn [bits_per_word controller_state] in *. subst bpw cst.
  unfold at91_usart_spi_setup. exec. cbv [hw_readl].
  cbn [bits_per_word mode controller_state chip_select].
  change (negb (u8 8 =? 8)) with false. cbn iota. exec.
  unfold kzalloc. exec. rewrite insert_insert_eq. reflexivity.
Qed.

(** A setup that finds the width unsupported. *)
Lemma setup_width spi alloc h ct rg lk iq txr rxr clk st xf jr :
  u8 (bits_per_word spi) <> 8 ->
  at91_usart_spi_setup alloc spi h (mk_aus ct rg lk iq txr rxr clk st xf jr)
  = Ok ((- EINVAL, spi, h),
        mk_aus ct rg lk iq txr rxr clk st xf
          ((lk, Readl US_MR (u32 (hw_mr rg))) :: jr)).
Proof.
  intros Hne. unfold at91_usart_spi_setup. exec. cbv [hw_readl].
  destruct (Z.eqb_spec (u8 (bits_per_word spi)) 8) as [E | _];
    [contradiction |].
  reflexivity.
Qed.

(** [prepare_message] for a peer whose cache cell holds [v]. *)
Lemma prepare_message_cached spi h p v ct rg lk iq txr rxr clk st xf jr :
  controller_state spi = Some p -> h !! p = Some v ->
  at91_usart_spi_prepare_message spi h
    (mk_aus ct rg lk iq txr rxr clk st xf jr)
  = Ok (0,
        mk_aus ct
          (hw_writel US_MR (u32 v)
             (hw_writel US_IER (u32 US_OVRE_RXRDY_IRQS)
                (hw_writel US_CR (u32 US_ENABLE) rg)))
          lk iq txr rxr clk st xf
          ((lk, Writel US_MR (u32 v))
             :: (lk, Writel US_IER (u32 US_OVRE_RXRDY_IRQS))
             :: (lk, Writel US_CR (u32 US_ENABLE)) :: jr)).
Proof. intros Hcs Hp. exec. rewrite Hcs, Hp. reflexivity. Qed.

(** The value [setup] caches does not depend on which peer's flags the
    mode register carries when it is read. *)
Lemma setup_mr_absorbs mode mode' live :
  0 <= live < 2 ^ 32 ->
  setup_mr mode (setup_mr mode' live) = setup_mr mode live.
Proof.
  intros Hlive. apply Z.bits_inj'. intros i Hi.
  assert (Hr : 0 <= setup_mr mode' live < 2 ^ 32)
    by (unfold setup_mr; apply mode_bit_range).
  rewrite !setup_mr_bits by assumption.
  destruct (i =? 15); [reflexivity |].
  destruct (i =? 8); [reflexivity |].
  destruct (i =? 16); reflexivity.
Qed.

Lemma setup_mr_range mode live : 0 <= setup_mr mode live < 2 ^ 32.
Proof. unfold setup_mr. apply mode_bit_range. Qed.

(** X10: for every 8-bit peer that has no cache yet, a successful setup
    followed by cleanup gives back the peer descriptor and kernel memory
    exactly as they were: setup allocates one cell that was not in use
    and touches no other, cleanup releases that cell and resets the
    peer's pointer; cleanup of a peer without a cache changes nothing. *)
Theorem setup_cleanup_round_trip (spi : spi_device) (h : gmap nat Z)
    (s : at91_usart_spi) :
  bits_per_word spi = 8 -> controller_state spi = None ->
  exists spi' h' s' p,
    at91_usart_spi_setup true spi h s = Ok ((0, spi', h'), s')
    /\ controller_state spi' = Some p
    /\ h !! p = None
    /\ h' !! p = Some (setup_mr (mode spi) (u32 (hw_mr (regs s))))
    /\ (forall q, q <> p -> h' !! q = h !! q)
    /\ at91_usart_spi_cleanup spi' h' = (spi, h)
    /\ at91_usart_spi_cleanup spi h = (spi, h).
Proof.
  intros Hbits Hcs. destruct s as [ct rg lk iq txr rxr clk st xf jr].
  assert (Hfresh : h !! fresh (dom h) = None)
    by apply not_elem_of_dom, is_fresh.
  eexists _, _, _, (fresh (dom h)).
  split; [now apply setup_first |].
  destruct spi as [bpw md cs cst]. cbn [controller_state] in Hcs. subst cst.
  cbn [with_controller_state controller_state bits_per_word mode
       chip_select regs].
  split; [reflexivity |]. split; [exact Hfresh |].
  split; [apply lookup_insert_eq |].
  split; [intros q Hq; now apply lookup_insert_ne |].
  unfold at91_usart_spi_cleanup.
  cbn [with_controller_state controller_state bits_per_word mode
       chip_select kfree].
  rewrite delete_insert_id by exact Hfresh. split; reflexivity.
Qed.

(** X11: for every two 8-bit peers set up one after the other, the second
    while a message for the first is prepared (so that the mode register
    carries the first peer's flags when the second setup reads it): the
    two peers get different cache cells, and from then on
    prepare_message for either peer programs the mode register with the
    value of that peer alone, namely its own three flags over the
    register as it was before either setup. *)
Theorem per_peer_mode (a b : spi_device) (h : gmap nat Z)
    (s : at91_usart_spi) :
  bits_per_word a = 8 -> bits_per_word b = 8 ->
  controller_state a = None -> controller_state b = None ->
  exists a' h1 s1 s2 b' h2 s3,
    at91_usart_spi_setup true a h s = Ok ((0, a', h1), s1)
    /\ at91_usart_spi_prepare_message a' h1 s1 = Ok (0, s2)
    /\ at91_usart_spi_setup true b h1 s2 = Ok ((0, b', h2), s3)
    /\ controller_state a' <> controller_state b'
    /\ forall s4, exists sa sb,
         at91_usart_spi_prepare_message a' h2 s4 = Ok (0, sa)
         /\ hw_mr (regs sa) = setup_mr (mode a) (u32 (hw_mr (regs s)))
         /\ at91_usart_spi_prepare_message b' h2 s4 = Ok (0, sb)
         /\ hw_mr (regs sb) = setup_mr (mode b) (u32 (hw_mr (regs s))).
Proof.
  intros Ha Hb Hca Hcb. destruct s as [ct rg lk iq txr rxr clk st xf jr].
  set (m := u32 (hw_mr rg)).
  assert (Hm : 0 <= m < 2 ^ 32) by (subst m; apply u32_range).
  set (pa := fresh (dom h)).
  set (h1 := <[pa := setup_mr (mode a) m]> h).
  set (pb := fresh (dom h1)).
  assert (Hne : pa <> pb).
  { intros E. assert (Hin : pa ∈ dom h1).
    { subst h1. apply elem_of_dom. rewrite lookup_insert_eq. eauto. }
    rewrite E in Hin. now apply is_fresh in Hin. }
  eexists (with_controller_state a (Some pa)), h1, _, _,
    (with_controller_state b (Some pb)), _, _.
  split; [now apply setup_first |].
  split.
  { apply (prepare_message_cached _ _ pa (setup_mr (mode a) m));
      [reflexivity | apply lookup_insert_eq]. }
  split.
  { apply setup_first; assumption. }
  split.
  { cbn [with_controller_state controller_state].
    intros E. injection E as E. now apply Hne. }
  intros [ct4 rg4 lk4 iq4 txr4 rxr4 clk4 st4 xf4 jr4].
  eexists _, _.
  split.
  { apply (prepare_message_cached _ _ pa (setup_mr (mode a) m));
      [reflexivity |].
    rewrite lookup_insert_ne by (intros E; apply Hne; symmetry; exact E).
    apply lookup_insert_eq. }
  split.
  { destruct rg4 as [cr4 mr4 imr4 cs4 rh4 thr4 brgr4 ver4].
    cbn. apply u32_small, setup_mr_range. }
  split.
  { apply (prepare_message_cached _ _ pb); [reflexivity |].
    apply lookup_insert_eq. }
  destruct rg4 as [cr4 mr4 imr4 cs4 rh4 thr4 brgr4 ver4].
  destruct rg as [cr0 mr0 imr0 cs0 rh0 thr0 brgr0 ver0].
  cbn [regs hw_writel hw_mr mode with_controller_state].
  rewrite u32_small by apply setup_mr_range.
  rewrite (u32_small (u32 (setup_mr (mode a) m)))
    by (rewrite u32_small; apply setup_mr_range).
  rewrite (u32_small (setup_mr (mode a) m)) by apply setup_mr_range.
  now apply setup_mr_absorbs.
Qed.

(** ** A whole message *)







Section Message.

Variable xfer : spi_transfer.
Hypothesis xfer_wf : xfer_ok xfer.
Hypothesis xfer_fits_int : len xfer <= INT_MAX.



End Message.

(** ** Attach: what is advertised and when it succeeds *)

Lemma BIT_bits n i : 0 <= n -> Z.testbit (BIT n) i = (n =? i).
Proof. intros Hn. rewrite BIT_pow2 by assumption. now apply Z.pow2_bits_eqb. Qed.

(** X13: for every controller that attach has registered and every peer
    with a declared word width between 1 and 32 bits, setup rejects the
    peer with the unsupported-word-width failure (-EINVAL) exactly when
    the width is missing from the controller's advertised
    bits_per_word_mask; the only width advertised, and accepted, is 8. *)
Theorem advertised_word_width (bits : Z) (pf : platform) (ret : Z)
    (ctlr : spi_controller) (alloc_succeeds : bool) (spi : spi_device)
    (h : gmap nat Z) (s : at91_usart_spi) :
  at91_usart_spi_probe bits pf = Ok (ret, Some ctlr) ->
  1 <= bits_per_word spi <= 32 ->
  (Z.land (bits_per_word_mask ctlr) (SPI_BPW_MASK (bits_per_word spi)) = 0
   <-> bits_per_word spi <> 8)
  /\ (Z.land (bits_per_word_mask ctlr) (SPI_BPW_MASK (bits_per_word spi)) = 0
      <-> exists s',
            at91_usart_spi_setup alloc_succeeds spi h s
            = Ok ((- EINVAL, spi, h), s')).
Proof.
  intros Hp Hw.
  assert (Hmask : bits_per_word_mask ctlr = SPI_BPW_MASK 8).
  { revert Hp. unfold at91_usart_spi_probe.
    repeat match goal with
           | |- context [if ?b then _ else _] => destruct b; try discriminate
           end.
    exec. exec_hw. intros H. injection H as _ <-. reflexivity. }
  assert (Hland : Z.land (bits_per_word_mask ctlr)
                    (SPI_BPW_MASK (bits_per_word spi)) = 0
                  <-> bits_per_word spi <> 8).
  { rewrite Hmask. unfold SPI_BPW_MASK. rewrite land_BIT by lia.
    rewrite BIT_bits by lia.
    destruct (Z.eqb_spec (8 - 1) (bits_per_word spi - 1)) as [E | E].
    - rewrite <- E. split; [intros H; vm_compute in H; discriminate | lia].
    - split; [lia | reflexivity]. }
  split; [exact Hland |]. rewrite Hland.
  assert (Hu8 : u8 (bits_per_word spi) = bits_per_word spi)
    by (unfold u8; apply Z.mod_small; lia).
  destruct s as [ct rg lk iq txr rxr clk st xf jr].
  split.
  - intros Hne. eexists. apply setup_width. now rewrite Hu8.
  - intros (s' & H) E.
    unfold at91_usart_spi_setup in H. exec_in H. cbv [hw_readl] in H.
    rewrite Hu8, E in H. change (negb (8 =? 8)) with false in H.
    cbn iota in H.
    destruct (controller_state spi) as [p |].
    + destruct (h !! p); exec_in H; [| discriminate].
      injection H as H _. vm_compute in H. discriminate.
    + unfold kzalloc in H.
      destruct alloc_succeeds; exec_in H; injection H as H _;
        vm_compute in H; discriminate.
Qed.

(** What [request_cs_gpios] returns: 0 when it gets past every entry,
    otherwise the code of the first entry it does not get past. *)
Lemma request_cs_gpios_ok l :
  request_cs_gpios l = 0 <-> Forall cs_ok l.
Proof.
  induction l as [| [[g v] r] l IH]; cbn [request_cs_gpios].
  - split; [constructor | reflexivity].
  - destruct (Z.ltb_spec g 0) as [Hneg | Hpos].
    + split; [lia |]. intros H. apply Forall_cons in H as [[Hg _] _]. lia.
    + destruct v; cbn [andb].
      * destruct (Z.eqb_spec r 0) as [-> | Hr]; cbn [negb].
        -- rewrite IH. split; [intros H; constructor; cbn; auto |].
           intros H. now apply Forall_cons in H as [_ H].
        -- split; [contradiction |].
           intros H. apply Forall_cons in H as [[_ Hv] _]. now apply Hv.
      * rewrite IH. split.
        -- intros H. constructor; [| assumption]. cbn. split; [lia |].
           discriminate.
        -- intros H. now apply Forall_cons in H as [_ H].
Qed.

Lemma request_cs_gpios_first l1 e l2 :
  Forall cs_ok l1 -> ~ cs_ok e ->
  request_cs_gpios (l1 ++ e :: l2) = cs_error e
  /\ request_cs_gpios (l1 ++ e :: l2) <> 0.
Proof.
  intros Hok Hbad. induction Hok as [| [[g v] r] l1 [Hg Hv] _ IH].
  - destruct e as [[g v] r]. cbn [app request_cs_gpios cs_error].
    unfold cs_ok in Hbad.
    destruct (Z.ltb_spec g 0) as [Hneg | Hpos]; [split; [reflexivity | lia] |].
    destruct v; cbn [andb].
    + destruct (Z.eqb_spec r 0) as [-> | Hr]; cbn [negb]; [| auto].
      exfalso. apply Hbad. auto.
    + exfalso. apply Hbad. split; [lia | discriminate].
  - rewrite <- app_comm_cons. cbn [request_cs_gpios].
    destruct (Z.ltb_spec g 0) as [Hneg | Hpos]; [lia |].
    destruct v; cbn [andb]; [| exact IH].
    rewrite (Hv eq_refl). exact IH.
Qed.

(** X15: [at91_usart_gpio_setup] returns 0 exactly when the parent has a
    device-tree node and every chip-select entry is either a non-negative
    GPIO number that is not valid (such an entry is skipped without a
    request) or a valid one whose request succeeded; without a node it
    returns -EINVAL whatever the entries; otherwise it returns the code
    of the first entry it does not get past (the negative number itself,
    or the failure of the request), which is never 0, and the entries
    after that one play no part. *)
Theorem gpio_setup_first_failure (pf : platform) :
  (at91_usart_gpio_setup pf = 0 <->
   pf_of_node pf = true /\ Forall cs_ok (pf_cs_gpios pf))
  /\ (pf_of_node pf = false -> at91_usart_gpio_setup pf = - EINVAL)
  /\ (forall l1 e l2,
        pf_of_node pf = true ->
        pf_cs_gpios pf = l1 ++ e :: l2 ->
        Forall cs_ok l1 -> ~ cs_ok e ->
        at91_usart_gpio_setup pf = cs_error e
        /\ at91_usart_gpio_setup pf <> 0).
Proof.
  unfold at91_usart_gpio_setup. split; [| split].
  - destruct (pf_of_node pf); cbn [negb].
    + rewrite request_cs_gpios_ok. tauto.
    + split; [intros H; vm_compute in H; discriminate |].
      intros [H _]. discriminate.
  - intros ->. reflexivity.
  - intros l1 e l2 -> -> Hok Hbad. cbn [negb].
    now apply request_cs_gpios_first.
Qed.

(** X14: attach registers a controller and returns 0 exactly when every
    collaborator it calls succeeds (the register window is found, the
    interrupt number is not negative, the clock is obtained, the
    controller allocated, the chip-select lines set up, the window
    mapped, the interrupt requested, the clock enabled and the controller
    registered); in every other case it returns a nonzero code and
    registers nothing. *)
Theorem probe_succeeds_iff (bits : Z) (pf : platform) :
  ((exists ctlr, at91_usart_spi_probe bits pf = Ok (0, Some ctlr))
   <-> collaborators_ok pf)
  /\ (forall ret o,
        at91_usart_spi_probe bits pf = Ok (ret, o) ->
        (ret = 0 <-> o <> None)).
Proof.
  split.
  - split.
    + intros (ctlr & H). revert H. unfold at91_usart_spi_probe, collaborators_ok.
      destruct (pf_mem_resource pf); cbn [negb]; [| discriminate].
      destruct (Z.ltb_spec (pf_irq pf) 0); [discriminate |].
      destruct (Z.eqb_spec (pf_clk_err pf) 0); cbn [negb]; [| discriminate].
      destruct (pf_alloc_master pf); cbn [negb]; [| discriminate].
      destruct (Z.eqb_spec (at91_usart_gpio_setup pf) 0); cbn [negb];
        [| discriminate].
      destruct (Z.eqb_spec (pf_ioremap_err pf) 0); cbn [negb];
        [| discriminate].
      destruct (Z.eqb_spec (pf_request_irq pf) 0); cbn [negb];
        [| discriminate].
      destruct (Z.eqb_spec (pf_clk_prepare_enable pf) 0); cbn [negb];
        [| discriminate].
      exec.
      destruct (Z.eqb_spec (pf_register_master pf) 0); cbn [negb];
        [| discriminate].
      intros _. repeat split; auto.
    + intros (Hmem & Hirq & Hclk & Hal & Hgp & Hio & Hrq & Hen & Hreg).
      eexists. unfold at91_usart_spi_probe.
      rewrite Hmem, Hclk, Hal, Hgp, Hio, Hrq, Hen. cbn [negb Z.eqb].
      destruct (Z.ltb_spec (pf_irq pf) 0); [lia |].
      exec. rewrite Hreg. cbn [negb Z.eqb]. reflexivity.
  - intros ret o. unfold at91_usart_spi_probe.
    assert (Hnz : forall r : Z, r <> 0 ->
                    Ok (r, @None spi_controller) = Ok (ret, o) ->
                    (ret = 0 <-> o <> None)).
    { intros r Hr H. injection H as <- <-. split; [contradiction | congruence]. }
    destruct (pf_mem_resource pf); cbn [negb];
      [| apply Hnz; vm_compute; discriminate].
    destruct (Z.ltb_spec (pf_irq pf) 0); [apply Hnz; lia |].
    destruct (Z.eqb_spec (pf_clk_err pf) 0); cbn [negb];
      [| now apply Hnz].
    destruct (pf_alloc_master pf); cbn [negb];
      [| apply Hnz; vm_compute; discriminate].
    destruct (Z.eqb_spec (at91_usart_gpio_setup pf) 0); cbn [negb];
      [| now apply Hnz].
    destruct (Z.eqb_spec (pf_ioremap_err pf) 0); cbn [negb];
      [| now apply Hnz].
    destruct (Z.eqb_spec (pf_request_irq pf) 0); cbn [negb];
      [| now apply Hnz].
    destruct (Z.eqb_spec (pf_clk_prepare_enable pf) 0); cbn [negb];
      [| now apply Hnz].
    exec.
    destruct (Z.eqb_spec (pf_register_master pf) 0); cbn [negb];
      [| now apply Hnz].
    intros Hres. injection Hres as <- <-.
    split; [discriminate | reflexivity].
Qed.

(** X18: every successful attach leaves the device initialised and
    quiet: the mode register holds the initial mode (SPI master, 8-bit
    characters, clock output, none of clock polarity, clock phase and
    loopback), the command register the reset-and-disable command; the
    interrupt mask, the baud-rate register and the transmitter are as
    attach found them, since attach enables no interrupt source; the
    private structure carries the clock rate and the interrupt number,
    no transfer, zero counters, a clear failure flag and a free lock,
    and the only register accesses made are the two writes and the read
    of the version register.  If no source was enabled on the device
    before, the interrupt line stays low whatever the status shows, until
    prepare_message enables the receive sources. *)
Theorem probe_initialises_device (bits : Z) (pf : platform) (ret : Z)
    (ctlr : spi_controller) :
  at91_usart_spi_probe bits pf = Ok (ret, Some ctlr) ->
  hw_mr (regs (devdata ctlr)) = u32 US_INIT
  /\ hw_cr (regs (devdata ctlr)) = u32 (Z.lor US_RESET US_DISABLE)
  /\ Z.testbit (hw_mr (regs (devdata ctlr))) 16 = false
  /\ Z.testbit (hw_mr (regs (devdata ctlr))) 8 = false
  /\ Z.testbit (hw_mr (regs (devdata ctlr))) 15 = false
  /\ hw_imr (regs (devdata ctlr)) = hw_imr (pf_device pf)
  /\ hw_brgr (regs (devdata ctlr)) = hw_brgr (pf_device pf)
  /\ hw_thr (regs (devdata ctlr)) = hw_thr (pf_device pf)
  /\ devdata ctlr
     = mk_aus None (regs (devdata ctlr)) false (pf_irq pf) 0 0
         (u32 (ulong bits (pf_clk_rate pf))) 0 false
         [(false, Readl US_VERSION (u32 (hw_version (pf_device pf))));
          (false, Writel US_CR (u32 (Z.lor US_RESET US_DISABLE)));
          (false, Writel US_MR (u32 US_INIT))]
  /\ (hw_imr (pf_device pf) = 0 ->
      forall csr rhr,
        irq_pending (hw_present csr rhr (regs (devdata ctlr))) = false).
Proof.
  unfold at91_usart_spi_probe.
  repeat match goal with
         | |- context [if ?b then _ else _] => destruct b; try discriminate
         end.
  exec. exec_hw. intros H. injection H as _ <-.
  destruct (pf_device pf) as [cr mr imr cs rh thr brgr ver].
  cbn [devdata regs hw_mr hw_cr hw_imr hw_brgr hw_thr hw_version].
  repeat (split; [reflexivity |]).
  intros -> csr rhr. cbv [irq_pending hw_present hw_csr hw_imr].
  now rewrite Z.land_0_r.
Qed.

(** ** Power management and detach *)

Lemma clk_enable_count_app l l' :
  clk_enable_count (l ++ l') = clk_enable_count l + clk_enable_count l'.
Proof.
  induction l as [| c l IH]; [reflexivity |].
  rewrite <- app_comm_cons. destruct c; cbn [clk_enable_count]; lia.
Qed.

Lemma controller_refs_app l l' :
  controller_refs (l ++ l') = controller_refs l + controller_refs l'.
Proof.
  induction l as [| c l IH]; [reflexivity |].
  rewrite <- app_comm_cons. destruct c; cbn [controller_refs]; lia.
Qed.

(** What [at91_usart_spi_init] does, in closed form. *)
Lemma at91_usart_spi_init_spec ct rg lk iq txr rxr clk st xf jr :
  at91_usart_spi_init (mk_aus ct rg lk iq txr rxr clk st xf jr)
  = Ok (tt,
        mk_aus ct
          (hw_writel US_CR (u32 (Z.lor US_RESET US_DISABLE))
             (hw_writel US_MR (u32 US_INIT) rg))
          lk iq txr rxr clk st xf
          ((lk, Writel US_CR (u32 (Z.lor US_RESET US_DISABLE)))
             :: (lk, Writel US_MR (u32 US_INIT)) :: jr)).
Proof. reflexivity. Qed.

(** X16: for every state of the controller and every log of earlier
    calls, a suspend that the SPI core lets through followed by a resume
    whose clock enable succeeds, the device being runtime-suspended at
    both or at neither, leaves as many enables of the clock outstanding
    as before.  If the device was not runtime-suspended, suspend disables
    the clock and selects the sleep state of the pins, and resume selects
    the default state and enables the clock again; if it was, neither
    touches clock or pins.  Suspend writes no register; resume writes
    the initial mode to the mode register and reset-and-disable to the
    command register in either case, so that a peer's mode is in the
    register again only after the next prepare_message; it returns what
    [spi_controller_resume] returns. *)
Theorem suspend_resume_balance (pm pm' : pm_answers) (l : list kcall)
    (s : at91_usart_spi) :
  pm_controller_suspend pm = 0 ->
  pm_clk_prepare_enable pm' = 0 ->
  pm_runtime_is_suspended pm' = pm_runtime_is_suspended pm ->
  exists l1 l2 s',
    at91_usart_spi_suspend pm l s = Ok ((0, l1), s)
    /\ at91_usart_spi_resume pm' l1 s
       = Ok ((pm_controller_resume pm', l2), s')
    /\ l1 = l ++ [spi_controller_suspend 0;
                  pm_runtime_suspended (pm_runtime_is_suspended pm)]
              ++ (if pm_runtime_is_suspended pm then []
                  else [clk_disable_unprepare;
                        pinctrl_pm_select_sleep_state])
    /\ l2 = l1 ++ [pm_runtime_suspended (pm_runtime_is_suspended pm)]
              ++ (if pm_runtime_is_suspended pm then []
                  else [pinctrl_pm_select_default_state;
                        clk_prepare_enable 0])
              ++ [spi_controller_resume (pm_controller_resume pm')]
    /\ clk_enable_count l2 = clk_enable_count l
    /\ hw_mr (regs s') = u32 US_INIT
    /\ hw_cr (regs s') = u32 (Z.lor US_RESET US_DISABLE)
    /\ hw_imr (regs s') = hw_imr (regs s)
    /\ hw_brgr (regs s') = hw_brgr (regs s)
    /\ appended s s'
         [(lock s, Writel US_MR (u32 US_INIT));
          (lock s, Writel US_CR (u32 (Z.lor US_RESET US_DISABLE)))].
Proof.
  intros Hs He Hr.
  destruct pm as [cs rs ce cr]. destruct pm' as [cs' rs' ce' cr'].
  cbn [pm_controller_suspend pm_clk_prepare_enable pm_runtime_is_suspended
       pm_controller_resume] in *. subst cs ce' rs'.
  destruct s as [ct rg lk iq txr rxr clk st xf jr].
  destruct rg as [hcr hmr himr hcsr hrhr hthr hbrgr hver].
  destruct rs.
  - eexists _, _, _.
    split.
    { cbv beta iota zeta delta
        [at91_usart_spi_suspend at91_usart_spi_runtime_suspend
         mbind K_bind mret K_ret call].
      cbn. reflexivity. }
    split.
    { cbv beta iota zeta delta
        [at91_usart_spi_resume at91_usart_spi_runtime_resume
         mbind K_bind mret K_ret call lift].
      cbn. rewrite at91_usart_spi_init_spec. reflexivity. }
    split; [rewrite <- ?app_assoc; cbn [app]; reflexivity |].
    split; [rewrite <- ?app_assoc; cbn [app]; reflexivity |].
    split; [rewrite !clk_enable_count_app; cbn; lia |].
    repeat split; reflexivity.
  - eexists _, _, _.
    split.
    { cbv beta iota zeta delta
        [at91_usart_spi_suspend at91_usart_spi_runtime_suspend
         mbind K_bind mret K_ret call].
      cbn. reflexivity. }
    split.
    { cbv beta iota zeta delta
        [at91_usart_spi_resume at91_usart_spi_runtime_resume
         mbind K_bind mret K_ret call lift].
      cbn. rewrite at91_usart_spi_init_spec. reflexivity. }
    split; [rewrite <- ?app_assoc; cbn [app]; reflexivity |].
    split; [rewrite <- ?app_assoc; cbn [app]; reflexivity |].
    split; [rewrite !clk_enable_count_app; cbn; lia |].
    repeat split; reflexivity.
Qed.

(** X20: runtime suspend followed by a runtime resume whose clock enable
    succeeds leaves as many enables of the clock outstanding as before
    and the default state of the pins selected last; neither callback
    reads or writes a register of the device, so that, unlike the resume
    from system sleep, a runtime resume does not re-initialise the
    device.  Runtime suspend always returns 0; runtime resume returns
    what [clk_prepare_enable] returns. *)
Theorem runtime_pm_round_trip (pm : pm_answers) (l : list kcall)
    (s : at91_usart_spi) :
  at91_usart_spi_runtime_suspend l s
  = Ok ((0, l ++ [clk_disable_unprepare; pinctrl_pm_select_sleep_state]), s)
  /\ at91_usart_spi_runtime_resume pm
       (l ++ [clk_disable_unprepare; pinctrl_pm_select_sleep_state]) s
     = Ok ((pm_clk_prepare_enable pm,
            l ++ [clk_disable_unprepare; pinctrl_pm_select_sleep_state;
                  pinctrl_pm_select_default_state;
                  clk_prepare_enable (pm_clk_prepare_enable pm)]), s)
  /\ clk_enable_count
       (l ++ [clk_disable_unprepare; pinctrl_pm_select_sleep_state])
     = clk_enable_count l - 1
  /\ (pm_clk_prepare_enable pm = 0 ->
      clk_enable_count
        (l ++ [clk_disable_unprepare; pinctrl_pm_select_sleep_state;
               pinctrl_pm_select_default_state;
               clk_prepare_enable (pm_clk_prepare_enable pm)])
      = clk_enable_count l)
  /\ (pm_clk_prepare_enable pm <> 0 ->
      clk_enable_count
        (l ++ [clk_disable_unprepare; pinctrl_pm_select_sleep_state;
               pinctrl_pm_select_default_state;
               clk_prepare_enable (pm_clk_prepare_enable pm)])
      = clk_enable_count l - 1).
Proof.
  split.
  { cbv beta iota zeta delta
      [at91_usart_spi_runtime_suspend mbind K_bind mret K_ret call].
    rewrite <- !app_assoc. reflexivity. }
  split.
  { cbv beta iota zeta delta
      [at91_usart_spi_runtime_resume mbind K_bind mret K_ret call].
    rewrite <- !app_assoc. reflexivity. }
  rewrite !clk_enable_count_app. cbn [clk_enable_count].
  split; [lia |]. split.
  - intros ->. cbn. lia.
  - intros Hne. destruct (Z.eqb_spec (pm_clk_prepare_enable pm) 0);
      [contradiction | lia].
Qed.

(** X17: a power-management callback that fails stops where it failed.
    A suspend that the SPI core refuses returns the core's code without
    asking for the runtime state and without touching the clock or the
    pins; a resume whose clock enable fails returns that failure after
    selecting the default state of the pins, having written no register
    and without calling [spi_controller_resume].  In both cases the
    private structure and the device are exactly as before. *)
Theorem pm_failure_paths (pm : pm_answers) (l : list kcall)
    (s : at91_usart_spi) :
  (pm_controller_suspend pm <> 0 ->
   at91_usart_spi_suspend pm l s
   = Ok ((pm_controller_suspend pm,
          l ++ [spi_controller_suspend (pm_controller_suspend pm)]), s))
  /\ (pm_runtime_is_suspended pm = false ->
      pm_clk_prepare_enable pm <> 0 ->
      at91_usart_spi_resume pm l s
      = Ok ((pm_clk_prepare_enable pm,
             l ++ [pm_runtime_suspended false;
                   pinctrl_pm_select_default_state;
                   clk_prepare_enable (pm_clk_prepare_enable pm)]), s)
      /\ clk_enable_count
           (l ++ [pm_runtime_suspended false;
                  pinctrl_pm_select_default_state;
                  clk_prepare_enable (pm_clk_prepare_enable pm)])
         = clk_enable_count l).
Proof.
  destruct pm as [cs rs ce cr].
  cbn [pm_controller_suspend pm_clk_prepare_enable pm_runtime_is_suspended
       pm_controller_resume].
  split.
  - intros Hne.
    cbv beta iota zeta delta
      [at91_usart_spi_suspend mbind K_bind mret K_ret call].
    cbn [pm_controller_suspend pm_clk_prepare_enable
         pm_runtime_is_suspended pm_controller_resume].
    destruct (Z.eqb_spec cs 0); [contradiction |]. reflexivity.
  - intros -> Hne. split.
    + cbv beta iota zeta delta
        [at91_usart_spi_resume at91_usart_spi_runtime_resume
         mbind K_bind mret K_ret call].
      cbn [pm_controller_suspend pm_clk_prepare_enable
           pm_runtime_is_suspended pm_controller_resume negb].
      destruct (Z.eqb_spec ce 0); [contradiction |].
      cbn [negb]. rewrite <- !app_assoc. reflexivity.
    + rewrite clk_enable_count_app. cbn [clk_enable_count].
      destruct (Z.eqb_spec ce 0); [contradiction |]. lia.
Qed.

(** X19: along every return path of attach, what was taken is given back
    unless attach succeeds.  When attach fails, no enable of the clock
    and no reference to the controller is left outstanding: the clock is
    disabled again if, and only if, it had been enabled (the failure
    being that of the registration), and the reference handed out by the
    allocation is dropped.  When attach succeeds, exactly one enable and
    one reference are outstanding, and [remove] gives the enable back. *)
Theorem probe_remove_balance (bits : Z) (pf : platform) (ret : Z)
    (o : option spi_controller) (s : at91_usart_spi) :
  at91_usart_spi_probe bits pf = Ok (ret, o) ->
  clk_enable_count (at91_usart_spi_probe_calls pf)
  = match o with Some _ => 1 | None => 0 end
  /\ controller_refs (at91_usart_spi_probe_calls pf)
     = match o with Some _ => 1 | None => 0 end
  /\ (o <> None ->
      at91_usart_spi_remove (at91_usart_spi_probe_calls pf) s
      = Ok ((0, at91_usart_spi_probe_calls pf ++ [clk_disable_unprepare]),
            s)
      /\ clk_enable_count
           (at91_usart_spi_probe_calls pf ++ [clk_disable_unprepare])
         = 0).
Proof.
  unfold at91_usart_spi_probe, at91_usart_spi_probe_calls,
    at91_usart_fail_register_master, at91_usart_spi_probe_fail.
  assert (Hfail : forall r calls,
            clk_enable_count calls = 0 -> controller_refs calls = 0 ->
            Ok (r, @None spi_controller) = Ok (ret, o) ->
            clk_enable_count calls = match o with Some _ => 1 | None => 0 end
            /\ controller_refs calls
               = match o with Some _ => 1 | None => 0 end
            /\ (o <> None ->
                at91_usart_spi_remove calls s
                = Ok ((0, calls ++ [clk_disable_unprepare]), s)
                /\ clk_enable_count (calls ++ [clk_disable_unprepare]) = 0)).
  { intros r calls Hc Hr Hres. injection Hres as _ <-.
    split; [exact Hc |]. split; [exact Hr |]. contradiction. }
  destruct (pf_mem_resource pf); cbn [negb];
    [| now apply Hfail].
  destruct (Z.ltb_spec (pf_irq pf) 0); [now apply Hfail |].
  destruct (Z.eqb_spec (pf_clk_err pf) 0); cbn [negb]; [| now apply Hfail].
  destruct (pf_alloc_master pf); cbn [negb]; [| now apply Hfail].
  destruct (Z.eqb_spec (at91_usart_gpio_setup pf) 0); cbn [negb];
    [| now apply Hfail].
  destruct (Z.eqb_spec (pf_ioremap_err pf) 0); cbn [negb];
    [| now apply Hfail].
  destruct (Z.eqb_spec (pf_request_irq pf) 0); cbn [negb];
    [| now apply Hfail].
  destruct (Z.eqb_spec (pf_clk_prepare_enable pf) 0) as [Hen | Hen];
    cbn [negb].
  2: { apply Hfail; [| reflexivity].
       cbn [app clk_enable_count].
       destruct (Z.eqb_spec (pf_clk_prepare_enable pf) 0);
         [contradiction | reflexivity]. }
  rewrite Hen. exec.
  destruct (Z.eqb_spec (pf_register_master pf) 0); cbn [negb];
    [| now apply Hfail].
  intros Hres. injection Hres as _ <-.
  split; [reflexivity |]. split; [reflexivity |].
  intros _. split; reflexivity.
Qed.

(** ** The flags setup looks at *)

Lemma mode_bit_flag mode mode' j mr bit :
  0 <= j -> Z.testbit mode' j = Z.testbit mode j ->
  mode_bit mode' (2 ^ j) mr bit = mode_bit mode (2 ^ j) mr bit.
Proof.
  intros Hj Hb. unfold mode_bit. rewrite !land_pow2_test by assumption.
  now rewrite Hb.
Qed.

(** X21: the value setup caches depends on the peer's mode only through
    the clock-phase, clock-polarity and loopback flags (bits 0, 1 and 5),
    and not at all on its chip-select number: for two peers that agree on
    these three flags, on the word width and on the cache pointer, setup
    returns the same code, leaves the same kernel memory and the same
    controller state, and hands back each peer's descriptor with the same
    cache pointer, whatever the other mode flags (chip-select polarity
    among them) and the chip-select numbers are. *)
Theorem setup_ignores_other_flags (alloc_succeeds : bool)
    (spi spi' : spi_device) (h : gmap nat Z) (s : at91_usart_spi) :
  bits_per_word spi' = bits_per_word spi ->
  controller_state spi' = controller_state spi ->
  Z.testbit (mode spi') 0 = Z.testbit (mode spi) 0 ->
  Z.testbit (mode spi') 1 = Z.testbit (mode spi) 1 ->
  Z.testbit (mode spi') 5 = Z.testbit (mode spi) 5 ->
  setup_mr (mode spi') (u32 (hw_mr (regs s)))
  = setup_mr (mode spi) (u32 (hw_mr (regs s)))
  /\ forall ret spi1 h1 s1,
       at91_usart_spi_setup alloc_succeeds spi h s
       = Ok ((ret, spi1, h1), s1) ->
       at91_usart_spi_setup alloc_succeeds spi' h s
       = Ok ((ret, with_controller_state spi' (controller_state spi1), h1),
             s1).
Proof.
  intros Hbits Hcs H0 H1 H5.
  assert (Hmr : forall live,
            setup_mr (mode spi') live = setup_mr (mode spi) live).
  { intros live. unfold setup_mr.
    change SPI_LOOP with (2 ^ 5). change SPI_CPHA with (2 ^ 0).
    change SPI_CPOL with (2 ^ 1).
    rewrite (mode_bit_flag (mode spi) (mode spi') 5) by (auto; lia).
    rewrite (mode_bit_flag (mode spi) (mode spi') 0) by (auto; lia).
    rewrite (mode_bit_flag (mode spi) (mode spi') 1) by (auto; lia).
    reflexivity. }
  split; [apply Hmr |].
  intros ret spi1 h1 s1.
  destruct spi as [bpw md cs cst]. destruct spi' as [bpw' md' cs' cst'].
  cbn [bits_per_word controller_state mode] in *. subst bpw' cst'.
  destruct s as [ct rg lk iq txr rxr clk st xf jr].
  unfold at91_usart_spi_setup. exec. cbv [hw_readl].
  cbn [bits_per_word mode controller_state chip_select].
  fold (setup_mr md (u32 (hw_mr rg))). fold (setup_mr md' (u32 (hw_mr rg))).
  rewrite (Hmr (u32 (hw_mr rg))).
  destruct (negb (u8 bpw =? 8)).
  - intros H. injection H as <- <- <- <-. reflexivity.
  - destruct cst as [q |].
    + destruct (h !! q); exec; [| discriminate].
      intros H. injection H as <- <- <- <-. reflexivity.
    + destruct (kzalloc alloc_succeeds h) as [[q |] h'];
        intros H; injection H as <- <- <- <-; reflexivity.
Qed.


(** ** Arming, statement by statement *)

Lemma full_run_cons xfer e sched q s :
  full_run xfer (e :: sched) q s
  = match on_full_event xfer e q s with
    | Ok (q', s') => full_run xfer sched q' s'
    | Fault f => Fault f
    end.
Proof.
  cbn [full_run]. unfold mbind, M_bind.
  destruct (on_full_event xfer e q s) as [[] |]; reflexivity.
Qed.

(** Once the transfer is armed, the events are those of the loop. *)
Lemma on_full_event_armed xfer e p s :
  on_full_event xfer e (Armed p) s
  = match on_event e p s with
    | Ok (p', s') => Ok (Armed p', s')
    | Fault f => Fault f
    end.
Proof.
  destruct e as [| | csr rhr]; cbn [on_full_event on_event
    transfer_one_full_step]; unfold mbind, M_bind.
  - destruct (transfer_one_step p s) as [[] |]; reflexivity.
  - destruct (at91_usart_spi_interrupt s) as [[] |]; reflexivity.
  - reflexivity.
Qed.

Lemma full_run_armed xfer sched :
  forall p s,
    full_run xfer sched (Armed p) s
    = match run sched p s with
      | Ok (p', s') => Ok (Armed p', s')
      | Fault f => Fault f
      end.
Proof.
  induction sched as [| e sched IH]; intros p s; [reflexivity |].
  rewrite full_run_cons, run_cons, on_full_event_armed.
  destruct (on_event e p s) as [[p1 s1] |]; [apply IH | reflexivity].
Qed.

Lemma full_admissible_armed xfer sched :
  forall p s, full_admissible xfer sched (Armed p) s = admissible sched p s.
Proof.
  induction sched as [| e sched IH]; intros p s; [reflexivity |].
  cbn [full_admissible admissible]. rewrite on_full_event_armed.
  destruct (on_event e p s) as [[p1 s1] |]; [now rewrite IH | reflexivity].
Qed.

(** Every successful arming statement is one of five. *)
Lemma arm_step_inv xfer a ct rg lk iq txr rxr clk st xf jr q' s' :
  transfer_one_arm_step xfer a (mk_aus ct rg lk iq txr rxr clk st xf jr)
  = Ok (q', s') ->
  (a = AtSetSpeed /\ q' = Arming AtClearFailed
   /\ u32 (speed_hz xfer) <> 0
   /\ s' = mk_aus ct
             (hw_writel US_BRGR
                (u32 (DIV_ROUND_UP 32 (u32 clk) (u32 (speed_hz xfer)))) rg)
             lk iq txr rxr clk st xf
             ((lk, Writel US_BRGR
                     (u32 (DIV_ROUND_UP 32 (u32 clk)
                             (u32 (speed_hz xfer))))) :: jr))
  \/ (a = AtClearFailed /\ q' = Arming AtSetTransfer
      /\ s' = mk_aus ct rg lk iq txr rxr clk st false
                ((lk, Store FXferFailed) :: jr))
  \/ (a = AtSetTransfer /\ q' = Arming AtSetTxRemaining
      /\ s' = mk_aus (Some xfer) rg lk iq txr rxr clk st xf
                ((lk, Store FCurrentTransfer) :: jr))
  \/ (a = AtSetTxRemaining /\ q' = Arming AtSetRxRemaining
      /\ s' = mk_aus ct rg lk iq (u32 (len xfer)) rxr clk st xf
                ((lk, Store FTxRemaining) :: jr))
  \/ (a = AtSetRxRemaining /\ q' = Armed AtCond
      /\ s' = mk_aus ct rg lk iq txr (u32 (len xfer)) clk st xf
                ((lk, Store FRxRemaining) :: jr)).
Proof.
  intros H. destruct a; cbn [transfer_one_arm_step] in H; exec_in H.
  - destruct (Z.eqb_spec (u32 (speed_hz xfer)) 0) as [E | E];
      [destruct xfer; cbn [speed_hz] in *; rewrite E in H; discriminate |].
    left. destruct xfer as [tb rb ln sp]. cbn [speed_hz] in *.
    destruct (u32 sp =? 0) eqn:E'; [apply Z.eqb_eq in E'; contradiction |].
    injection H as <- <-. auto.
  - injection H as <- <-. right. left. auto.
  - injection H as <- <-. right. right. left. auto.
  - injection H as <- <-. right. right. right. left.
    destruct xfer; auto.
  - injection H as <- <-. right. right. right. right.
    destruct xfer; auto.
Qed.

Lemma arm_step_speed xfer ct rg lk iq txr rxr clk st xf jr :
  u32 (speed_hz xfer) <> 0 ->
  transfer_one_arm_step xfer AtSetSpeed
    (mk_aus ct rg lk iq txr rxr clk st xf jr)
  = Ok (Arming AtClearFailed,
        mk_aus ct
          (hw_writel US_BRGR
             (u32 (DIV_ROUND_UP 32 (u32 clk) (u32 (speed_hz xfer)))) rg)
          lk iq txr rxr clk st xf
          ((lk, Writel US_BRGR
                  (u32 (DIV_ROUND_UP 32 (u32 clk) (u32 (speed_hz xfer)))))
             :: jr)).
Proof.
  intros Hsp. destruct xfer as [tb rb ln sp]. cbn [speed_hz] in *.
  cbn [transfer_one_arm_step]. exec.
  destruct (Z.eqb_spec (u32 sp) 0); [contradiction | reflexivity].
Qed.

(** Arming without interruption is [transfer_one_arm]. *)
Lemma arm_uninterrupted xfer sched s :
  full_run xfer (Poll :: Poll :: Poll :: Poll :: Poll :: sched)
    (Arming AtSetSpeed) s
  = match (transfer_one_arm xfer;; run sched AtCond) s with
    | Ok (p, s') => Ok (Armed p, s')
    | Fault f => Fault f
    end.
Proof.
  destruct s as [ct rg lk iq txr rxr clk st xf jr].
  destruct xfer as [tb rb ln sp].
  rewrite full_run_cons.
  cbn [on_full_event transfer_one_full_step transfer_one_arm_step].
  unfold transfer_one_arm. exec.
  destruct (u32 sp =? 0); [reflexivity |].
  do 4 (rewrite full_run_cons;
        cbn [on_full_event transfer_one_full_step transfer_one_arm_step];
        exec).
  rewrite full_run_armed. reflexivity.
Qed.

(** The handler leaves the lock free and does not touch the transmit
    side; what it stores into is the receive buffer of the transfer that
    is installed, whose length it keeps. *)
Lemma interrupt_frame xfer ct rg iq txr rxr clk st xf jr r s' :
  at91_usart_spi_interrupt (mk_aus ct rg false iq txr rxr clk st xf jr)
  = Ok (r, s') ->
  lock s' = false
  /\ current_tx_remaining_bytes s' = txr
  /\ spi_clk s' = clk
  /\ hw_thr (regs s') = hw_thr rg
  /\ (installed xfer (mk_aus ct rg false iq txr rxr clk st xf jr) ->
      installed xfer s').
Proof.
  intros H.
  apply interrupt_inv in H
    as [(_ & _ & ->) | [(_ & _ & _ & y & _ & _ & ->)
       | [(_ & _ & _ & y & i & -> & _ & _ & _ & ->) | (_ & _ & _ & ->)]]];
    cbn [lock current_tx_remaining_bytes spi_clk regs];
    repeat split; auto; try (destruct rg; reflexivity).
  intros (x & Hct & Htb & Hln & Hrb). injection Hct as <-.
  eexists. split; [reflexivity |]. cbn [received tx_buf len rx_buf].
  rewrite length_insert. auto.
Qed.

Lemma on_full_event_interrupt xfer q s :
  on_full_event xfer Interrupt q s
  = match at91_usart_spi_interrupt s with
    | Ok (_, s') => Ok (q, s')
    | Fault f => Fault f
    end.
Proof.
  cbn [on_full_event]. unfold mbind, M_bind.
  destruct (at91_usart_spi_interrupt s) as [[] |]; reflexivity.
Qed.

Lemma on_full_event_hardware xfer csr rhr q ct rg lk iq txr rxr clk st xf jr :
  on_full_event xfer (Hardware csr rhr) q
    (mk_aus ct rg lk iq txr rxr clk st xf jr)
  = Ok (q, mk_aus ct (hw_present csr rhr rg) lk iq txr rxr clk st xf jr).
Proof. reflexivity. Qed.

Section Arming.

Variable xfer : spi_transfer.
Hypothesis xfer_wf : xfer_ok xfer.

(** Whatever happens while the transfer is armed or in flight keeps what
    has been armed in place. *)
Lemma on_full_event_in_flight e q s q' s' :
  full_in_flight xfer q s ->
  on_full_event xfer e q s = Ok (q', s') ->
  full_in_flight xfer q' s'.
Proof.
  intros Hin H. pose proof xfer_wf as [Hlen Htb Hrb Hsp].
  destruct q as [a | p].
  2: { rewrite on_full_event_armed in H.
       destruct (on_event e p s) as [[p1 s1] |] eqn:E; [| discriminate].
       injection H as <- <-. cbn [full_in_flight] in *.
       eapply on_event_in_flight; eauto. }
  destruct Hin as [Hlock Ha].
  destruct s as [ct rg lk iq txr rxr clk st xf jr].
  cbn [lock] in Hlock. subst lk.
  destruct e as [| | csr rhr].
  - cbn [on_full_event transfer_one_full_step] in H.
    apply arm_step_inv in H
      as [(-> & -> & _ & ->) | [(-> & -> & ->) | [(-> & -> & ->)
         | [(-> & -> & ->) | (-> & -> & ->)]]]];
      unfold full_in_flight, arming_invariant in *; cbn [lock].
    + auto.
    + auto.
    + split; [reflexivity |]. exists xfer. auto.
    + split; [reflexivity |]. split; [exact Ha |].
      cbn [current_tx_remaining_bytes]. now apply u32_small.
    + destruct Ha as [Hinst Htx].
      cbn [current_tx_remaining_bytes] in Htx. subst txr.
      split; cbn [lock loop_invariant current_tx_remaining_bytes
                  current_rx_remaining_bytes]; auto; try lia.
      rewrite u32_small by assumption. lia.
  - rewrite on_full_event_interrupt in H.
    destruct (at91_usart_spi_interrupt _) as [[r s1] |] eqn:Ei;
      [| discriminate].
    injection H as <- <-.
    apply (interrupt_frame xfer) in Ei as (Hl & Ht & _ & _ & Hi).
    unfold full_in_flight, arming_invariant in *. split; [exact Hl |].
    destruct a; auto.
    destruct Ha as [Hinst Htx]. split; [auto |].
    rewrite Ht. exact Htx.
  - rewrite on_full_event_hardware in H. injection H as <- <-.
    unfold full_in_flight, arming_invariant in *. cbn [lock].
    split; [reflexivity |]. destruct a; auto.
Qed.

Lemma full_run_in_flight sched :
  forall q s q' s',
    full_in_flight xfer q s ->
    full_run xfer sched q s = Ok (q', s') ->
    full_in_flight xfer q' s'.
Proof.
  induction sched as [| e sched IH]; intros q s q' s' Hin H.
  - injection H as <- <-. exact Hin.
  - rewrite full_run_cons in H.
    destruct (on_full_event xfer e q s) as [[q1 s1] |] eqn:E;
      [| discriminate].
    eapply IH; [| exact H]. eapply on_full_event_in_flight; eauto.
Qed.

(** Every state [transfer_one] can reach from its first statement. *)
Lemma full_reachable_in_flight s0 sched q s :
  lock s0 = false ->
  full_run xfer sched (Arming AtSetSpeed) s0 = Ok (q, s) ->
  full_in_flight xfer q s.
Proof.
  intros Hlock H. eapply full_run_in_flight; [| exact H].
  split; [exact Hlock | exact I].
Qed.

(** No statement of [transfer_one] and no run of the handler enables an
    interrupt source. *)
Lemma on_full_event_imr e q s q' s' :
  lock s = false ->
  on_full_event xfer e q s = Ok (q', s') ->
  Z.land (hw_imr (regs s)) (Z.lnot US_OVRE_RXRDY_IRQS) = 0 ->
  Z.land (hw_imr (regs s')) (Z.lnot US_OVRE_RXRDY_IRQS) = 0.
Proof.
  intros Hlock H Himr.
  destruct q as [a | p].
  2: { rewrite on_full_event_armed in H.
       destruct (on_event e p s) as [[p1 s1] |] eqn:E; [| discriminate].
       injection H as _ <-. eapply on_event_imr; eauto. }
  destruct e as [| | csr rhr].
  - destruct s as [ct rg lk iq txr rxr clk st xf jr].
    cbn [on_full_event transfer_one_full_step] in H.
    apply arm_step_inv in H
      as [(_ & _ & _ & ->) | [(_ & _ & ->) | [(_ & _ & ->)
         | [(_ & _ & ->) | (_ & _ & ->)]]]];
      cbn [regs] in *; exact Himr.
  - rewrite on_full_event_interrupt in H.
    destruct (at91_usart_spi_interrupt s) as [[r s1] |] eqn:Ei;
      [| discriminate].
    injection H as _ <-.
    apply (on_event_imr Interrupt AtCond s AtCond s1 Hlock); [| exact Himr].
    rewrite on_event_interrupt, Ei. reflexivity.
  - destruct s as [ct rg lk iq txr rxr clk st xf jr].
    rewrite on_full_event_hardware in H. injection H as _ <-.
    destruct rg. exact Himr.
Qed.

Lemma full_run_imr sched :
  forall q s q' s',
    full_in_flight xfer q s ->
    full_run xfer sched q s = Ok (q', s') ->
    Z.land (hw_imr (regs s)) (Z.lnot US_OVRE_RXRDY_IRQS) = 0 ->
    Z.land (hw_imr (regs s')) (Z.lnot US_OVRE_RXRDY_IRQS) = 0.
Proof.
  induction sched as [| e sched IH]; intros q s q' s' Hin H Himr.
  - injection H as _ <-. exact Himr.
  - rewrite full_run_cons in H.
    destruct (on_full_event xfer e q s) as [[q1 s1] |] eqn:E;
      [| discriminate].
    eapply (IH q1 s1); [| exact H |].
    + eapply on_full_event_in_flight; eauto.
    + eapply on_full_event_imr; [| exact E | exact Himr].
      destruct q; [apply Hin | apply (fl_lock _ _ _ Hin)].
Qed.

(** Once the failure flag is set after the polling context has cleared it
    for this transfer, and with no interrupt source enabled, an admissible
    event is not a run of the handler; it stores nothing into the receive
    buffer and takes the polling context towards its return statement. *)
Lemma full_quiet_event e q s :
  full_in_flight xfer q s ->
  flag_cleared q = true -> xfer_failed s = true -> hw_imr (regs s) = 0 ->
  full_admissible xfer [e] q s = true ->
  e <> Interrupt
  /\ exists q' s' es,
       on_full_event xfer e q s = Ok (q', s')
       /\ flag_cleared q' = true /\ xfer_failed s' = true
       /\ hw_imr (regs s') = 0
       /\ appended s s' es /\ existsb stores_rx_buf es = false
       /\ bytes_received xfer q' s' = bytes_received xfer q s
       /\ (forall p, q = Armed p ->
             current_transfer s' = current_transfer s
             /\ current_rx_remaining_bytes s'
                = current_rx_remaining_bytes s)
       /\ (full_steps_to_return q'
           <= full_steps_to_return q - polls [e])%nat.
Proof.
  intros Hin Hfc Hf Himr Hadm. pose proof xfer_wf as [Hlen _ _ _].
  cbn [full_admissible] in Hadm. apply andb_true_iff in Hadm as [Hirq _].
  destruct e as [| | csr rhr].
  - split; [discriminate |].
    destruct q as [a | p].
    + destruct s as [ct rg lk iq txr rxr clk st xf jr].
      cbn [xfer_failed regs] in *. subst xf.
      destruct a; try discriminate Hfc;
        cbn [on_full_event transfer_one_full_step transfer_one_arm_step].
      * eexists _, _, [(lk, Store FCurrentTransfer)].
        split; [reflexivity |]. repeat split; auto; try discriminate.
      * eexists _, _, [(lk, Store FTxRemaining)].
        split; [reflexivity |]. repeat split; auto; try discriminate.
      * eexists _, _, [(lk, Store FRxRemaining)].
        split; [reflexivity |]. repeat split; auto; try discriminate.
        cbn [bytes_received current_rx_remaining_bytes set_rx_remaining].
        rewrite u32_small by assumption. lia.
    + cbn [full_in_flight] in Hin.
      destruct (poll_total xfer xfer_wf p s Hin) as (p1 & s1 & E).
      pose proof (poll_frame _ _ _ _ E)
        as (Er & Ef & Ec & _ & Ei & _ & _ & _ & es1 & Ha & _ & Hs & _).
      exists (Armed p1), s1, es1.
      rewrite on_full_event_armed. cbn [on_event]. rewrite E.
      split; [reflexivity |]. split; [reflexivity |].
      split; [congruence |]. split; [congruence |].
      split; [exact Ha |]. split; [exact Hs |].
      split; [cbn [bytes_received]; congruence |].
      split; [intros p' _; auto |].
      pose proof (steps_to_return_failed _ _ _ _ Hf E).
      cbn [full_steps_to_return polls]. lia.
  - exfalso. unfold irq_pending in Hirq. rewrite Himr in Hirq.
    rewrite Z.land_0_r in Hirq. discriminate.
  - split; [discriminate |].
    destruct s as [ct rg lk iq txr rxr clk st xf jr].
    rewrite on_full_event_hardware. eexists _, _, [].
    split; [reflexivity |].
    cbn [xfer_failed regs] in *. destruct rg as [cr mr imr cs rh thr br ver].
    cbn [hw_imr hw_present] in *.
    repeat split; auto. cbn [polls]. lia.
Qed.

Lemma full_admissible_head xfer' e post q s :
  full_admissible xfer' (e :: post) q s = true ->
  full_admissible xfer' [e] q s = true.
Proof.
  cbn [full_admissible]. intros H. apply andb_true_iff in H as [-> _].
  destruct (on_full_event xfer' e q s) as [[] |]; reflexivity.
Qed.

Lemma full_quiet_run post :
  forall q s,
    full_in_flight xfer q s ->
    flag_cleared q = true -> xfer_failed s = true -> hw_imr (regs s) = 0 ->
    full_admissible xfer post q s = true ->
    handler_runs post = 0%nat
    /\ exists q' s' es,
         full_run xfer post q s = Ok (q', s')
         /\ full_in_flight xfer q' s'
         /\ xfer_failed s' = true
         /\ appended s s' es /\ existsb stores_rx_buf es = false
         /\ bytes_received xfer q' s' = bytes_received xfer q s
         /\ (forall p, q = Armed p ->
               current_transfer s' = current_transfer s
               /\ current_rx_remaining_bytes s'
                  = current_rx_remaining_bytes s)
         /\ (full_steps_to_return q'
             <= full_steps_to_return q - polls post)%nat.
Proof.
  induction post as [| e post IH]; intros q s Hin Hfc Hf Himr Hadm.
  - split; [reflexivity |]. exists q, s, [].
    split; [reflexivity |]. repeat split; auto. cbn [polls]. lia.
  - destruct (full_quiet_event e q s Hin Hfc Hf Himr
                (full_admissible_head _ _ _ _ _ Hadm))
      as (Hne & q1 & s1 & es1 & E & Hfc1 & Hf1 & Himr1 & Ha1 & Hs1 & Hb1
          & Hk1 & Hn1).
    cbn [full_admissible] in Hadm. rewrite E in Hadm.
    apply andb_true_iff in Hadm as [_ Hadm].
    assert (Hin1 : full_in_flight xfer q1 s1)
      by (eapply on_full_event_in_flight; eauto).
    destruct (IH q1 s1 Hin1 Hfc1 Hf1 Himr1 Hadm)
      as (Hh & q' & s' & es & Hrun & Hin' & Hf' & Ha' & Hs' & Hb' & Hk' & Hn').
    split; [destruct e; [exact Hh | contradiction | exact Hh] |].
    exists q', s', (es1 ++ es). rewrite full_run_cons, E.
    split; [exact Hrun |]. split; [exact Hin' |]. split; [exact Hf' |].
    split; [eapply appended_trans; eauto |].
    split; [rewrite existsb_app, Hs1, Hs'; reflexivity |].
    split; [congruence |].
    split.
    + intros p ->. destruct (Hk1 p eq_refl) as [Hc1 Hr1].
      assert (Hq1 : exists p1, q1 = Armed p1).
      { rewrite on_full_event_armed in E.
        destruct (on_event e p s) as [[p1 s1'] |]; [| discriminate].
        injection E as <- _. eauto. }
      destruct Hq1 as [p1 ->].
      destruct (Hk' p1 eq_refl) as [Hc' Hr']. split; congruence.
    + assert (Hp : polls (e :: post) = (polls [e] + polls post)%nat)
        by (destruct e; reflexivity).
      rewrite Hp. lia.
Qed.

(** ** Overrun *)

(** C3 (amended): for every transfer of length N during which an overrun
    is signalled after exactly K bytes (0 <= K < N) have been received,
    when the handler processes the overrun after [transfer_one] has
    cleared the failure flag for this transfer, and with no interrupt
    source enabled but the two the driver itself enables: the handler
    flags the failure and masks both sources, after which no run of the
    handler happens any more, so nothing is stored into the receive buffer
    (at index K or anywhere else) and the number of bytes received stays
    K; and [transfer_one] returns the transmission error -EIO, at the
    latest four steps of the polling context after the overrun when the
    transfer was armed already and five steps when it was being armed.
    The handler may have run at any point before, between the arming
    statements as well. *)
Theorem overrun_aborts_transfer (s0 : at91_usart_spi)
    (pre post : list event) (q1 : full_pc) (s1 : at91_usart_spi) (K : Z) :
  lock s0 = false ->
  Z.land (hw_imr (regs s0)) (Z.lnot US_OVRE_RXRDY_IRQS) = 0 ->
  full_run xfer pre (Arming AtSetSpeed) s0 = Ok (q1, s1) ->
  flag_cleared q1 = true ->
  bytes_received xfer q1 s1 = K -> 0 <= K < len xfer ->
  Z.testbit (hw_csr (regs s1)) 5 = true ->
  full_admissible xfer (Interrupt :: post) q1 s1 = true ->
  exists q2 s2 es,
    full_run xfer (Interrupt :: post) q1 s1 = Ok (q2, s2)
    /\ xfer_failed s2 = true
    /\ handler_runs post = 0%nat
    /\ appended s1 s2 es
    /\ existsb stores_rx_buf es = false
    /\ bytes_received xfer q2 s2 = K
    /\ (forall p1, q1 = Armed p1 ->
          current_transfer s2 = current_transfer s1
          /\ current_rx_remaining_bytes s2 = len xfer - K)
    /\ (forall ret, full_returned q2 = Some ret -> ret = - EIO)
    /\ ((full_steps_to_return q1 <= polls post)%nat ->
        full_returned q2 = Some (- EIO))
    /\ (full_steps_to_return q1 <= 5)%nat
    /\ (forall p1, q1 = Armed p1 -> (full_steps_to_return q1 <= 4)%nat).
Proof.
  intros Hlock Himr0 Hpre Hfc HK HKN Hov Hadm.
  pose proof (full_reachable_in_flight _ _ _ _ Hlock Hpre) as Hin.
  assert (Himr : Z.land (hw_imr (regs s1)) (Z.lnot US_OVRE_RXRDY_IRQS) = 0).
  { eapply full_run_imr; [| exact Hpre | exact Himr0].
    split; [exact Hlock | exact I]. }
  assert (Hl : lock s1 = false)
    by (destruct q1; [apply Hin | apply (fl_lock _ _ _ Hin)]).
  destruct s1 as [ct rg lk iq txr rxr clk st xf jr].
  cbn [lock] in Hl. subst lk. cbn [regs] in Hov, Himr.
  pose proof (interrupt_overrun ct rg iq txr rxr clk st xf jr Hov) as Eirq.
  set (s1' := mk_aus ct
                (hw_writel US_IDR (u32 (Z.lor US_IR_OVRE US_IR_RXRDY)) rg)
                false iq txr rxr clk (u32 (u32 (hw_csr rg))) true
                (rev (journal_overrun (u32 (hw_csr rg))) ++ jr)) in *.
  assert (Estep : on_full_event xfer Interrupt q1
                    (mk_aus ct rg false iq txr rxr clk st xf jr)
                  = Ok (q1, s1')).
  { rewrite on_full_event_interrupt, Eirq. reflexivity. }
  assert (Hin' : full_in_flight xfer q1 s1')
    by (eapply on_full_event_in_flight; eauto).
  cbn [full_admissible] in Hadm. rewrite Estep in Hadm.
  apply andb_true_iff in Hadm as [_ Hadm].
  destruct (full_quiet_run post q1 s1' Hin' Hfc eq_refl) as
    (Hh & q2 & s2 & es & Hrun & Hin2 & Hf & Ha & Hs & Hb & Hk & Hn);
    [| exact Hadm |].
  { destruct rg. exact Himr. }
  assert (Hb1 : bytes_received xfer q1 s1' = K)
    by (rewrite <- HK; destruct q1; reflexivity).
  exists q2, s2, (journal_overrun (u32 (hw_csr rg)) ++ es).
  split; [rewrite full_run_cons, Estep; exact Hrun |].
  split; [exact Hf |]. split; [exact Hh |].
  split.
  { apply (appended_trans _ s1' _ (journal_overrun (u32 (hw_csr rg))) es);
      [reflexivity | exact Ha]. }
  split; [rewrite existsb_app, Hs; reflexivity |].
  split; [congruence |].
  split.
  { intros p1 ->. destruct (Hk p1 eq_refl) as [Hc Hr].
    split; [exact Hc |]. rewrite Hr.
    cbn [bytes_received current_rx_remaining_bytes s1'] in *. lia. }
  assert (Hret : forall ret, full_returned q2 = Some ret -> ret = - EIO).
  { intros ret Hr. destruct q2 as [a | p2]; [discriminate |].
    destruct p2; try discriminate. injection Hr as ->.
    cbn [full_in_flight] in Hin2.
    destruct (fl_loop _ _ _ Hin2) as [[? _] | (_ & _ & Hz)]; [assumption |].
    rewrite Hb1 in Hb. cbn [bytes_received] in Hb. lia. }
  split; [exact Hret |].
  split.
  { intros Hpolls.
    assert (Hzero : full_steps_to_return q2 = 0%nat) by lia.
    destruct q2 as [a | p2]; [destruct a; discriminate Hzero |].
    destruct p2; try discriminate Hzero.
    cbn [full_returned returned]. f_equal. now apply Hret. }
  split.
  - destruct q1 as [[] | []]; try discriminate Hfc; cbn; lia.
  - intros p1 ->. destruct p1; cbn; lia.
Qed.

(** ** An overrun during arming *)

(** With no interrupt source enabled, an admissible event keeps a transfer
    that cannot end from ending. *)
Lemma full_event_masked e q s :
  full_in_flight xfer q s -> 0 < len xfer ->
  hw_imr (regs s) = 0 -> cannot_end xfer q s ->
  full_admissible xfer [e] q s = true ->
  e <> Interrupt
  /\ exists q' s',
       on_full_event xfer e q s = Ok (q', s')
       /\ hw_imr (regs s') = 0 /\ cannot_end xfer q' s'.
Proof.
  intros Hin Hlen Himr Hce Hadm. pose proof xfer_wf as [Hl _ _ Hsp].
  destruct e as [| | csr rhr].
  - split; [discriminate |].
    destruct q as [a | p].
    + destruct s as [ct rg lk iq txr rxr clk st xf jr].
      cbn [regs] in Himr. unfold cannot_end in *. cbn [xfer_failed] in Hce.
      cbn [on_full_event transfer_one_full_step].
      destruct a; [| cbn [transfer_one_arm_step] ..].
      * rewrite arm_step_speed by (rewrite u32_small; lia).
        eexists _, _. split; [reflexivity |].
        split; [destruct rg; exact Himr | discriminate].
      * eexists _, _. split; [reflexivity |]. split; [exact Himr | auto].
      * eexists _, _. split; [reflexivity |]. split; [exact Himr | auto].
      * eexists _, _. split; [reflexivity |]. split; [exact Himr | auto].
      * eexists _, _. split; [reflexivity |]. split; [exact Himr |].
        cbn [xfer_failed current_rx_remaining_bytes set_rx_remaining].
        split; [auto |]. split; [now apply u32_small |].
        split; [intros ret; discriminate | discriminate].
    + destruct Hce as (Hf & Hrx & Hret & Hchk). cbn [full_in_flight] in Hin.
      destruct (on_event_masked xfer xfer_wf Poll p s Hin Hf Himr Hrx Hlen
                  Hret Hchk)
        as (p' & s' & E & Hf' & Himr' & Hrx' & _ & Hret' & Hchk').
      { rewrite full_admissible_armed in Hadm. exact Hadm. }
      exists (Armed p'), s'. rewrite on_full_event_armed, E.
      split; [reflexivity |]. split; [exact Himr' |].
      repeat split; auto.
  - exfalso. cbn [full_admissible] in Hadm.
    apply andb_true_iff in Hadm as [Hirq _].
    unfold irq_pending in Hirq. rewrite Himr in Hirq.
    rewrite Z.land_0_r in Hirq. discriminate.
  - split; [discriminate |].
    destruct s as [ct rg lk iq txr rxr clk st xf jr].
    rewrite on_full_event_hardware. eexists _, _. split; [reflexivity |].
    split; [destruct rg; exact Himr |].
    destruct q; exact Hce.
Qed.

Lemma full_run_masked post :
  forall q s,
    full_in_flight xfer q s -> 0 < len xfer ->
    hw_imr (regs s) = 0 -> cannot_end xfer q s ->
    full_admissible xfer post q s = true ->
    handler_runs post = 0%nat
    /\ exists q' s',
         full_run xfer post q s = Ok (q', s')
         /\ hw_imr (regs s') = 0 /\ cannot_end xfer q' s'.
Proof.
  induction post as [| e post IH]; intros q s Hin Hlen Himr Hce Hadm.
  - split; [reflexivity |]. exists q, s. auto.
  - destruct (full_event_masked e q s Hin Hlen Himr Hce
                (full_admissible_head _ _ _ _ _ Hadm))
      as (Hne & q1 & s1 & E & Himr1 & Hce1).
    cbn [full_admissible] in Hadm. rewrite E in Hadm.
    apply andb_true_iff in Hadm as [_ Hadm].
    assert (Hin1 : full_in_flight xfer q1 s1)
      by (eapply on_full_event_in_flight; eauto).
    destruct (IH q1 s1 Hin1 Hlen Himr1 Hce1 Hadm)
      as (Hh & q' & s' & Hrun & Himr' & Hce').
    split; [destruct e; [exact Hh | contradiction | exact Hh] |].
    exists q', s'. rewrite full_run_cons, E. auto.
Qed.

(** X24: for every well-formed transfer of nonzero length entered with no
    interrupt source enabled but overrun and receive-ready, and with the
    handler running only while an enabled source is pending: an overrun
    that the handler processes before [transfer_one] has cleared the
    failure flag (before its second statement) is lost.  The handler
    sets the flag and masks both sources; whatever follows, the handler
    does not run again, the flag is clear once the second statement has
    run, the receive counter stands at len once the transfer is armed, and
    [transfer_one] has not returned at the end of the schedule. *)
Theorem overrun_while_arming_is_lost (s0 : at91_usart_spi)
    (pre post : list event) (q1 : full_pc) (s1 : at91_usart_spi) :
  lock s0 = false -> 0 < len xfer ->
  Z.land (hw_imr (regs s0)) (Z.lnot US_OVRE_RXRDY_IRQS) = 0 ->
  full_run xfer pre (Arming AtSetSpeed) s0 = Ok (q1, s1) ->
  flag_cleared q1 = false ->
  Z.testbit (hw_csr (regs s1)) 5 = true ->
  full_admissible xfer (Interrupt :: post) q1 s1 = true ->
  exists sh q2 s2,
    at91_usart_spi_interrupt s1 = Ok (IRQ_HANDLED, sh)
    /\ xfer_failed sh = true
    /\ hw_imr (regs sh) = 0
    /\ full_run xfer post q1 sh = Ok (q2, s2)
    /\ handler_runs post = 0%nat
    /\ full_returned q2 = None
    /\ hw_imr (regs s2) = 0
    /\ (flag_cleared q2 = true -> xfer_failed s2 = false)
    /\ (forall p, q2 = Armed p -> current_rx_remaining_bytes s2 = len xfer).
Proof.
  intros Hlock Hlen Himr0 Hpre Hfc Hov Hadm.
  pose proof (full_reachable_in_flight _ _ _ _ Hlock Hpre) as Hin.
  assert (Himr : Z.land (hw_imr (regs s1)) (Z.lnot US_OVRE_RXRDY_IRQS) = 0).
  { eapply full_run_imr; [| exact Hpre | exact Himr0].
    split; [exact Hlock | exact I]. }
  assert (Hl : lock s1 = false)
    by (destruct q1; [apply Hin | apply (fl_lock _ _ _ Hin)]).
  destruct s1 as [ct rg lk iq txr rxr clk st xf jr].
  cbn [lock] in Hl. subst lk. cbn [regs] in Hov, Himr.
  pose proof (interrupt_overrun ct rg iq txr rxr clk st xf jr Hov) as Eirq.
  set (sh := mk_aus ct
               (hw_writel US_IDR (u32 (Z.lor US_IR_OVRE US_IR_RXRDY)) rg)
               false iq txr rxr clk (u32 (u32 (hw_csr rg))) true
               (rev (journal_overrun (u32 (hw_csr rg))) ++ jr)) in *.
  assert (Estep : on_full_event xfer Interrupt q1
                    (mk_aus ct rg false iq txr rxr clk st xf jr)
                  = Ok (q1, sh)).
  { rewrite on_full_event_interrupt, Eirq. reflexivity. }
  assert (Hin' : full_in_flight xfer q1 sh)
    by (eapply on_full_event_in_flight; eauto).
  cbn [full_admissible] in Hadm. rewrite Estep in Hadm.
  apply andb_true_iff in Hadm as [_ Hadm].
  assert (Himr' : hw_imr (regs sh) = 0) by (destruct rg; exact Himr).
  destruct (full_run_masked post q1 sh Hin' Hlen Himr')
    as (Hh & q2 & s2 & Hrun & Himr2 & Hce); [| exact Hadm |].
  { destruct q1 as [a | p]; [| discriminate Hfc].
    unfold cannot_end. rewrite Hfc. discriminate. }
  exists sh, q2, s2. split; [exact Eirq |]. split; [reflexivity |].
  split; [exact Himr' |]. split; [exact Hrun |]. split; [exact Hh |].
  split.
  { destruct q2 as [a | p]; [reflexivity |].
    destruct Hce as (_ & _ & Hret & _).
    destruct p; try reflexivity. now destruct (Hret ret). }
  split; [exact Himr2 |].
  split.
  - destruct q2 as [a | p]; [exact Hce | intros _; apply Hce].
  - intros p ->. apply Hce.
Qed.

End Arming.

(** ** Arming that the handler does not disturb *)

Lemma rhr_reads_app es es' :
  rhr_reads (es ++ es') = rhr_reads es ++ rhr_reads es'.
Proof. unfold rhr_reads. apply omap_app. Qed.

(** A run of the handler while the receive side is at rest takes no byte
    and leaves transfer and cursor alone. *)
Lemma interrupt_at_rest x rg iq txr clk st xf jr :
  exists r rg' st' xf' es,
    at91_usart_spi_interrupt (mk_aus (Some x) rg false iq txr 0 clk st xf jr)
    = Ok (r, mk_aus (Some x) rg' false iq txr 0 clk st' xf' (rev es ++ jr))
    /\ rhr_reads es = []
    /\ hw_thr rg' = hw_thr rg.
Proof.
  destruct (Z.testbit (hw_csr rg) 5) eqn:Hov.
  { rewrite interrupt_overrun by assumption.
    eexists _, _, _, _, (journal_overrun _). split; [reflexivity |].
    split; [reflexivity | destruct rg; reflexivity]. }
  destruct (Z.testbit (hw_csr rg) 0) eqn:Hrdy.
  - rewrite interrupt_rx_idle by assumption.
    eexists _, _, _, _, (journal_idle _). split; [reflexivity |].
    split; reflexivity.
  - rewrite interrupt_none by assumption.
    eexists _, _, _, _, (journal_idle _). split; [reflexivity |].
    split; reflexivity.
Qed.

Section SafeArming.

Variable xfer : spi_transfer.
Hypothesis xfer_wf : xfer_ok xfer.

(** An event while the transfer is being armed, when the handler does not
    disturb the arming: it does not fault, reads no byte from the device
    and sends none, and unless it is a step of the polling context it
    leaves the transfer installed and the cursor as they are. *)
Lemma safe_arming_event e a s sched :
  lock s = false ->
  arming_safe (Arming a) s (e :: sched) ->
  exists q' s' es,
    on_full_event xfer e (Arming a) s = Ok (q', s')
    /\ arming_safe q' s' sched
    /\ appended s s' es /\ rhr_reads es = []
    /\ hw_thr (regs s') = hw_thr (regs s)
    /\ (e = Poll
        \/ (q' = Arming a
            /\ current_transfer s' = current_transfer s
            /\ current_tx_remaining_bytes s' = current_tx_remaining_bytes s
            /\ current_rx_remaining_bytes s'
               = current_rx_remaining_bytes s)).
Proof.
  intros Hlock Hsafe. pose proof xfer_wf as [Hlen _ _ Hsp].
  destruct s as [ct rg lk iq txr rxr clk st xf jr].
  cbn [lock] in Hlock. subst lk.
  unfold arming_safe, receiver_at_rest in Hsafe.
  cbn [current_transfer current_rx_remaining_bytes] in Hsafe.
  destruct e as [| | csr rhr].
  - assert (Hsafe' : forall ct' rg' txr' xf' jr' a',
              arm_steps_left (Arming a) = S (arm_steps_left (Arming a')) ->
              (ct <> None -> ct' <> None) ->
              arming_safe (Arming a')
                (mk_aus ct' rg' false iq txr' rxr clk st xf' jr') sched).
    { intros ct' rg' txr' xf' jr' a' Ea Hct.
      unfold arming_safe, receiver_at_rest.
      cbn [current_transfer current_rx_remaining_bytes].
      destruct Hsafe as [[Hc Hr] | Hw]; [left; auto | right].
      rewrite Ea in Hw. exact Hw. }
    cbn [on_full_event transfer_one_full_step].
    destruct a; cbn [transfer_one_arm_step].
    + eexists _, _, [(false, Writel US_BRGR _)].
      split; [apply arm_step_speed; rewrite u32_small; lia |].
      split; [apply Hsafe'; auto |].
      split; [reflexivity |]. split; [reflexivity |].
      split; [destruct rg; reflexivity | now left].
    + eexists _, _, [(false, Store FXferFailed)].
      split; [reflexivity |]. split; [apply Hsafe'; auto |].
      repeat split; auto.
    + eexists _, _, [(false, Store FCurrentTransfer)].
      split; [reflexivity |].
      split; [apply Hsafe'; [reflexivity | discriminate] |].
      repeat split; auto.
    + eexists _, _, [(false, Store FTxRemaining)].
      split; [reflexivity |]. split; [apply Hsafe'; auto |].
      repeat split; auto.
    + eexists _, _, [(false, Store FRxRemaining)].
      split; [reflexivity |]. split; [exact I |].
      repeat split; auto.
  - destruct Hsafe as [[Hc Hr] | Hw]; [| destruct a; discriminate Hw].
    subst rxr. destruct ct as [x |]; [| contradiction].
    destruct (interrupt_at_rest x rg iq txr clk st xf jr)
      as (r & rg' & st' & xf' & es & Ei & Hreads & Hthr).
    rewrite on_full_event_interrupt, Ei.
    eexists _, _, es. split; [reflexivity |].
    split; [left; split; [discriminate | reflexivity] |].
    split; [reflexivity |]. split; [exact Hreads |].
    split; [exact Hthr |]. right. auto.
  - rewrite on_full_event_hardware. eexists _, _, [].
    split; [reflexivity |].
    split.
    { unfold arming_safe, receiver_at_rest.
      cbn [current_transfer current_rx_remaining_bytes].
      destruct Hsafe as [? | Hw]; [now left | right].
      destruct a; exact Hw. }
    split; [reflexivity |]. split; [reflexivity |].
    split; [destruct rg; reflexivity |]. right. auto.
Qed.

(** The receive step computes in [int]: from here on the length fits. *)
Hypothesis xfer_fits_int : len xfer <= INT_MAX.

Lemma full_run_total sched :
  forall q s,
    full_in_flight xfer q s -> arming_safe q s sched ->
    exists q' s', full_run xfer sched q s = Ok (q', s').
Proof.
  induction sched as [| e sched IH]; intros q s Hin Hsafe.
  - exists q, s. reflexivity.
  - destruct q as [a | p].
    + destruct (safe_arming_event e a s sched (proj1 Hin) Hsafe)
        as (q1 & s1 & es & E & Hsafe1 & _).
      rewrite full_run_cons, E. apply IH; [| exact Hsafe1].
      eapply on_full_event_in_flight; eauto.
    + rewrite full_run_armed.
      destruct (run_total xfer xfer_wf xfer_fits_int (e :: sched) p s Hin)
        as (p' & s' & -> & _).
      eauto.
Qed.

(** X1: a transfer with buffers of its length, a speed that is not zero
    and at most 2^31 - 1 bytes is carried out without a fault (no NULL
    dereference, no access outside a buffer, no division by zero, no
    deadlock on the lock), whatever the device shows and whenever the
    handler runs, between the arming statements as well, provided the
    receive side is at rest when [transfer_one] is entered (a transfer is
    installed and its receive counter is zero, as after a transfer that
    was received in full); and on any controller, the very first transfer
    included, provided the handler does not run before the five arming
    statements are done. *)
Theorem transfer_never_faults (s0 : at91_usart_spi) (sched : list event) :
  lock s0 = false ->
  receiver_at_rest s0 \/ handler_waits 5 sched = true ->
  exists q s, full_run xfer sched (Arming AtSetSpeed) s0 = Ok (q, s).
Proof.
  intros Hlock Hsafe. apply full_run_total; [| exact Hsafe].
  split; [exact Hlock | exact I].
Qed.

(** An event keeps the receive buffer in step with the bytes read. *)
Lemma full_event_received s0 es e q s sched q' s' :
  full_in_flight xfer q s ->
  arming_safe q s (e :: sched) ->
  appended s0 s es ->
  receive_invariant xfer q s es ->
  on_full_event xfer e q s = Ok (q', s') ->
  exists es',
    appended s0 s' es'
    /\ receive_invariant xfer q' s' es'
    /\ arming_safe q' s' sched.
Proof.
  intros Hin Hsafe Ha [Hn Hinv] H. pose proof xfer_wf as [Hlen _ _ _].
  destruct q as [a | p].
  - destruct (safe_arming_event e a s sched (proj1 Hin) Hsafe)
      as (q1 & s1 & es1 & E & Hsafe1 & Ha1 & Hr1 & _ & Hcase).
    rewrite E in H. injection H as <- <-.
    exists (es ++ es1). split; [eapply appended_trans; eauto |].
    split; [| exact Hsafe1].
    assert (Hreads : rhr_reads (es ++ es1) = rhr_reads es)
      by (rewrite rhr_reads_app, Hr1; apply app_nil_r).
    unfold receive_invariant. rewrite Hreads.
    cbn [bytes_received] in Hn.
    destruct Hcase as [-> | (-> & Hc & _ & Hr)].
    + destruct s as [ct rg lk iq txr rxr clk st xf jr].
      cbn [on_full_event transfer_one_full_step] in E.
      apply arm_step_inv in E
        as [(-> & -> & _ & ->) | [(-> & -> & ->) | [(-> & -> & ->)
           | [(-> & -> & ->) | (-> & -> & ->)]]]];
        cbn [bytes_received current_transfer current_rx_remaining_bytes]
          in *; auto.
      rewrite u32_small by assumption. split; [lia |].
      exists xfer. split; [exact Hinv |].
      destruct (rhr_reads es); [| cbn [length] in Hn; lia].
      rewrite Z.sub_diag. reflexivity.
    + cbn [bytes_received]. split; [exact Hn |].
      destruct a; auto; congruence.
  - cbn [full_in_flight] in Hin. destruct Hinv as (x & Hct & Hbuf).
    rewrite on_full_event_armed in H.
    destruct (on_event e p s) as [[p1 s1] |] eqn:E; [| discriminate].
    injection H as <- <-.
    destruct (on_event_received xfer xfer_wf xfer_fits_int s0 es e p s p1 s1
                Hin Ha (ex_intro _ x (conj Hct Hbuf)) Hn E)
      as (es' & Ha' & Hbuf' & Hn').
    exists es'. split; [exact Ha' |]. split; [| exact I].
    split; [exact Hn' | exact Hbuf'].
Qed.

Lemma full_run_received s0 sched :
  forall es q s q' s',
    full_in_flight xfer q s ->
    arming_safe q s sched ->
    appended s0 s es ->
    receive_invariant xfer q s es ->
    full_run xfer sched q s = Ok (q', s') ->
    exists es', appended s0 s' es' /\ receive_invariant xfer q' s' es'.
Proof.
  induction sched as [| e sched IH]; intros es q s q' s' Hin Hsafe Ha Hinv H.
  - injection H as <- <-. eauto.
  - rewrite full_run_cons in H.
    destruct (on_full_event xfer e q s) as [[q1 s1] |] eqn:E;
      [| discriminate].
    destruct (full_event_received s0 es e q s sched q1 s1 Hin Hsafe Ha Hinv E)
      as (es1 & Ha1 & Hinv1 & Hsafe1).
    eapply (IH es1 q1 s1); eauto.
    eapply on_full_event_in_flight; eauto.
Qed.

(** X4: for every well-formed transfer of at most 2^31 - 1 bytes, entered
    with the receive side at rest or armed before the handler first runs,
    in every state it can reach under any interleaving of the statements
    of [transfer_one], runs of the handler and changes of the device: the
    handler has read exactly as many bytes from the data-in register as
    the cursor says (none while the transfer is being armed), and the
    receive buffer holds them in its first places, in the order they were
    read, and beyond them what it held before; when [transfer_one] has
    returned 0 the buffer is exactly the len bytes read. *)
Theorem receive_in_order (s0 : at91_usart_spi) (sched : list event)
    (q : full_pc) (s : at91_usart_spi) :
  lock s0 = false ->
  receiver_at_rest s0 \/ handler_waits 5 sched = true ->
  full_run xfer sched (Arming AtSetSpeed) s0 = Ok (q, s) ->
  exists es,
    appended s0 s es
    /\ Z.of_nat (length (rhr_reads es)) = bytes_received xfer q s
    /\ (forall p,
          q = Armed p ->
          exists x,
            current_transfer s = Some x
            /\ rx_buf x
               = rhr_reads es
                 ++ drop (Z.to_nat (len xfer - current_rx_remaining_bytes s))
                      (rx_buf xfer))
    /\ (full_returned q = Some 0 ->
        exists x,
          current_transfer s = Some x
          /\ rx_buf x = rhr_reads es
          /\ Z.of_nat (length (rhr_reads es)) = len xfer).
Proof.
  intros Hlock Hsafe H. pose proof xfer_wf as [Hlen _ Hrb _].
  pose proof (full_reachable_in_flight xfer xfer_wf _ _ _ _ Hlock H) as Hin.
  destruct (full_run_received s0 sched [] (Arming AtSetSpeed) s0 q s)
    as (es & Ha & Hn & Hinv); auto.
  { split; [exact Hlock | exact I]. }
  { apply appended_refl. }
  { split; [reflexivity | exact I]. }
  exists es. split; [exact Ha |]. split; [exact Hn |].
  split.
  - intros p ->. exact Hinv.
  - intros Hret. destruct q as [a | p]; [discriminate |].
    destruct p; try discriminate. injection Hret as ->.
    destruct Hinv as (x & Hct & Hbuf). cbn [full_in_flight] in Hin.
    destruct (fl_loop _ _ _ Hin) as [[E _] | (_ & _ & Hz)];
      [vm_compute in E; discriminate |].
    cbn [bytes_received] in Hn. rewrite Hz in *. rewrite Z.sub_0_r in *.
    rewrite drop_ge, app_nil_r in Hbuf by lia.
    exists x. auto.
Qed.

End SafeArming.

(** ** What has been sent *)

Section Sending.

Variable xfer : spi_transfer.
Hypothesis xfer_wf : xfer_ok xfer.




End Sending.

(** ** What a transfer leaves alone *)

(** An event leaves the configuration of the device alone, except that
    the first arming statement programs the divider and that a run of the
    handler may mask the two receive sources. *)
Lemma on_full_event_config xfer e q s q' s' :
  lock s = false ->
  on_full_event xfer e q s = Ok (q', s') ->
  lock s' = false
  /\ hw_mr (regs s') = hw_mr (regs s)
  /\ hw_cr (regs s') = hw_cr (regs s)
  /\ spi_clk s' = spi_clk s
  /\ (hw_imr (regs s') = hw_imr (regs s)
      \/ hw_imr (regs s')
         = Z.land (hw_imr (regs s)) (Z.lnot US_OVRE_RXRDY_IRQS))
  /\ ((q = Arming AtSetSpeed /\ q' = Arming AtClearFailed
       /\ hw_brgr (regs s')
          = u32 (DIV_ROUND_UP 32 (u32 (spi_clk s)) (u32 (speed_hz xfer))))
      \/ ((q = Arming AtSetSpeed <-> q' = Arming AtSetSpeed)
          /\ hw_brgr (regs s') = hw_brgr (regs s))).
Proof.
  intros Hlock H. destruct s as [ct rg lk iq txr rxr clk st xf jr].
  cbn [lock regs spi_clk] in *. subst lk.
  destruct rg as [cr mr imr cs rh thr brgr ver].
  assert (Hirq : forall r s1,
            at91_usart_spi_interrupt
              (mk_aus ct (mk_usart cr mr imr cs rh thr brgr ver) false iq
                 txr rxr clk st xf jr) = Ok (r, s1) ->
            lock s1 = false
            /\ hw_mr (regs s1) = mr /\ hw_cr (regs s1) = cr
            /\ spi_clk s1 = clk
            /\ (hw_imr (regs s1) = imr
                \/ hw_imr (regs s1)
                   = Z.land imr (Z.lnot US_OVRE_RXRDY_IRQS))
            /\ hw_brgr (regs s1) = brgr).
  { intros r s1 Ei.
    apply interrupt_inv in Ei
      as [(_ & _ & ->) | [(_ & _ & _ & y & _ & _ & ->)
         | [(_ & _ & _ & y & i & _ & _ & _ & _ & ->) | (_ & _ & _ & ->)]]];
      cbn [lock regs spi_clk hw_writel hw_mr hw_cr hw_brgr hw_imr];
      repeat split; auto. }
  destruct q as [a | p].
  - destruct e as [| | csr rhr].
    + cbn [on_full_event transfer_one_full_step] in H.
      apply arm_step_inv in H
        as [(-> & -> & _ & ->) | [(-> & -> & ->) | [(-> & -> & ->)
           | [(-> & -> & ->) | (-> & -> & ->)]]]];
        cbn [lock regs spi_clk hw_writel hw_mr hw_cr hw_brgr hw_imr];
        repeat split; auto;
        right; (split; [split; discriminate | reflexivity]).
    + rewrite on_full_event_interrupt in H.
      destruct (at91_usart_spi_interrupt _) as [[r s1] |] eqn:Ei;
        [| discriminate].
      injection H as <- <-.
      destruct (Hirq _ _ eq_refl) as (? & ? & ? & ? & ? & ?).
      repeat split; auto; try (right; split; [tauto | assumption]).
    + rewrite on_full_event_hardware in H. injection H as <- <-.
      cbn. repeat split; auto; try (right; split; [tauto | reflexivity]).
  - rewrite on_full_event_armed in H.
    destruct (on_event e p _) as [[p1 s1] |] eqn:E; [| discriminate].
    injection H as <- <-.
    assert (Hq : (Armed p = Arming AtSetSpeed
                  <-> Armed p1 = Arming AtSetSpeed))
      by (split; discriminate).
    destruct e as [| | csr rhr].
    + cbn [on_event] in E.
      apply poll_inv in E
        as [(_ & _ & ->) | [(_ & _ & ->) | [(_ & _ & _ & ->)
           | [(_ & _ & _ & _ & y & b & _ & _ & ->)
           | [(_ & _ & ->) | (ret & _ & _ & ->)]]]]];
        cbn; repeat split; auto.
    + rewrite on_event_interrupt in E.
      destruct (at91_usart_spi_interrupt _) as [[r s2] |] eqn:Ei;
        [| discriminate].
      injection E as _ <-.
      destruct (Hirq _ _ eq_refl) as (? & ? & ? & ? & ? & ?).
      repeat split; auto.
    + rewrite on_event_hardware in E. injection E as _ <-.
      cbn. repeat split; auto.
Qed.

(** X22: for every transfer, in every state it can reach under any
    interleaving of the statements of [transfer_one], runs of the handler
    and changes of the device, the configuration of the device is the one
    the transfer started with: the mode register and the command register
    are untouched and the clock rate kept in the private structure is
    unchanged; the baud-rate register holds what it held until the first
    arming statement has run and the divider for this transfer from then
    on; the interrupt mask is the one the transfer started with, or that
    mask with the overrun and receive-ready sources cleared, so no source
    is ever enabled; the lock is free between any two events. *)
Theorem transfer_keeps_configuration (xfer : spi_transfer)
    (s0 : at91_usart_spi) (sched : list event) (q : full_pc)
    (s : at91_usart_spi) :
  lock s0 = false ->
  full_run xfer sched (Arming AtSetSpeed) s0 = Ok (q, s) ->
  lock s = false
  /\ hw_mr (regs s) = hw_mr (regs s0)
  /\ hw_cr (regs s) = hw_cr (regs s0)
  /\ spi_clk s = spi_clk s0
  /\ (q = Arming AtSetSpeed -> hw_brgr (regs s) = hw_brgr (regs s0))
  /\ (q <> Arming AtSetSpeed ->
      hw_brgr (regs s)
      = u32 (DIV_ROUND_UP 32 (u32 (spi_clk s0)) (u32 (speed_hz xfer))))
  /\ (hw_imr (regs s) = hw_imr (regs s0)
      \/ hw_imr (regs s)
         = Z.land (hw_imr (regs s0)) (Z.lnot US_OVRE_RXRDY_IRQS))
  /\ (forall i, 0 <= i ->
        Z.testbit (hw_imr (regs s)) i = true ->
        Z.testbit (hw_imr (regs s0)) i = true).
Proof.
  intros Hlock H.
  set (divider := u32 (DIV_ROUND_UP 32 (u32 (spi_clk s0))
                         (u32 (speed_hz xfer)))).
  assert (Hgo : forall sch q1 t q' t',
            lock t = false -> spi_clk t = spi_clk s0 ->
            (q1 <> Arming AtSetSpeed -> hw_brgr (regs t) = divider) ->
            full_run xfer sch q1 t = Ok (q', t') ->
            lock t' = false
            /\ hw_mr (regs t') = hw_mr (regs t)
            /\ hw_cr (regs t') = hw_cr (regs t)
            /\ spi_clk t' = spi_clk s0
            /\ (q' = Arming AtSetSpeed ->
                q1 = Arming AtSetSpeed
                /\ hw_brgr (regs t') = hw_brgr (regs t))
            /\ (q' <> Arming AtSetSpeed -> hw_brgr (regs t') = divider)
            /\ (hw_imr (regs t') = hw_imr (regs t)
                \/ hw_imr (regs t')
                   = Z.land (hw_imr (regs t)) (Z.lnot US_OVRE_RXRDY_IRQS))).
  { induction sch as [| e sch IH]; intros q1 t q' t' Hl Hk Hb Hr.
    - injection Hr as <- <-. repeat split; auto.
    - rewrite full_run_cons in Hr.
      destruct (on_full_event xfer e q1 t) as [[q2 t2] |] eqn:E;
        [| discriminate].
      destruct (on_full_event_config _ _ _ _ _ _ Hl E)
        as (Hl2 & Hm2 & Hc2 & Hk2 & Hi2 & Hb2).
      destruct (IH q2 t2 q' t' Hl2 ltac:(congruence)) as
        (Hl3 & Hm3 & Hc3 & Hk3 & Hb3 & Hb3' & Hi3); [| exact Hr |].
      { intros Hne.
        destruct Hb2 as [(_ & _ & Eb) | [Hiff Eb]].
        - rewrite Eb, Hk. reflexivity.
        - rewrite Eb. apply Hb. tauto. }
      split; [exact Hl3 |]. split; [congruence |]. split; [congruence |].
      split; [exact Hk3 |].
      split.
      { intros Eq. destruct (Hb3 Eq) as [-> Eb3].
        destruct Hb2 as [(_ & Ebad & _) | [Hiff Eb]]; [discriminate |].
        split; [tauto | congruence]. }
      split; [exact Hb3' |].
      destruct Hi2 as [Ei2 | Ei2], Hi3 as [Ei3 | Ei3];
        rewrite Ei3, Ei2; auto.
      right. now rewrite <- Z.land_assoc, Z.land_diag. }
  destruct (Hgo sched (Arming AtSetSpeed) s0 q s Hlock eq_refl) as
    (Hl & Hm & Hc & Hk & Hb & Hb' & Hi); [tauto | exact H |].
  repeat (split; [assumption |]).
  split; [intros Eq; now apply Hb |]. split; [exact Hb' |].
  split; [exact Hi |].
  intros i Hi0 Hbit. destruct Hi as [Ei | Ei]; rewrite Ei in Hbit; auto.
  rewrite Z.land_spec in Hbit. now apply andb_true_iff in Hbit as [Hbit _].
Qed.
End DataModel.

(** * The properties at work

    On the data model of the ARM cores that carry the device, ILP32,
    unless said otherwise. *)

Lemma interrupt_handler_cases_witness :
  exists s',
    at91_usart_spi_interrupt ILP32 aus_all_received = Ok (IRQ_HANDLED, s')
    /\ current_transfer s' = Some xfer_one_done
    /\ current_rx_remaining_bytes s' = 0.
Proof.
  assert (Hok : cursor_ok aus_all_received xfer_one_done).
  { split; cbn; unfold INT_MAX; first [reflexivity | lia]. }
  destruct (interrupt_handler_cases ILP32 aus_all_received xfer_one_done
              eq_refl Hok) as (_ & _ & Hidle & _).
  destruct (Hidle eq_refl eq_refl eq_refl)
    as (s' & Hrun & _ & _ & Hct & Hrem & _).
  exists s'. auto.
Defined.

(** C2 as specified fails once every byte has been received: a further
    receive-ready event is reported as handled, yet nothing is read and
    the counter stays at zero. *)
Lemma interrupt_handler_cases_counterexample :
  lock aus_all_received = false
  /\ cursor_ok aus_all_received xfer_one_done
  /\ ~ spec_rx_ready_branch ILP32 aus_all_received xfer_one_done.
Proof.
  split; [reflexivity |]. split.
  { split; cbn; unfold INT_MAX; first [reflexivity | lia]. }
  intros H. destruct (H eq_refl eq_refl) as (s' & Hrun & _ & _ & Hrem).
  vm_compute in Hrun. injection Hrun as <-.
  cbn in Hrem. discriminate.
Qed.

Lemma lock_discipline_witness :
  exists s' es,
    transfer_one_step AtReadStatus aus_armed = Ok (AtTx, s')
    /\ appended aus_armed s' es /\ without_lock es.
Proof.
  eassert (E : transfer_one_step AtReadStatus aus_armed = Ok (AtTx, _))
    by (vm_compute; reflexivity).
  destruct (proj2 (lock_discipline ILP32 aus_armed eq_refl) _ _ _ E)
    as (es & Ha & Hw & _).
  eexists _, es. split; [exact E |]. split; assumption.
Defined.

Lemma driving_loop_witness :
  exists s,
    (transfer_one_arm xfer_three;; run ILP32 echo_schedule AtCond) aus_prepared
    = Ok (Returned 0, s)
    /\ current_tx_remaining_bytes s = 0
    /\ current_rx_remaining_bytes s = 0.
Proof.
  assert (Hok : xfer_ok xfer_three) by (split; cbn; lia).
  eassert (E : (transfer_one_arm xfer_three;; run ILP32 echo_schedule AtCond)
                 aus_prepared = Ok (Returned 0, _))
    by (vm_compute; reflexivity).
  pose proof (driving_loop ILP32 xfer_three Hok aus_prepared echo_schedule _ _
                eq_refl E)
    as (_ & _ & _ & _ & _ & _ & Hret).
  destruct (Hret 0 eq_refl) as [(_ & Ht & Hr) | (Heio & _)];
    [| vm_compute in Heio; discriminate].
  eexists. split; [exact E |]. split; assumption.
Defined.

(** The exchange of the specification's example: three bytes at 1 MHz on
    a 150 MHz clock, answered in lock-step. *)
Example echo_exchange :
  exists s,
    at91_usart_spi_transfer_one ILP32 xfer_three echo_schedule aus_prepared
    = Ok (Some 0, s)
    /\ current_transfer s
       = Some (mk_xfer [x01; x02; x03] [xaa; xbb; xcc] 3 1000000)
    /\ hw_thr (regs s) = [x01; x02; x03]
    /\ hw_brgr (regs s) = 150.
Proof. eexists. vm_compute. repeat split; reflexivity. Qed.

(** The same exchange with an overrun after the first byte. *)
Example echo_exchange_overrun :
  exists s,
    at91_usart_spi_transfer_one ILP32 xfer_three
      (overrun_prefix ++ Interrupt :: overrun_suffix) aus_prepared
    = Ok (Some (- EIO), s)
    /\ current_transfer s
       = Some (mk_xfer [x01; x02; x03] [xaa; x00; x00] 3 1000000)
    /\ hw_imr (regs s) = 0.
Proof. eexists. vm_compute. repeat split; reflexivity. Qed.

(** The gating of the handler by the interrupt mask is what protects an
    abandoned transfer: the handler itself does not look at the failure
    flag, so a run of it on a receive-ready status after the failure
    would still store a byte. *)
Example handler_ignores_failure_flag :
  exists s,
    xfer_failed (mk_aus (Some xfer_three) (mk_usart 0 0 0 1 xbb [] 0 0)
                   false 0 3 3 0 0 true []) = true
    /\ at91_usart_spi_interrupt ILP32
         (mk_aus (Some xfer_three) (mk_usart 0 0 0 1 xbb [] 0 0)
            false 0 3 3 0 0 true [])
       = Ok (IRQ_HANDLED, s)
    /\ current_transfer s
       = Some (mk_xfer [x01; x02; x03] [xbb; x00; x00] 3 1000000).
Proof. eexists. vm_compute. repeat split; reflexivity. Qed.

(** The status snapshot is one field for both contexts: a handler run
    between the loop's status read and its transmit step replaces the
    snapshot the transmit step tests. *)
Example snapshot_is_shared :
  exists s s',
    run ILP32 [Hardware 2 x00; Poll; Poll] AtReadStatus aus_armed
    = Ok (AtCond, s)
    /\ hw_thr (regs s) = [x01]
    /\ run ILP32 [Hardware 2 x00; Poll; Hardware 1 xaa; Interrupt; Poll]
         AtReadStatus aus_armed = Ok (AtCond, s')
    /\ hw_thr (regs s') = [].
Proof. eexists _, _. vm_compute. repeat split; reflexivity. Qed.

Lemma lockstep_completes_witness :
  exists s,
    at91_usart_spi_transfer_one ILP32 xfer_three (lockstep [xaa; xbb; xcc])
      aus_prepared = Ok (Some 0, s)
    /\ current_transfer s
       = Some (mk_xfer [x01; x02; x03] [xaa; xbb; xcc] 3 1000000)
    /\ hw_thr (regs s) = [x01; x02; x03].
Proof.
  assert (Hok : xfer_ok xfer_three) by (split; cbn; lia).
  assert (Hmax : len xfer_three <= INT_MAX) by (cbn; unfold INT_MAX; lia).
  destruct (lockstep_completes ILP32 xfer_three Hok Hmax aus_prepared
              [xaa; xbb; xcc] eq_refl eq_refl)
    as (s & Hrun & Hct & Hthr & _).
  exists s. split; [exact Hrun |]. split; [exact Hct | exact Hthr].
Defined.

Lemma masked_transfer_spins_witness :
  exists s,
    at91_usart_spi_transfer_one ILP32 xfer_three unattended_schedule
      aus_attached
    = Ok (None, s)
    /\ current_rx_remaining_bytes s = 3
    /\ current_transfer s = Some xfer_three.
Proof.
  assert (Hok : xfer_ok xfer_three) by (split; cbn; lia).
  eassert (E : transfer_one_arm xfer_three aus_attached = Ok (tt, _))
    by (vm_compute; reflexivity).
  destruct (masked_transfer_spins ILP32 xfer_three Hok aus_attached _
              unattended_schedule eq_refl eq_refl ltac:(cbn; lia) E)
    as (s & Hrun & Hrx & Hct & _).
  - vm_compute. reflexivity.
  - exists s. split; [exact Hrun |]. split; [exact Hrx | exact Hct].
Defined.

Lemma cursor_never_goes_back_witness :
  exists p1 s1 p2 s2,
    (transfer_one_arm xfer_three;; run ILP32 (beat xaa) AtCond) aus_prepared
    = Ok (p1, s1)
    /\ run ILP32 (beat xbb) p1 s1 = Ok (p2, s2)
    /\ current_tx_remaining_bytes s2 <= current_tx_remaining_bytes s1
    /\ current_rx_remaining_bytes s2 <= current_rx_remaining_bytes s1.
Proof.
  assert (Hok : xfer_ok xfer_three) by (split; cbn; lia).
  eassert (E : (transfer_one_arm xfer_three;; run ILP32 (beat xaa) AtCond)
                 aus_prepared = Ok (_, _)) by (vm_compute; reflexivity).
  match type of E with
  | _ = Ok (?p, ?s) =>
      eassert (E2 : run ILP32 (beat xbb) p s = Ok (_, _))
        by (vm_compute; reflexivity)
  end.
  destruct (cursor_never_goes_back ILP32 xfer_three Hok aus_prepared (beat xaa)
              (beat xbb) _ _ _ _ eq_refl E E2) as ([_ Ht] & [_ Hr] & _).
  eexists _, _, _, _. split; [exact E |]. split; [exact E2 |].
  split; [exact Ht | exact Hr].
Defined.

Lemma empty_transfer_witness :
  exists s,
    at91_usart_spi_transfer_one ILP32 xfer_empty [Poll; Poll] aus_prepared
    = Ok (Some 0, s)
    /\ hw_thr (regs s) = []
    /\ hw_brgr (regs s) = 150.
Proof.
  destruct (empty_transfer ILP32 xfer_empty aus_prepared [Poll; Poll])
    as (s & Hrun & _ & Hthr & Hbrgr & _).
  - reflexivity.
  - vm_compute. discriminate.
  - repeat constructor; discriminate.
  - cbn. lia.
  - exists s. split; [exact Hrun |]. split; [exact Hthr | exact Hbrgr].
Defined.

Lemma interrupt_without_transfer_witness :
  at91_usart_spi_interrupt ILP32 aus_prepared_rx_ready = Fault NullDeref.
Proof.
  apply (interrupt_without_transfer ILP32 aus_prepared_rx_ready eq_refl
           eq_refl).
  split; reflexivity.
Defined.

Lemma setup_cleanup_round_trip_witness :
  exists spi' h' s',
    at91_usart_spi_setup true peer_fresh_mode3 ∅ aus_attached
    = Ok ((0, spi', h'), s')
    /\ at91_usart_spi_cleanup spi' h' = (peer_fresh_mode3, ∅).
Proof.
  destruct (setup_cleanup_round_trip peer_fresh_mode3 ∅ aus_attached
              eq_refl eq_refl)
    as (spi' & h' & s' & p & Hsetup & _ & _ & _ & _ & Hclean & _).
  exists spi', h', s'. split; [exact Hsetup | exact Hclean].
Defined.

Lemma per_peer_mode_witness :
  exists a' b' h2 sa sb,
    at91_usart_spi_prepare_message a' h2 aus_attached = Ok (0, sa)
    /\ hw_mr (regs sa) = 0x1501CE
    /\ at91_usart_spi_prepare_message b' h2 aus_attached = Ok (0, sb)
    /\ hw_mr (regs sb) = 0x1400CE.
Proof.
  destruct (per_peer_mode peer_fresh_mode3 peer_fresh_mode0 ∅ aus_attached
              eq_refl eq_refl eq_refl eq_refl)
    as (a' & h1 & s1 & s2 & b' & h2 & s3 & _ & _ & _ & _ & Hprep).
  destruct (Hprep aus_attached) as (sa & sb & Ha & Hma & Hb & Hmb).
  exists a', b', h2, sa, sb.
  split; [exact Ha |]. split; [exact Hma |]. split; [exact Hb | exact Hmb].
Defined.


Lemma advertised_word_width_witness :
  exists ctlr s',
    at91_usart_spi_probe 32 (cooperative 150000000 usart_reset)
    = Ok (0, Some ctlr)
    /\ Z.land (bits_per_word_mask ctlr) (SPI_BPW_MASK 16) = 0
    /\ at91_usart_spi_setup true (mk_spi 16 0 0 None) ∅ (devdata ctlr)
       = Ok ((- EINVAL, mk_spi 16 0 0 None, ∅), s').
Proof.
  eassert (E : at91_usart_spi_probe 32 (cooperative 150000000 usart_reset)
               = Ok (0, Some _)) by (vm_compute; reflexivity).
  match type of E with
  | _ = Ok (_, Some ?c) =>
      destruct (advertised_word_width 32 _ 0 c true (mk_spi 16 0 0 None) ∅
                  (devdata c) E ltac:(cbn; lia)) as [Hland Hsetup]
  end.
  assert (Hz : Z.land (bits_per_word_mask _) (SPI_BPW_MASK 16) = 0)
    by (apply Hland; cbn; lia).
  destruct (proj1 Hsetup Hz) as (s' & Hs).
  eexists _, s'. split; [exact E |]. split; [exact Hz | exact Hs].
Defined.

Lemma probe_initialises_device_witness :
  exists ctlr,
    at91_usart_spi_probe 32 (cooperative 150000000 usart_reset)
    = Ok (0, Some ctlr)
    /\ hw_mr (regs (devdata ctlr)) = 0x1400CE
    /\ hw_cr (regs (devdata ctlr)) = 0xAC
    /\ hw_imr (regs (devdata ctlr)) = 0.
Proof.
  eassert (E : at91_usart_spi_probe 32 (cooperative 150000000 usart_reset)
               = Ok (0, Some _)) by (vm_compute; reflexivity).
  destruct (probe_initialises_device 32 _ 0 _ E)
    as (Hmr & Hcr & _ & _ & _ & Himr & _).
  eexists. split; [exact E |]. split; [exact Hmr |].
  split; [exact Hcr | exact Himr].
Defined.

Lemma suspend_resume_balance_witness :
  exists l1 l2 s',
    at91_usart_spi_suspend pm_awake [clk_prepare_enable 0] aus_prepared
    = Ok ((0, l1), aus_prepared)
    /\ clk_enable_count l1 = 0
    /\ at91_usart_spi_resume pm_awake l1 aus_prepared = Ok ((0, l2), s')
    /\ clk_enable_count l2 = 1
    /\ hw_mr (regs s') = 0x1400CE.
Proof.
  destruct (suspend_resume_balance pm_awake pm_awake [clk_prepare_enable 0]
              aus_prepared eq_refl eq_refl eq_refl)
    as (l1 & l2 & s' & Hs & Hr & El1 & _ & Hc & Hmr & _).
  exists l1, l2, s'. split; [exact Hs |].
  split; [rewrite El1; reflexivity |].
  split; [exact Hr |]. split; [exact Hc | exact Hmr].
Defined.

Lemma probe_remove_balance_witness :
  exists ctlr,
    at91_usart_spi_probe 32 (cooperative 150000000 usart_reset)
    = Ok (0, Some ctlr)
    /\ clk_enable_count
         (at91_usart_spi_probe_calls (cooperative 150000000 usart_reset))
       = 1
    /\ clk_enable_count
         (at91_usart_spi_probe_calls (cooperative 150000000 usart_reset)
            ++ [clk_disable_unprepare]) = 0.
Proof.
  eassert (E : at91_usart_spi_probe 32 (cooperative 150000000 usart_reset)
               = Ok (0, Some _)) by (vm_compute; reflexivity).
  destruct (probe_remove_balance 32 _ 0 _ aus_attached E)
    as (Hclk & _ & Hrm).
  destruct (Hrm ltac:(discriminate)) as [_ Hz].
  eexists. split; [exact E |]. split; [exact Hclk | exact Hz].
Defined.

Lemma setup_ignores_other_flags_witness :
  exists h1 s1,
    at91_usart_spi_setup true peer_fresh_mode3 ∅ aus_attached
    = Ok ((0, with_controller_state peer_fresh_mode3 (Some 0%nat), h1), s1)
    /\ at91_usart_spi_setup true (mk_spi 8 7 2 None) ∅ aus_attached
       = Ok ((0, with_controller_state (mk_spi 8 7 2 None) (Some 0%nat), h1),
             s1).
Proof.
  eassert (E : at91_usart_spi_setup true peer_fresh_mode3 ∅ aus_attached
               = Ok ((0, with_controller_state peer_fresh_mode3
                           (Some 0%nat), _), _)).
  { unfold aus_attached. rewrite setup_first by reflexivity. reflexivity. }
  destruct (setup_ignores_other_flags true peer_fresh_mode3
              (mk_spi 8 7 2 None) ∅ aus_attached
              eq_refl eq_refl eq_refl eq_refl eq_refl) as [_ Hsame].
  eexists _, _. split; [exact E |]. exact (Hsame _ _ _ _ E).
Defined.

(** ** Arming, statement by statement, at work *)

Lemma overrun_aborts_transfer_witness :
  exists q1 s1 s2 x,
    full_run ILP32 xfer_three (arming ++ overrun_prefix) (Arming AtSetSpeed)
      aus_prepared = Ok (q1, s1)
    /\ full_run ILP32 xfer_three (Interrupt :: overrun_suffix) q1 s1
       = Ok (Armed (Returned (- EIO)), s2)
    /\ current_transfer s2 = Some x
    /\ rx_buf x = [xaa; x00; x00].
Proof.
  assert (Hok : xfer_ok xfer_three) by (split; cbn; lia).
  eassert (E : full_run ILP32 xfer_three (arming ++ overrun_prefix)
                 (Arming AtSetSpeed) aus_prepared = Ok (_, _))
    by (vm_compute; reflexivity).
  destruct (overrun_aborts_transfer ILP32 xfer_three Hok aus_prepared
              (arming ++ overrun_prefix) overrun_suffix _ _ 1
              eq_refl eq_refl E)
    as (q2 & s2 & es & Hrun & _ & _ & _ & _ & _ & Hct & _ & Hret & _).
  - reflexivity.
  - reflexivity.
  - cbn. lia.
  - reflexivity.
  - vm_compute. reflexivity.
  - destruct (Hct AtCond eq_refl) as [Hc _].
    assert (Hq : full_returned q2 = Some (- EIO))
      by (apply Hret; cbn; lia).
    destruct q2 as [a | [| | | | ret]]; try discriminate Hq.
    injection Hq as ->.
    eexists _, _, s2, _. split; [exact E |]. split; [exact Hrun |].
    split; [exact Hc | reflexivity].
Defined.

(** C3 as specified fails when a source other than the two the driver
    masks is enabled: with transmit-ready enabled as well, the handler
    runs again after the overrun, finds receive-ready without overrun in
    the status and stores a byte at index 1 of the receive buffer, one
    byte having been received before the overrun. *)
Lemma overrun_aborts_transfer_counterexample :
  xfer_ok xfer_three
  /\ lock aus_prepared_txrdy = false
  /\ Z.land (hw_imr (regs aus_prepared_txrdy)) (Z.lnot US_OVRE_RXRDY_IRQS)
     = US_IR_TXRDY
  /\ ~ spec_overrun_aborts ILP32 xfer_three aus_prepared_txrdy
         (arming ++ overrun_prefix) late_receive.
Proof.
  split; [split; cbn; lia |]. split; [reflexivity |].
  split; [reflexivity |].
  intros H.
  eassert (E : full_run ILP32 xfer_three (arming ++ overrun_prefix)
                 (Arming AtSetSpeed) aus_prepared_txrdy = Ok (_, _))
    by (vm_compute; reflexivity).
  destruct (H _ _ 1 E) as (q2 & s2 & es & Hrun & _ & _ & _ & Hct & _).
  - reflexivity.
  - cbn. lia.
  - reflexivity.
  - vm_compute. reflexivity.
  - specialize (Hct AtCond eq_refl).
    vm_compute in Hrun. injection Hrun as _ <-.
    vm_compute in Hct. discriminate Hct.
Qed.

(** What the amended claim leaves out: an overrun that the handler
    processes after the first arming statement and before the second is
    lost.  The handler sets the failure flag and masks both sources, the
    second arming statement clears the flag again, and from then on
    nothing can end the transfer: after thirty more steps the polling
    context is still in its loop. *)
Example overrun_lost_while_arming :
  exists s1 s2 q3 s3,
    full_run ILP32 xfer_three early_overrun (Arming AtSetSpeed) aus_prepared
    = Ok (Arming AtClearFailed, s1)
    /\ full_admissible ILP32 xfer_three (Interrupt :: polling_alone)
         (Arming AtClearFailed) s1 = true
    /\ at91_usart_spi_interrupt ILP32 s1 = Ok (IRQ_HANDLED, s2)
    /\ xfer_failed s2 = true
    /\ hw_imr (regs s2) = 0
    /\ full_run ILP32 xfer_three polling_alone (Arming AtClearFailed) s2
       = Ok (q3, s3)
    /\ full_returned q3 = None
    /\ xfer_failed s3 = false
    /\ hw_imr (regs s3) = 0
    /\ ~ spec_overrun_aborts ILP32 xfer_three aus_prepared early_overrun
           polling_alone.
Proof.
  eexists _, _, _, _.
  split; [vm_compute; reflexivity |].
  split; [vm_compute; reflexivity |].
  split; [vm_compute; reflexivity |].
  split; [reflexivity |]. split; [reflexivity |].
  split; [vm_compute; reflexivity |].
  split; [reflexivity |]. split; [reflexivity |]. split; [reflexivity |].
  intros H.
  eassert (E : full_run ILP32 xfer_three early_overrun (Arming AtSetSpeed)
                 aus_prepared = Ok (_, _)) by (vm_compute; reflexivity).
  destruct (H _ _ 0 E) as (q2 & s2 & es & Hrun & _ & _ & _ & _ & Hret).
  - reflexivity.
  - cbn. lia.
  - reflexivity.
  - vm_compute. reflexivity.
  - vm_compute in Hrun. injection Hrun as <- _.
    specialize (Hret ltac:(vm_compute; lia)). discriminate Hret.
Qed.

Lemma overrun_while_arming_is_lost_witness :
  exists s1 sh q2 s2,
    full_run ILP32 xfer_three early_overrun (Arming AtSetSpeed) aus_prepared
    = Ok (Arming AtClearFailed, s1)
    /\ at91_usart_spi_interrupt ILP32 s1 = Ok (IRQ_HANDLED, sh)
    /\ full_run ILP32 xfer_three polling_alone (Arming AtClearFailed) sh
       = Ok (q2, s2)
    /\ full_returned q2 = None
    /\ xfer_failed s2 = false
    /\ hw_imr (regs s2) = 0.
Proof.
  assert (Hok : xfer_ok xfer_three) by (split; cbn; lia).
  eassert (E : full_run ILP32 xfer_three early_overrun (Arming AtSetSpeed)
                 aus_prepared = Ok (Arming AtClearFailed, _))
    by (vm_compute; reflexivity).
  destruct (overrun_while_arming_is_lost ILP32 xfer_three Hok aus_prepared
              early_overrun polling_alone _ _ eq_refl ltac:(cbn; lia)
              eq_refl E eq_refl eq_refl)
    as (sh & q2 & s2 & Hirq & _ & _ & Hrun & _ & Hret & Himr & Hflag & _).
  - vm_compute. reflexivity.
  - eexists _, sh, q2, s2. split; [exact E |]. split; [exact Hirq |].
    split; [exact Hrun |]. split; [exact Hret |]. split; [| exact Himr].
    apply Hflag.
    vm_compute in Hirq. injection Hirq as <-.
    vm_compute in Hrun. injection Hrun as <- _. reflexivity.
Defined.

(** The handler between the arming statements of the very first transfer:
    no transfer is installed yet, and the receive step dereferences
    NULL. *)
Example arming_race_first_transfer :
  current_transfer aus_prepared_rx_ready = None
  /\ full_admissible ILP32 xfer_three [Poll; Interrupt] (Arming AtSetSpeed)
       aus_prepared_rx_ready = true
  /\ full_run ILP32 xfer_three [Poll; Interrupt] (Arming AtSetSpeed)
       aus_prepared_rx_ready = Fault NullDeref.
Proof. repeat split; vm_compute; reflexivity. Qed.

(** The handler between the arming statements after a transfer that
    failed: the receive counter of the failed transfer is still in place
    when the next transfer is installed.  For a transfer of one byte the
    store lands outside its receive buffer, in both data models; for a
    transfer of three bytes it lands at index 1 before any byte of that
    transfer has been received. *)
Example arming_race_stale_counter :
  current_rx_remaining_bytes aus_after_overrun = 2
  /\ full_admissible ILP32 xfer_one_done [Poll; Poll; Poll; Interrupt]
       (Arming AtSetSpeed) aus_after_overrun = true
  /\ full_run ILP32 xfer_one_done [Poll; Poll; Poll; Interrupt]
       (Arming AtSetSpeed) aus_after_overrun = Fault OutOfBounds
  /\ full_run LP64 xfer_one_done [Poll; Poll; Poll; Interrupt]
       (Arming AtSetSpeed) aus_after_overrun = Fault OutOfBounds
  /\ exists s,
       full_run ILP32 xfer_three [Poll; Poll; Poll; Interrupt; Poll; Poll]
         (Arming AtSetSpeed) aus_after_overrun = Ok (Armed AtCond, s)
       /\ current_rx_remaining_bytes s = 3
       /\ current_transfer s
          = Some (mk_xfer [x01; x02; x03] [x00; xbb; x00] 3 1000000).
Proof.
  split; [reflexivity |]. split; [vm_compute; reflexivity |].
  split; [vm_compute; reflexivity |]. split; [vm_compute; reflexivity |].
  eexists. vm_compute. repeat split; reflexivity.
Qed.

Lemma transfer_never_faults_witness :
  exists q s,
    full_run ILP32 xfer_three (disturbed_arming ++ lockstep [xaa; xbb; xcc])
      (Arming AtSetSpeed) aus_all_received = Ok (q, s).
Proof.
  apply (transfer_never_faults ILP32 xfer_three);
    [split; cbn; lia | cbn; unfold INT_MAX; lia | reflexivity |].
  left. split; [discriminate | reflexivity].
Defined.

Lemma receive_in_order_witness :
  exists s x es,
    full_run ILP32 xfer_three (disturbed_arming ++ lockstep [xaa; xbb; xcc])
      (Arming AtSetSpeed) aus_all_received = Ok (Armed (Returned 0), s)
    /\ current_transfer s = Some x
    /\ rx_buf x = rhr_reads es
    /\ Z.of_nat (length (rhr_reads es)) = 3.
Proof.
  assert (Hok : xfer_ok xfer_three) by (split; cbn; lia).
  assert (Hmax : len xfer_three <= INT_MAX) by (cbn; unfold INT_MAX; lia).
  eassert (E : full_run ILP32 xfer_three
                 (disturbed_arming ++ lockstep [xaa; xbb; xcc])
                 (Arming AtSetSpeed) aus_all_received
               = Ok (Armed (Returned 0), _))
    by (vm_compute; reflexivity).
  assert (Hrest : receiver_at_rest aus_all_received)
    by (split; [discriminate | reflexivity]).
  destruct (receive_in_order ILP32 xfer_three Hok Hmax aus_all_received
              (disturbed_arming ++ lockstep [xaa; xbb; xcc]) _ _ eq_refl
              (or_introl Hrest) E)
    as (es & _ & _ & _ & Hall).
  destruct (Hall eq_refl) as (x & Hct & Hbuf & Hlen).
  eexists _, x, es. split; [exact E |]. split; [exact Hct |].
  split; [exact Hbuf | exact Hlen].
Defined.


Lemma transfer_keeps_configuration_witness :
  exists s,
    full_run ILP32 xfer_three
      (arming ++ overrun_prefix ++ Interrupt :: overrun_suffix)
      (Arming AtSetSpeed) aus_prepared
    = Ok (Armed (Returned (- EIO)), s)
    /\ hw_mr (regs s) = 0x1501CE
    /\ hw_brgr (regs s) = 150
    /\ hw_imr (regs s) = 0.
Proof.
  eassert (E : full_run ILP32 xfer_three
                 (arming ++ overrun_prefix ++ Interrupt :: overrun_suffix)
                 (Arming AtSetSpeed) aus_prepared
               = Ok (Armed (Returned (- EIO)), _))
    by (vm_compute; reflexivity).
  destruct (transfer_keeps_configuration ILP32 xfer_three aus_prepared _ _ _
              eq_refl E) as (_ & Hmr & _ & _ & _ & Hbrgr & _).
  eexists. split; [exact E |]. split; [exact Hmr |].
  split; [apply Hbrgr; discriminate | reflexivity].
Defined.

(** ** The index of the receive step *)

Lemma steps_stay_in_bounds_witness :
  exists s',
    at91_usart_spi_rx ILP32 aus_after_overrun = Ok (tt, s')
    /\ current_transfer s'
       = Some (mk_xfer [x01; x02; x03] [xaa; xbb; x00] 3 1000000)
    /\ current_rx_remaining_bytes s' = 1.
Proof.
  assert (Hok : cursor_in aus_after_overrun
                  (mk_xfer [x01; x02; x03] [xaa; x00; x00] 3 1000000))
    by (split; cbn; first [reflexivity | lia]).
  assert (Hfit : rx_index_fits ILP32 3) by (intros E; discriminate E).
  destruct (steps_stay_in_bounds ILP32 aus_after_overrun _ Hok Hfit)
    as (_ & _ & _ & Hrx & _).
  destruct (Hrx ltac:(discriminate)) as (s' & x' & _ & Hrun & Hct & Hx & _).
  exists s'. split; [exact Hrun |].
  split; [rewrite Hct, Hx; reflexivity |].
  vm_compute in Hrun. injection Hrun as <-. reflexivity.
Defined.

Lemma xfer_huge_tx_buf : Z.of_nat (length (tx_buf xfer_huge)) = huge.
Proof.
  cbn [tx_buf xfer_huge]. rewrite repeat_length.
  apply Z2Nat.id. unfold huge. lia.
Qed.

Lemma xfer_huge_rx_buf : Z.of_nat (length (rx_buf xfer_huge)) = huge.
Proof.
  cbn [rx_buf xfer_huge]. rewrite repeat_length.
  apply Z2Nat.id. unfold huge. lia.
Qed.

(** C9: [at91_usart_spi_rx] computes its index in [int] where
    [at91_usart_spi_tx] computes it in [unsigned int].  With the last byte
    of a transfer of 2^31 + 1 bytes outstanding, everything is as the
    claim supposes (the transfer is installed, the counters are within
    its length, the buffers are of its length), and the index comes out
    as -2^31.  Under LP64 the store lands 2^31 bytes before the receive
    buffer: the receive step, and with it the handler on a receive-ready
    status, faults, where the claim has the byte stored at index 2^31 of
    [0, len).  The transmit step at the same place of its cursor sends
    tx_buf[2^31].  Under ILP32 the address wraps and the byte is stored at
    rx_buf[2^31]. *)
Theorem rx_step_out_of_bounds :
  cursor_in aus_huge_last xfer_huge
  /\ current_rx_remaining_bytes aus_huge_last = 1
  /\ len xfer_huge - 1 = 2 ^ 31
  /\ s32 (s32 (len xfer_huge)
          - s32 (current_rx_remaining_bytes aus_huge_last)) = - 2 ^ 31
  /\ pointer_offset LP64 (- 2 ^ 31) = 2 ^ 64 - 2 ^ 31
  /\ at91_usart_spi_rx LP64 aus_huge_last = Fault OutOfBounds
  /\ at91_usart_spi_interrupt LP64 aus_huge_last = Fault OutOfBounds
  /\ ~ spec_rx_in_bounds LP64 aus_huge_last xfer_huge
  /\ (exists s',
        at91_usart_spi_rx ILP32 aus_huge_last = Ok (tt, s')
        /\ current_transfer s'
           = Some (received xfer_huge (len xfer_huge - 1) xff))
  /\ (exists s' b,
        tx_buf xfer_huge !! Z.to_nat (len xfer_huge - 1) = Some b
        /\ at91_usart_spi_tx aus_huge_tx_last = Ok (tt, s')
        /\ hw_thr (regs s') = [b]).
Proof.
  pose proof xfer_huge_tx_buf as Htb. pose proof xfer_huge_rx_buf as Hrb.
  assert (Hrx : at91_usart_spi_rx LP64 aus_huge_last = Fault OutOfBounds).
  { unfold aus_huge_last, xfer_huge.
    apply rx_lands_outside;
      [reflexivity | unfold huge; lia | unfold huge; lia | unfold huge; lia
      | exact Hrb]. }
  split.
  { split; [reflexivity | | | | exact Htb | exact Hrb];
      cbn [current_tx_remaining_bytes current_rx_remaining_bytes
           aus_huge_last len xfer_huge]; unfold huge; lia. }
  split; [reflexivity |]. split; [reflexivity |].
  split; [reflexivity |]. split; [reflexivity |].
  split; [exact Hrx |].
  split.
  { unfold aus_huge_last, xfer_huge.
    apply interrupt_lands_outside;
      [reflexivity | reflexivity | reflexivity | unfold huge; lia
      | unfold huge; lia | unfold huge; lia | exact Hrb]. }
  split.
  { intros H. destruct H as (s' & i & _ & Hrun & _).
    - cbn [current_rx_remaining_bytes aus_huge_last]. lia.
    - rewrite Hrx in Hrun. discriminate. }
  split.
  - unfold aus_huge_last at 1. unfold xfer_huge at 1.
    rewrite rx_takes_fits;
      [| unfold huge; lia | unfold huge; lia | intros E; discriminate E
       | exact Hrb].
    eexists. split; [reflexivity |]. reflexivity.
  - destruct (lookup_lt_is_Some_2 (tx_buf xfer_huge)
                (Z.to_nat (len xfer_huge - 1))) as [b Hb].
    { apply Nat2Z.inj_lt. rewrite Htb, Z2Nat.id; cbn [len xfer_huge];
        unfold huge; lia. }
    exists (mk_aus (Some xfer_huge)
              (hw_writeb US_THR b
                 (mk_usart US_ENABLE US_INIT US_OVRE_RXRDY_IRQS 2 x00 []
                    150 0))
              false 0 (1 - 1) 0 150000000 2 false
              [(false, Store FTxRemaining); (false, Writeb US_THR b)]), b.
    split; [exact Hb |].
    split; [| reflexivity].
    unfold aus_huge_tx_last, xfer_huge.
    apply tx_sends;
      [reflexivity | unfold huge; lia | unfold huge; lia | exact Hb].
Qed.
